(** * psycopg3: adaptation of values and the cursor's query pipeline

    A shallow embedding of [psycopg3/cursor.py], [psycopg3/types/numeric.py]
    and [psycopg3/types/composite.py].  Python exceptions are the [Raise]
    branch of [result]; methods that mutate [self] thread the object
    explicitly and hand it back also when they raise, since a Python
    exception does not undo the assignments made before it. *)

From Stdlib Require Import ZArith List Lia String Ascii QArith Bool.
From Stdlib Require Import Strings.Byte DecimalFacts DecimalN DecimalPos.
From coqutil Require Import Byte Word.LittleEndianList.
From stdpp Require Import base option list sorting countable gmap strings.
Import ListNotations.
Local Open Scope Z_scope.

(** ** Exceptions *)

Inductive ExcClass :=
| InternalError | ProgrammingError | OperationalError | InterfaceError
| DatabaseError | DataError | IntegrityError | UniqueViolation
| SerializationFailure | NotSupportedError
| AssertionError | KeyError | IndexError | ValueError | StructError
| InvalidOperation | UnicodeError.

Record PyExc := mkExc { exc_class : ExcClass; exc_msg : string }.

Inductive result (A : Type) :=
| Ok (a : A)
| Raise (e : PyExc).
Arguments Ok {A} a.
Arguments Raise {A} e.

#[global] Instance result_ret : MRet result := fun A a => Ok a.

#[global] Instance result_bind : MBind result := fun A B k m =>
  match m with
  | Ok a => k a
  | Raise e => Raise e
  end.

#[global] Instance result_fmap : FMap result := fun A B f m =>
  match m with
  | Ok a => Ok (f a)
  | Raise e => Raise e
  end.

Abbreviation bytes := (list byte).

#[global] Instance byte_eq_decision : EqDecision byte :=
  Stdlib.Strings.Byte.byte_eq_dec.

(** The bytes literals of the source. *)
Definition B (s : string) : bytes := list_byte_of_string s.

(** ** pq: wire formats and result statuses *)

Module pq.

(** [pq.Format]: [Format(False)] is [TEXT], [Format(True)] is [BINARY]. *)
Inductive Format := TEXT | BINARY.

Definition Format_of_bool (b : bool) : Format :=
  if b then BINARY else TEXT.

(** [pq.ExecStatus], in the order of libpq's [ExecStatusType]. *)
Inductive ExecStatus :=
| EMPTY_QUERY | COMMAND_OK | TUPLES_OK | COPY_OUT | COPY_IN
| BAD_RESPONSE | NONFATAL_ERROR | FATAL_ERROR | COPY_BOTH | SINGLE_TUPLE.

Definition ExecStatus_value (s : ExecStatus) : Z :=
  match s with
  | EMPTY_QUERY => 0 | COMMAND_OK => 1 | TUPLES_OK => 2 | COPY_OUT => 3
  | COPY_IN => 4 | BAD_RESPONSE => 5 | NONFATAL_ERROR => 6
  | FATAL_ERROR => 7 | COPY_BOTH => 8 | SINGLE_TUPLE => 9
  end.

Definition ExecStatus_name (s : ExecStatus) : string :=
  match s with
  | EMPTY_QUERY => "EMPTY_QUERY" | COMMAND_OK => "COMMAND_OK"
  | TUPLES_OK => "TUPLES_OK" | COPY_OUT => "COPY_OUT"
  | COPY_IN => "COPY_IN" | BAD_RESPONSE => "BAD_RESPONSE"
  | NONFATAL_ERROR => "NONFATAL_ERROR" | FATAL_ERROR => "FATAL_ERROR"
  | COPY_BOTH => "COPY_BOTH" | SINGLE_TUPLE => "SINGLE_TUPLE"
  end%string.

#[global] Instance ExecStatus_eq_dec : EqDecision ExecStatus.
Proof. solve_decision. Defined.

#[global] Instance Format_eq_dec : EqDecision Format.
Proof. solve_decision. Defined.

(** What the cursor reads of a [PGresult]: its status, the number of
    tuples, the SQLSTATE diagnostic field and the rows in wire form. *)
Record PGresult := mkPGresult {
  status : ExecStatus;
  ntuples : Z;
  sqlstate : option bytes;
  rows : list (list (option bytes));
}.

End pq.
Export pq.

(** ** The [struct] module of the Python runtime, network byte order *)

Module struct.

Definition pack_be (n : nat) (z : Z) : bytes := rev (le_split n z).
Definition unpack_be (data : bytes) : Z := le_combine (rev data).

Definition struct_error : PyExc := mkExc StructError "argument out of range".
Definition size_error : PyExc := mkExc StructError "unpack requires a buffer".

(** [Struct("!h")], [Struct("!i")], [Struct("!q")] with [n] = 2, 4, 8:
    [pack] raises [struct.error] on an integer that does not fit, [unpack]
    on a buffer of another size. *)
Definition pack_signed (n : nat) (z : Z) : result bytes :=
  if bool_decide (- 2 ^ (8 * Z.of_nat n - 1) <= z <= 2 ^ (8 * Z.of_nat n - 1) - 1)
  then Ok (pack_be n z) else Raise struct_error.

Definition to_signed (n : nat) (u : Z) : Z :=
  if bool_decide (u < 2 ^ (8 * Z.of_nat n - 1)) then u else u - 2 ^ (8 * Z.of_nat n).

Definition unpack_signed (n : nat) (data : bytes) : result Z :=
  if bool_decide (length data = n) then Ok (to_signed n (unpack_be data))
  else Raise size_error.

(** [Struct("!I")] *)
Definition pack_unsigned (n : nat) (z : Z) : result bytes :=
  if bool_decide (0 <= z <= 2 ^ (8 * Z.of_nat n) - 1)
  then Ok (pack_be n z) else Raise struct_error.

Definition unpack_unsigned (n : nat) (data : bytes) : result Z :=
  if bool_decide (length data = n) then Ok (unpack_be data)
  else Raise size_error.

Lemma length_pack_be n z : length (pack_be n z) = n.
Proof. unfold pack_be. rewrite length_rev. apply length_le_split. Qed.

Lemma unpack_pack_be n z : unpack_be (pack_be n z) = z mod 2 ^ (Z.of_nat n * 8).
Proof. unfold unpack_be, pack_be. rewrite rev_involutive. apply le_combine_split. Qed.

Lemma unpack_pack_signed n z data :
  (0 < n)%nat ->
  pack_signed n z = Ok data -> unpack_signed n data = Ok z.
Proof.
  unfold pack_signed, unpack_signed. intros Hn.
  case_bool_decide as Hr; [|discriminate]. intros [= <-].
  rewrite length_pack_be, bool_decide_eq_true_2 by reflexivity.
  f_equal. unfold to_signed. rewrite unpack_pack_be.
  replace (Z.of_nat n * 8) with (8 * Z.of_nat n) by lia.
  assert (H2 : 2 ^ (8 * Z.of_nat n) = 2 * 2 ^ (8 * Z.of_nat n - 1)).
  { rewrite <- Z.pow_succ_r by lia. f_equal. lia. }
  assert (Hpos : 0 < 2 ^ (8 * Z.of_nat n - 1)) by (apply Z.pow_pos_nonneg; lia).
  destruct (Z.lt_ge_cases z 0) as [Hneg|Hnn].
  - rewrite <- (Z.mod_add z 1) by lia.
    rewrite Z.mod_small by lia.
    rewrite bool_decide_eq_false_2 by lia. lia.
  - rewrite Z.mod_small by lia.
    rewrite bool_decide_eq_true_2 by lia. reflexivity.
Qed.

Lemma unpack_pack_unsigned n z data :
  pack_unsigned n z = Ok data -> unpack_unsigned n data = Ok z.
Proof.
  unfold pack_unsigned, unpack_unsigned.
  case_bool_decide as Hr; [|discriminate]. intros [= <-].
  rewrite length_pack_be, bool_decide_eq_true_2 by reflexivity.
  f_equal. rewrite unpack_pack_be.
  replace (Z.of_nat n * 8) with (8 * Z.of_nat n) by lia.
  apply Z.mod_small. lia.
Qed.

End struct.

(** ** types/oids.py *)

Module oids.

(** Modelled from the spec: the table [builtins] of [types/oids.py] is not
    among the sources.  The spec gives 2249 for [record]; the others are
    the oids these types have in PostgreSQL's catalogue. *)
Definition BOOL_OID : Z := 16.
Definition INT8_OID : Z := 20.
Definition INT2_OID : Z := 21.
Definition INT4_OID : Z := 23.
Definition TEXT_OID : Z := 25.
Definition OID_OID : Z := 26.
Definition FLOAT4_OID : Z := 700.
Definition FLOAT8_OID : Z := 701.
Definition NUMERIC_OID : Z := 1700.
Definition RECORD_OID : Z := 2249.

End oids.
Export oids.

(** ** Values of the Python runtime that the adapters handle *)

Module py.

(** A [decimal.Decimal]: sign, coefficient and exponent of a finite number
    (the coefficient is kept without leading zeros, so it is a number), an
    infinity, or a quiet or signaling NaN with its diagnostic payload. *)
Inductive PyDecimal :=
| Finite (sign : bool) (coeff : N) (exp : Z)
| Infinity (sign : bool)
| NaN (sign : bool) (signaling : bool) (payload : N).

(** A [float] is its IEEE 754 binary64 bit pattern. *)
Inductive PyValue :=
| VInt (z : Z)
| VBool (b : bool)
| VFloat (bits : Z)
| VDecimal (d : PyDecimal).

Inductive PyType := t_int | t_bool | t_float | t_Decimal.

Definition type_of (v : PyValue) : PyType :=
  match v with
  | VInt _ => t_int
  | VBool _ => t_bool
  | VFloat _ => t_float
  | VDecimal _ => t_Decimal
  end.

(** *** Decimal digits *)

Definition digit_byte (d : digits) : byte :=
  match d with
  | d0 => "0" | d1 => "1" | d2 => "2" | d3 => "3" | d4 => "4"
  | d5 => "5" | d6 => "6" | d7 => "7" | d8 => "8" | d9 => "9"
  end%byte.

Definition byte_digit (b : byte) : option digits :=
  match b with
  | "0" => Some d0 | "1" => Some d1 | "2" => Some d2 | "3" => Some d3
  | "4" => Some d4 | "5" => Some d5 | "6" => Some d6 | "7" => Some d7
  | "8" => Some d8 | "9" => Some d9 | _ => None
  end%byte.

Definition digits_value (ds : list digits) : N := N.of_uint (of_list ds).

(** The decimal text of [n >= 0] and of [z]. *)
Definition str_N (n : N) : bytes := digit_byte <$> to_list (N.to_uint n).

Definition int_text (z : Z) : bytes :=
  if bool_decide (z < 0) then "-"%byte :: str_N (Z.abs_N z) else str_N (Z.abs_N z).

(** [sys.get_int_max_str_digits()] of the runtime (CPython 3.11): [str] of
    an int with more digits, and [int] of a text with more digits, raise
    [ValueError]. *)
Definition int_max_str_digits : nat := 4300.

Definition int_limit_error : PyExc :=
  mkExc ValueError "Exceeds the limit (4300 digits) for integer string conversion".

(** [str(z)] *)
Definition str_int (z : Z) : result bytes :=
  if bool_decide (length (str_N (Z.abs_N z)) <= int_max_str_digits)%nat
  then Ok (int_text z) else Raise int_limit_error.

(** The longest prefix of decimal digits, and what follows it. *)
Fixpoint span_digits (s : bytes) : list digits * bytes :=
  match s with
  | [] => ([], [])
  | b :: rest =>
    match byte_digit b with
    | Some d => let '(ds, r) := span_digits rest in (d :: ds, r)
    | None => ([], s)
    end
  end.

(** [codecs.lookup("ascii").decode]: the text is the bytes themselves. *)
Definition ascii_decode (data : bytes) : result bytes :=
  if bool_decide (Forall (fun b => byte.unsigned b < 128) data) then Ok data
  else Raise (mkExc UnicodeError "'ascii' codec can't decode byte").

(** [str.isspace] on ASCII, which [str.strip] uses, and the narrower
    whitespace of C that [int] skips around an ASCII literal. *)
Definition is_space (b : byte) : bool :=
  let c := byte.unsigned b in
  bool_decide (9 <= c <= 13) || bool_decide (28 <= c <= 32).

Definition is_c_space (b : byte) : bool :=
  let c := byte.unsigned b in
  bool_decide (9 <= c <= 13) || bool_decide (c = 32).

Fixpoint lstrip (space : byte -> bool) (s : bytes) : bytes :=
  match s with
  | b :: rest => if space b then lstrip space rest else s
  | [] => []
  end.

Definition strip_by (space : byte -> bool) (s : bytes) : bytes :=
  rev (lstrip space (rev (lstrip space s))).

Definition strip (s : bytes) : bytes := strip_by is_space s.

(** [str.lower] on ASCII letters. *)
Definition lower (b : byte) : byte :=
  let c := byte.unsigned b in
  if bool_decide (65 <= c <= 90) then byte.of_Z (c + 32) else b.

(** *** int(str) *)

(** Digits with single underscores between them, as [int] accepts them. *)
Fixpoint int_digits (s : bytes) (after_digit : bool) : option (list digits) :=
  match s with
  | [] => if after_digit then Some [] else None
  | b :: rest =>
    match byte_digit b with
    | Some d => ds ← int_digits rest true; Some (d :: ds)
    | None =>
      if bool_decide (b = "_"%byte) && after_digit then int_digits rest false
      else None
    end
  end.

(** The longest prefix of digits and underscores, and what follows it. *)
Fixpoint span_int (s : bytes) : bytes * bytes :=
  match s with
  | [] => ([], [])
  | b :: rest =>
    if bool_decide (is_Some (byte_digit b)) || bool_decide (b = "_"%byte) then
      let '(run, r) := span_int rest in (b :: run, r)
    else ([], s)
  end.

Definition int_literal_error : PyExc :=
  mkExc ValueError "invalid literal for int() with base 10".

(** [int(s)]: after the sign, the run of digits and underscores is checked
    and its digits are counted against the limit before the rest of the
    text is looked at. *)
Definition int_of_str (s : bytes) : result Z :=
  let s := strip_by is_c_space s in
  let '(neg, body) :=
    match s with
    | "-"%byte :: r => (true, r)
    | "+"%byte :: r => (false, r)
    | _ => (false, s)
    end in
  let '(run, rest) := span_int body in
  match int_digits run false with
  | Some ds =>
    if bool_decide (length ds <= int_max_str_digits)%nat then
      match rest with
      | [] => let n := Z.of_N (digits_value ds) in Ok (if neg : bool then - n else n)
      | _ :: _ => Raise int_literal_error
      end
    else Raise int_limit_error
  | None => Raise int_literal_error
  end.

(** *** Decimal(str) and str(Decimal) *)

Definition split_sign (s : bytes) : bool * bytes :=
  match s with
  | "-"%byte :: r => (true, r)
  | "+"%byte :: r => (false, r)
  | _ => (false, s)
  end.

(** The exponent of a numeric string, [[-+]?\d+], up to the end. *)
Definition parse_exp (s : bytes) : option Z :=
  let '(neg, body) := split_sign s in
  match span_digits body with
  | (d :: ds, []) =>
    let n := Z.of_N (digits_value (d :: ds)) in Some (if neg : bool then - n else n)
  | _ => None
  end.

(** The first alternative of the parser of [decimal]: after a lookahead for
    a digit, or for a point and a digit, an integer part [\d*], an optional
    [\.\d*] and an optional [E[-+]?\d+], up to the end.  The value is the
    coefficient [int(intpart + fracpart)] and the exponent
    [exp - len(fracpart)]. *)
Definition parse_finite (s : bytes) : option (N * Z) :=
  let '(intpart, rest) := span_digits s in
  let lookahead :=
    match intpart, s with
    | _ :: _, _ => true
    | [], "."%byte :: b :: _ => bool_decide (is_Some (byte_digit b))
    | [], _ => false
    end in
  if lookahead then
    let '(fracpart, rest) :=
      match rest with
      | "."%byte :: r => span_digits r
      | _ => ([], rest)
      end in
    let coeff := digits_value (intpart ++ fracpart) in
    match rest with
    | [] => Some (coeff, - Z.of_nat (length fracpart))
    | e :: r =>
      if bool_decide (lower e = "e"%byte) then
        exp ← parse_exp r; Some (coeff, exp - Z.of_nat (length fracpart))
      else None
    end
  else None.

(** The other alternatives, on the lower-cased text: [Inf(inity)?], or
    [s?NaN\d*] with its diagnostic digits. *)
Definition parse_nan (signaling : bool) (s : bytes) : option (bool -> PyDecimal) :=
  match span_digits s with
  | (diag, []) => Some (fun sign => NaN sign signaling (digits_value diag))
  | _ => None
  end.

Definition parse_special (s : bytes) : option (bool -> PyDecimal) :=
  if bool_decide (s = B "inf") || bool_decide (s = B "infinity") then Some Infinity
  else
    match s with
    | "n"%byte :: "a"%byte :: "n"%byte :: r => parse_nan false r
    | "s"%byte :: "n"%byte :: "a"%byte :: "n"%byte :: r => parse_nan true r
    | _ => None
    end.

(** [Decimal(value)] for a string: [value.strip().replace("_", "")] is
    matched against the parser, and a text that does not match raises
    [InvalidOperation]. *)
Definition Decimal_of_str (value : bytes) : result PyDecimal :=
  let s := filter (fun b => b <> "_"%byte) (strip value) in
  let '(sign, body) := split_sign s in
  match parse_finite body with
  | Some (coeff, exp) => Ok (Finite sign coeff exp)
  | None =>
    match parse_special (lower <$> body) with
    | Some special => Ok (special sign)
    | None => Raise (mkExc InvalidOperation "ConversionSyntax")
    end
  end.

Definition sign_str (sign : bool) : bytes := if sign then B "-" else [].

(** ["%+d" % n] *)
Definition format_signed (n : Z) : bytes :=
  (if bool_decide (n < 0) then "-"%byte else "+"%byte) :: str_N (Z.abs_N n).

(** [Decimal.__str__], scientific notation with a capital [E]: the text
    of a finite number after its sign, and the whole. *)
Definition str_finite (coeff : N) (exp : Z) : bytes :=
  let int := str_N coeff in
  let len := Z.of_nat (length int) in
  let leftdigits := exp + len in
  let dotplace :=
    if bool_decide (exp <= 0) && bool_decide (leftdigits > -6)
    then leftdigits else 1 in
  let '(intpart, fracpart) :=
    if bool_decide (dotplace <= 0) then
      (B "0", "."%byte :: replicate (Z.to_nat (- dotplace)) "0"%byte ++ int)
    else if bool_decide (dotplace >= len) then
      (int ++ replicate (Z.to_nat (dotplace - len)) "0"%byte, [])
    else
      (take (Z.to_nat dotplace) int, "."%byte :: drop (Z.to_nat dotplace) int) in
  let exp :=
    if bool_decide (leftdigits = dotplace) then []
    else "E"%byte :: format_signed (leftdigits - dotplace) in
  intpart ++ fracpart ++ exp.

Definition str_Decimal (d : PyDecimal) : bytes :=
  match d with
  | Infinity sign => sign_str sign ++ B "Infinity"
  | NaN sign signaling payload =>
    sign_str sign ++ (if signaling then B "sNaN" else B "NaN") ++
    (if bool_decide (payload = 0%N) then [] else str_N payload)
  | Finite sign coeff exp => sign_str sign ++ str_finite coeff exp
  end.

(** *** Numeric value and equality *)

Inductive num :=
| Fin (q : Q)
| PInf
| NInf
| NotANumber.

Definition signed_Q (sign : bool) (q : Q) : Q := if sign then Qopp q else q.

(** The number a binary64 bit pattern stands for. *)
Definition float_num (bits : Z) : num :=
  let sign := Z.testbit bits 63 in
  let e := (bits / 2 ^ 52) mod 2 ^ 11 in
  let m := bits mod 2 ^ 52 in
  if bool_decide (e = 2047) then
    if bool_decide (m = 0) then (if sign then NInf else PInf) else NotANumber
  else if bool_decide (e = 0) then
    Fin (signed_Q sign (inject_Z m * Qpower (2 # 1) (- 1074)))
  else
    Fin (signed_Q sign (inject_Z (2 ^ 52 + m) * Qpower (2 # 1) (e - 1075))).

Definition Decimal_num (d : PyDecimal) : num :=
  match d with
  | Finite sign coeff exp =>
    Fin (signed_Q sign (inject_Z (Z.of_N coeff) * Qpower (10 # 1) exp))
  | Infinity sign => if sign then NInf else PInf
  | NaN _ _ _ => NotANumber
  end.

Definition to_num (v : PyValue) : num :=
  match v with
  | VInt z => Fin (inject_Z z)
  | VBool b => Fin (inject_Z (if b then 1 else 0))
  | VFloat bits => float_num bits
  | VDecimal d => Decimal_num d
  end.

Definition is_nan (v : PyValue) : bool :=
  match to_num v with NotANumber => true | _ => false end.

(** [v == w] on these types compares the numbers exactly; a NaN is equal to
    nothing, itself included (the comparison of a signaling NaN raises, which
    is not an equality either). *)
Definition py_eq (v w : PyValue) : bool :=
  match to_num v, to_num w with
  | Fin a, Fin b => Qeq_bool a b
  | PInf, PInf => true
  | NInf, NInf => true
  | _, _ => false
  end.

(** The binary64 pattern of the number a binary32 pattern stands for; the
    conversion makes a signaling NaN quiet. *)
Definition float_of_single (bits : Z) : Z :=
  let sign := (bits / 2 ^ 31) mod 2 in
  let e := (bits / 2 ^ 23) mod 2 ^ 8 in
  let m := bits mod 2 ^ 23 in
  if bool_decide (e = 255) then
    if bool_decide (m = 0) then sign * 2 ^ 63 + 2047 * 2 ^ 52
    else sign * 2 ^ 63 + 2047 * 2 ^ 52 + Z.lor (m * 2 ^ 29) (2 ^ 51)
  else if bool_decide (e = 0) then
    if bool_decide (m = 0) then sign * 2 ^ 63
    else
      let k := Z.log2 m in
      sign * 2 ^ 63 + (k + 874) * 2 ^ 52 + (m - 2 ^ k) * 2 ^ (52 - k)
  else sign * 2 ^ 63 + (e + 896) * 2 ^ 52 + m * 2 ^ 29.

(** *** float(bytes) and str(float) *)

(** [num / den] rounded to the nearest integer, a tie to the even one. *)
Definition round_half_even (num den : Z) : Z :=
  let q := num / den in
  let r := num mod den in
  if bool_decide (2 * r < den) then q
  else if bool_decide (den < 2 * r) then q + 1
  else if Z.even q then q else q + 1.

Definition float_infinity : Z := 2047 * 2 ^ 52.
Definition float_quiet_nan : Z := 2047 * 2 ^ 52 + 2 ^ 51.

(** The binary64 pattern, sign apart, of the float nearest to
    [num / den >= 0].  With [shift] the exponent of the last place above
    that of the subnormal numbers, and [m] the significand in units of
    that place, the pattern is [shift * 2^52 + m]: a subnormal number has
    [shift = 0] and [m < 2^52], a normal one [2^52 <= m < 2^53], and a
    carry of [m] to [2^53] moves to the next exponent by itself. *)
Definition round_binary64 (num den : Z) : Z :=
  let scaled := num * 2 ^ 1074 in
  let t := scaled / den in
  let shift := if bool_decide (t < 2 ^ 52) then 0 else Z.log2 t - 52 in
  let m := round_half_even scaled (den * 2 ^ shift) in
  Z.min (shift * 2 ^ 52 + m) float_infinity.

(** [10^j] as a fraction. *)
Definition pow10_fraction (j : Z) : Z * Z :=
  (10 ^ Z.max 0 j, 10 ^ Z.max 0 (- j)).

Definition sign_bit (sign : bool) : Z := if sign then 2 ^ 63 else 0.

(** Underscores are dropped when each stands between two digits. *)
Fixpoint remove_underscores (prev : option byte) (s : bytes) : option bytes :=
  match s with
  | [] => if bool_decide (prev = Some "_"%byte) then None else Some []
  | c :: rest =>
    if bool_decide (c = "_"%byte) then
      if bool_decide (is_Some (prev ≫= byte_digit)) then
        remove_underscores (Some c) rest
      else None
    else if bool_decide (prev = Some "_"%byte)
            && negb (bool_decide (is_Some (byte_digit c))) then None
    else cons c <$> remove_underscores (Some c) rest
  end.

Definition float_error : PyExc :=
  mkExc ValueError "could not convert string to float".

Definition float_of_bytes (data : bytes) : result Z :=
  match remove_underscores None (strip_by is_c_space data) with
  | None => Raise float_error
  | Some s =>
    let '(sign, body) := split_sign s in
    match parse_finite body with
    | Some (coeff, exp) =>
      let '(p, q) := pow10_fraction exp in
      Ok (sign_bit sign + round_binary64 (Z.of_N coeff * p) q)
    | None =>
      let word := lower <$> body in
      if bool_decide (word = B "inf") || bool_decide (word = B "infinity") then
        Ok (sign_bit sign + float_infinity)
      else if bool_decide (word = B "nan") then
        Ok (sign_bit sign + float_quiet_nan)
      else Raise float_error
    end
  end.

(** Whether [num / den] is where [round_binary64] gives the float
    [m * 2^shift] (in units of [2^-1074]): no further from it than half the
    way to the next float above and to the next one below, these bounds
    included when [m] is even.  The quantities are in units of [2^-1076]. *)
Definition rounds_to (m shift num den : Z) : bool :=
  let x := 4 * m * 2 ^ shift in
  let above := 2 * 2 ^ shift in
  let below :=
    if bool_decide (m = 2 ^ 52) && bool_decide (0 < shift) then 2 ^ shift
    else 2 * 2 ^ shift in
  let v := num * 2 ^ 1076 in
  if Z.even m then
    bool_decide ((x - below) * den <= v) && bool_decide (v <= (x + above) * den)
  else
    bool_decide ((x - below) * den < v) && bool_decide (v < (x + above) * den).

(** The multiples of [10^j] next to the float, the nearer one first, and
    of two as near the even one. *)
Definition candidates (m shift j : Z) : Z * Z :=
  let '(p, q) := pow10_fraction j in
  let num := m * 2 ^ shift * q in
  let den := 2 ^ 1074 * p in
  let lo := num / den in
  let r := num mod den in
  if bool_decide (2 * r < den) then (lo, lo + 1)
  else if bool_decide (den < 2 * r) then (lo + 1, lo)
  else if Z.even lo then (lo, lo + 1) else (lo + 1, lo).

Definition candidate_ok (m shift j c : Z) : bool :=
  let '(p, q) := pow10_fraction j in rounds_to m shift (c * p) q.

(** The shortest decimal that reads back as the float: the first [j], going
    down, with a multiple of [10^j] that does, and of two the nearer one;
    seventeen digits always do. *)
Fixpoint shortest (fuel : nat) (m shift j : Z) : Z * Z :=
  let '(near, far) := candidates m shift j in
  match fuel with
  | O => (near, j)
  | S fuel =>
    if candidate_ok m shift j near then (near, j)
    else if candidate_ok m shift j far then (far, j)
    else shortest fuel m shift (j - 1)
  end.

(** The largest [k] with [10^k <= x / 2^1074], for [x >= 1]: it is looked
    for downwards from an estimate by the binary logarithm of [x], which
    is not below it. *)
Fixpoint decimal_exponent_from (fuel : nat) (k x : Z) : Z :=
  match fuel with
  | O => -324
  | S fuel =>
    let '(p, q) := pow10_fraction k in
    if bool_decide (p * 2 ^ 1074 <= x * q) then k
    else decimal_exponent_from fuel (k - 1) x
  end.

Definition decimal_exponent (x : Z) : Z :=
  decimal_exponent_from 4 ((Z.log2 x - 1073) * 30103 / 100000 + 1) x.

Fixpoint lstrip_zeros (ds : list digits) : list digits :=
  match ds with
  | d0 :: rest => lstrip_zeros rest
  | _ => ds
  end.

Definition exponent_text (e : Z) : bytes :=
  let text := str_N (Z.abs_N e) in
  (if bool_decide (e < 0) then "-"%byte else "+"%byte) ::
  (if bool_decide (length text < 2)%nat then "0"%byte :: text else text).

(** [repr] of the digits [ds] with the point before the digit at [decpt]. *)
Definition repr_finite (ds : list digits) (decpt : Z) : bytes :=
  let text := digit_byte <$> ds in
  let len := Z.of_nat (length ds) in
  if bool_decide (-4 < decpt <= 16) then
    if bool_decide (decpt <= 0) then
      B "0." ++ replicate (Z.to_nat (- decpt)) "0"%byte ++ text
    else if bool_decide (len <= decpt) then
      text ++ replicate (Z.to_nat (decpt - len)) "0"%byte ++ B ".0"
    else take (Z.to_nat decpt) text ++ "."%byte :: drop (Z.to_nat decpt) text
  else
    take 1 text ++
    (if bool_decide (1 < len) then "."%byte :: drop 1 text else []) ++
    "e"%byte :: exponent_text (decpt - 1).

Definition float_str (bits : Z) : bytes :=
  let sign := Z.testbit bits 63 in
  let b := bits mod 2 ^ 63 in
  if bool_decide (float_infinity <= b) then
    if bool_decide (b = float_infinity) then sign_str sign ++ B "inf"
    else B "nan"
  else if bool_decide (b = 0) then sign_str sign ++ B "0.0"
  else
    let shift := Z.max 0 (b / 2 ^ 52 - 1) in
    let m := b - shift * 2 ^ 52 in
    let '(c, j) := shortest 16 m shift (decimal_exponent (m * 2 ^ shift)) in
    let ds := to_list (N.to_uint (Z.to_N c)) in
    sign_str sign ++
    repr_finite (rev (lstrip_zeros (rev ds))) (j + Z.of_nat (length ds)).

End py.
Export py.

(** ** str and its inverses on the values above *)

Module pyfacts.

(** A character that [strip], the removal of underscores and the ASCII
    codec leave alone. *)
Definition plain (b : byte) : Prop :=
  byte.unsigned b < 128 /\ is_space b = false /\ b <> "_"%byte.

Definition not_digit_head (s : bytes) : Prop :=
  match s with
  | [] => True
  | b :: _ => byte_digit b = None
  end.

Lemma byte_digit_digit d : byte_digit (digit_byte d) = Some d.
Proof. destruct d; reflexivity. Qed.

Lemma plain_digit d : plain (digit_byte d).
Proof. destruct d; repeat split; (reflexivity || discriminate). Qed.

Lemma lower_digit d : lower (digit_byte d) = digit_byte d.
Proof. destruct d; reflexivity. Qed.

Lemma span_digits_app ds rest :
  not_digit_head rest ->
  span_digits ((digit_byte <$> ds) ++ rest) = (ds, rest).
Proof.
  intros Hrest. induction ds as [|d ds IH].
  - destruct rest as [|b rest]; [reflexivity|].
    cbn [fmap list_fmap app span_digits]. simpl in Hrest. rewrite Hrest. reflexivity.
  - cbn [fmap list_fmap app span_digits]. rewrite byte_digit_digit.
    change (span_digits (list_fmap _ _ digit_byte ds ++ rest))
      with (span_digits ((digit_byte <$> ds) ++ rest)).
    rewrite IH. reflexivity.
Qed.

Lemma span_digits_all ds : span_digits (digit_byte <$> ds) = (ds, []).
Proof.
  rewrite <- (app_nil_r (digit_byte <$> ds)). apply span_digits_app. exact I.
Qed.

Lemma digits_value_str n : digits_value (to_list (N.to_uint n)) = n.
Proof.
  unfold digits_value. rewrite of_list_to_list. apply DecimalN.Unsigned.of_to.
Qed.

Lemma digits_value_zeros k ds :
  digits_value (replicate k d0 ++ ds) = digits_value ds.
Proof. induction k as [|k IH]; [reflexivity|]. exact IH. Qed.

Lemma to_uint_nonnil n : to_list (N.to_uint n) <> [].
Proof.
  destruct n as [|p]; [discriminate|].
  intros H. apply (DecimalPos.Unsigned.to_uint_nonnil p).
  apply to_list_inj. exact H.
Qed.

Lemma str_N_nonempty n : exists d ds, to_list (N.to_uint n) = d :: ds.
Proof.
  pose proof (to_uint_nonnil n) as H.
  destruct (to_list (N.to_uint n)) as [|d ds]; [congruence|]. eauto.
Qed.

Lemma Forall_plain_digits ds : Forall plain (digit_byte <$> ds).
Proof. induction ds; constructor; [apply plain_digit | assumption]. Qed.

Lemma lstrip_id space s :
  Forall (fun b => space b = false) s -> lstrip space s = s.
Proof. intros H. destruct H as [|b s Hb _]; [reflexivity|]. simpl. rewrite Hb. reflexivity. Qed.

Lemma strip_plain s : Forall plain s -> strip s = s.
Proof.
  intros H. unfold strip, strip_by.
  assert (Hs : Forall (fun b => is_space b = false) s)
    by (eapply Forall_impl; [exact H|]; intros b (_ & Hb & _); exact Hb).
  rewrite (lstrip_id _ s Hs).
  rewrite lstrip_id by (apply Forall_rev; exact Hs).
  apply rev_involutive.
Qed.

Lemma filter_plain s :
  Forall plain s -> filter (fun b => b <> "_"%byte) s = s.
Proof.
  induction 1 as [|b s (_ & _ & Hb) _ IH]; [reflexivity|].
  rewrite filter_cons_True by exact Hb. rewrite IH. reflexivity.
Qed.

Lemma ascii_decode_plain s : Forall plain s -> ascii_decode s = Ok s.
Proof.
  intros H. unfold ascii_decode. rewrite bool_decide_eq_true_2; [reflexivity|].
  eapply Forall_impl; [exact H|]. intros b (Hb & _). exact Hb.
Qed.

(** The shapes of a finite numeric string that [str] produces. *)
Definition finite_shape (ip fp : list digits) (dot : bool) (e : option Z) : bytes :=
  (digit_byte <$> ip) ++
  (if dot then "."%byte :: (digit_byte <$> fp) else []) ++
  match e with Some n => "E"%byte :: format_signed n | None => [] end.

Lemma parse_exp_format n : parse_exp (format_signed n) = Some n.
Proof.
  unfold format_signed, parse_exp, str_N.
  destruct (str_N_nonempty (Z.abs_N n)) as (d & ds & Hd).
  case_bool_decide as Hn; cbn [split_sign];
    rewrite span_digits_all, Hd, <- Hd, digits_value_str; f_equal; lia.
Qed.

Lemma parse_finite_shape ip fp dot e :
  ip <> [] -> (dot = false -> fp = []) ->
  parse_finite (finite_shape ip fp dot e)
    = Some (digits_value (ip ++ fp), default 0 e - Z.of_nat (length fp)).
Proof.
  intros Hip Hfp. unfold parse_finite, finite_shape.
  destruct ip as [|i ip]; [congruence|].
  destruct dot.
  - cbn [app].
    rewrite span_digits_app by exact eq_refl. cbv beta iota.
    rewrite span_digits_app by (destruct e; exact eq_refl || exact I).
    cbv beta iota. destruct e as [n|].
    + rewrite bool_decide_eq_true_2 by reflexivity.
      rewrite parse_exp_format. reflexivity.
    + reflexivity.
  - rewrite (Hfp eq_refl). cbn [app].
    rewrite span_digits_app by (destruct e; exact eq_refl || exact I).
    cbv beta iota. destruct e as [n|].
    + rewrite bool_decide_eq_true_2 by reflexivity.
      rewrite parse_exp_format. reflexivity.
    + reflexivity.
Qed.

Lemma str_finite_shape coeff exp :
  exists ip fp dot e,
    str_finite coeff exp = finite_shape ip fp dot e /\
    ip <> [] /\ (dot = false -> fp = []) /\
    digits_value (ip ++ fp) = coeff /\
    default 0 e - Z.of_nat (length fp) = exp.
Proof.
  unfold str_finite, str_N.
  destruct (str_N_nonempty coeff) as (d & ds & HD).
  pose proof (digits_value_str coeff) as Hval.
  set (D := to_list (N.to_uint coeff)) in *.
  assert (HlenD : (1 <= length D)%nat) by (rewrite HD; simpl; lia).
  rewrite length_fmap.
  set (len := Z.of_nat (length D)).
  assert (Hlen : 1 <= len) by (unfold len; lia).
  destruct (bool_decide (exp <= 0) && bool_decide (exp + len > -6)) eqn:Hplain.
  - apply andb_true_iff in Hplain as [He Hl].
    apply bool_decide_eq_true in He, Hl.
    rewrite (bool_decide_eq_true_2 (exp + len = exp + len)) by reflexivity.
    case_bool_decide as Hdot; [|case_bool_decide as Hint].
    + exists [d0], (replicate (Z.to_nat (- (exp + len))) d0 ++ D), true, None.
      unfold finite_shape. rewrite fmap_app, fmap_replicate.
      split; [reflexivity|]. split; [discriminate|]. split; [discriminate|].
      split.
      * change ([d0] ++ ?l) with (d0 :: l).
        change (digits_value (d0 :: ?l)) with (digits_value l).
        rewrite digits_value_zeros. exact Hval.
      * rewrite length_app, length_replicate. unfold default; simpl; unfold len in *; lia.
    + exists D, [], false, None.
      unfold finite_shape.
      replace (Z.to_nat (exp + len - len)) with 0%nat by lia.
      cbn [replicate]. rewrite !app_nil_r.
      split; [reflexivity|]. split; [rewrite HD; discriminate|].
      split; [reflexivity|]. split; [exact Hval|].
      unfold default; simpl; unfold len in *; lia.
    + exists (take (Z.to_nat (exp + len)) D), (drop (Z.to_nat (exp + len)) D), true, None.
      unfold finite_shape. rewrite fmap_take, fmap_drop.
      split; [reflexivity|]. split.
      { rewrite HD. replace (Z.to_nat (exp + len)) with (S (Z.to_nat (exp + len - 1))) by lia.
        discriminate. }
      split; [discriminate|]. rewrite take_drop. split; [exact Hval|].
      rewrite length_drop. unfold default; simpl; unfold len in *; lia.
  - assert (Hne : exp + len <> 1).
    { intros Heq. apply andb_false_iff in Hplain as [H|H];
        apply bool_decide_eq_false in H; lia. }
    clear Hplain.
    rewrite (bool_decide_eq_false_2 (exp + len = 1)) by exact Hne.
    rewrite (bool_decide_eq_false_2 (1 <= 0)) by lia.
    case_bool_decide as Hint.
    + exists D, [], false, (Some (exp + len - 1)).
      unfold finite_shape.
      replace (Z.to_nat (1 - len)) with 0%nat by lia.
      cbn [replicate]. rewrite !app_nil_r.
      split; [reflexivity|]. split; [rewrite HD; discriminate|].
      split; [reflexivity|]. split; [exact Hval|].
      unfold default; simpl; unfold len in *; lia.
    + exists (take 1 D), (drop 1 D), true, (Some (exp + len - 1)).
      unfold finite_shape. change (Z.to_nat 1) with 1%nat.
      rewrite fmap_take, fmap_drop.
      split; [reflexivity|]. split; [rewrite HD; discriminate|].
      split; [discriminate|]. rewrite take_drop. split; [exact Hval|].
      rewrite length_drop. unfold default; simpl; unfold len in *; lia.
Qed.

Lemma parse_finite_str coeff exp :
  parse_finite (str_finite coeff exp) = Some (coeff, exp).
Proof.
  destruct (str_finite_shape coeff exp) as (ip & fp & dot & e & -> & Hip & Hfp & <- & <-).
  apply parse_finite_shape; assumption.
Qed.

Ltac solve_plain :=
  repeat first
    [ apply Forall_nil_2
    | apply Forall_cons_2; [repeat split; (reflexivity || discriminate)|]
    | apply Forall_app_2
    | apply Forall_plain_digits ].

Lemma plain_format_signed n : Forall plain (format_signed n).
Proof. unfold format_signed, str_N. case_bool_decide; solve_plain. Qed.

Lemma plain_finite_shape ip fp dot e : Forall plain (finite_shape ip fp dot e).
Proof.
  unfold finite_shape. destruct dot, e; solve_plain; apply plain_format_signed.
Qed.

Lemma plain_sign_str sign : Forall plain (sign_str sign).
Proof. destruct sign; solve_plain. Qed.

Lemma Decimal_of_str_plain s :
  Forall plain s ->
  Decimal_of_str s =
    let '(sign, body) := split_sign s in
    match parse_finite body with
    | Some (coeff, exp) => Ok (Finite sign coeff exp)
    | None =>
      match parse_special (lower <$> body) with
      | Some special => Ok (special sign)
      | None => Raise (mkExc InvalidOperation "ConversionSyntax")
      end
    end.
Proof.
  intros H. unfold Decimal_of_str.
  rewrite strip_plain, filter_plain by exact H. reflexivity.
Qed.

Lemma lower_digits (ds : list digits) :
  lower <$> (digit_byte <$> ds) = digit_byte <$> ds.
Proof.
  induction ds as [|d ds IH]; [reflexivity|].
  cbn [fmap list_fmap]. rewrite lower_digit. f_equal. exact IH.
Qed.

Lemma split_sign_nan sign (signaling : bool) rest :
  split_sign (sign_str sign ++ (if signaling then B "sNaN" else B "NaN") ++ rest)
    = (sign, (if signaling then B "sNaN" else B "NaN") ++ rest).
Proof. destruct sign, signaling; reflexivity. Qed.

Lemma parse_nan_text (signaling : bool) ds :
  parse_finite ((if signaling then B "sNaN" else B "NaN") ++ (digit_byte <$> ds)) = None /\
  parse_special (lower <$> ((if signaling then B "sNaN" else B "NaN") ++ (digit_byte <$> ds)))
    = Some (fun sign => NaN sign signaling (digits_value ds)).
Proof.
  split; [destruct signaling; reflexivity|].
  rewrite fmap_app, lower_digits.
  destruct signaling.
  - change (lower <$> B "sNaN") with (B "snan").
    change (B "snan" ++ ?X) with ("s"%byte :: "n"%byte :: "a"%byte :: "n"%byte :: X).
    unfold parse_special. rewrite !bool_decide_eq_false_2 by discriminate.
    cbn [orb]. unfold parse_nan. rewrite span_digits_all. reflexivity.
  - change (lower <$> B "NaN") with (B "nan").
    change (B "nan" ++ ?X) with ("n"%byte :: "a"%byte :: "n"%byte :: X).
    unfold parse_special. rewrite !bool_decide_eq_false_2 by discriminate.
    cbn [orb]. unfold parse_nan. rewrite span_digits_all. reflexivity.
Qed.

(** [Decimal(str(d))] is [d], sign, digits, exponent and payload. *)
Lemma Decimal_of_str_str d :
  Forall plain (str_Decimal d) /\ Decimal_of_str (str_Decimal d) = Ok d.
Proof.
  destruct d as [sign coeff exp | sign | sign signaling payload]; cbn [str_Decimal].
  - destruct (str_finite_shape coeff exp)
      as (ip & fp & dot & e & -> & Hip & Hfp & <- & <-).
    assert (Hplain : Forall plain (sign_str sign ++ finite_shape ip fp dot e))
      by (apply Forall_app_2; [apply plain_sign_str | apply plain_finite_shape]).
    split; [exact Hplain|].
    rewrite Decimal_of_str_plain by exact Hplain.
    replace (split_sign (sign_str sign ++ finite_shape ip fp dot e))
      with (sign, finite_shape ip fp dot e).
    + rewrite parse_finite_shape by assumption. reflexivity.
    + destruct ip as [|i ip]; [congruence|]. destruct sign, i; reflexivity.
  - split; [destruct sign; solve_plain|]. destruct sign; reflexivity.
  - assert (Hplain : Forall plain
              (sign_str sign ++ (if signaling then B "sNaN" else B "NaN") ++
               (if bool_decide (payload = 0%N) then [] else str_N payload))).
    { destruct sign, signaling; case_bool_decide; unfold str_N; solve_plain. }
    split; [exact Hplain|].
    rewrite Decimal_of_str_plain by exact Hplain.
    case_bool_decide as Hp.
    + subst payload. destruct sign, signaling; reflexivity.
    + unfold str_N. rewrite split_sign_nan.
      destruct (parse_nan_text signaling (to_list (N.to_uint payload))) as [-> ->].
      rewrite digits_value_str. reflexivity.
Qed.

Lemma str_finite_int coeff : str_finite coeff 0 = str_N coeff.
Proof.
  unfold str_finite, str_N.
  destruct (str_N_nonempty coeff) as (d & ds & HD).
  rewrite length_fmap, HD.
  set (len := Z.of_nat (length (d :: ds))).
  assert (Hlen : 1 <= len) by (unfold len; simpl; lia).
  rewrite (bool_decide_eq_true_2 (0 <= 0)) by lia.
  rewrite (bool_decide_eq_true_2 (0 + len > -6)) by lia. cbn [andb].
  rewrite (bool_decide_eq_false_2 (0 + len <= 0)) by lia.
  rewrite (bool_decide_eq_true_2 (0 + len >= len)) by lia.
  rewrite (bool_decide_eq_true_2 (0 + len = 0 + len)) by reflexivity.
  replace (Z.to_nat (0 + len - len)) with 0%nat by lia.
  cbn [replicate]. rewrite !app_nil_r. reflexivity.
Qed.

(** [str] of an integer is [str] of the Decimal with that coefficient and
    exponent zero. *)
Lemma int_text_Decimal z :
  int_text z = str_Decimal (Finite (bool_decide (z < 0)) (Z.abs_N z) 0).
Proof.
  unfold int_text. cbn [str_Decimal]. rewrite str_finite_int.
  case_bool_decide; reflexivity.
Qed.

Lemma str_int_Ok z data : str_int z = Ok data -> data = int_text z.
Proof. unfold str_int. case_bool_decide; [congruence | discriminate]. Qed.

Lemma py_eq_refl v : is_nan v = false -> py_eq v v = true.
Proof.
  unfold is_nan, py_eq. destruct (to_num v); try reflexivity; [|discriminate].
  intros _. apply Qeq_bool_refl.
Qed.

(** The Decimal that [Decimal(str(z))] is compares equal to [z]. *)
Lemma py_eq_Decimal_int z :
  py_eq (VDecimal (Finite (bool_decide (z < 0)) (Z.abs_N z) 0)) (VInt z) = true.
Proof.
  unfold py_eq. cbn [to_num Decimal_num]. apply Qeq_bool_iff.
  change (Qpower (10 # 1) 0) with 1%Q.
  rewrite N2Z.inj_abs_N.
  case_bool_decide; unfold signed_Q, Qeq, Qopp, Qmult, inject_Z; simpl; lia.
Qed.

End pyfacts.

(** ** float(str(x)): the text of a float read back *)

Module floatfacts.

Lemma round_half_even_unique num den m :
  0 < den ->
  (2 * m - 1) * den <= 2 * num <= (2 * m + 1) * den ->
  (Z.even m = false -> (2 * m - 1) * den < 2 * num < (2 * m + 1) * den) ->
  round_half_even num den = m.
Proof.
  intros Hden Hb Hodd. unfold round_half_even.
  pose proof (Z.div_mod num den ltac:(lia)) as Hdm.
  pose proof (Z.mod_pos_bound num den Hden) as Hr.
  set (q := num / den) in *. set (r := num mod den) in *.
  clearbody q r. subst num.
  repeat case_bool_decide.
  - nia.
  - nia.
  - assert (Hr2 : 2 * r = den) by lia.
    assert (Hq : m = q \/ m = q + 1) by nia.
    destruct (Z.even q) eqn:Heq.
    + destruct Hq as [->| ->]; [reflexivity|].
      exfalso. rewrite Z.even_add, Heq in Hodd. specialize (Hodd eq_refl). nia.
    + destruct Hq as [->| ->]; [|reflexivity].
      exfalso. specialize (Hodd Heq). nia.
Qed.

(** A pattern below that of infinity, as the place [shift] and the
    significand [m]. *)
Definition finite_parts (m shift : Z) : Prop :=
  0 <= shift <= 2045 /\ 0 <= m < 2 ^ 53 /\ (0 < shift -> 2 ^ 52 <= m).

Lemma rounds_to_spec m shift num den :
  rounds_to m shift num den = true ->
  let below := if bool_decide (m = 2 ^ 52) && bool_decide (0 < shift)
               then 2 ^ shift else 2 * 2 ^ shift in
  (4 * m * 2 ^ shift - below) * den <= num * 2 ^ 1076
    <= (4 * m * 2 ^ shift + 2 * 2 ^ shift) * den /\
  (Z.even m = false ->
   (4 * m * 2 ^ shift - below) * den < num * 2 ^ 1076
     < (4 * m * 2 ^ shift + 2 * 2 ^ shift) * den).
Proof.
  unfold rounds_to. cbv zeta.
  destruct (Z.even m); intros H; apply andb_true_iff in H as [H1 H2];
    apply bool_decide_eq_true in H1, H2; split; try lia; discriminate.
Qed.

Lemma log2_between t a : 0 <= a -> 2 ^ a <= t < 2 ^ (a + 1) -> Z.log2 t = a.
Proof. intros Ha Ht. apply Z.log2_unique; [exact Ha|]. rewrite <- Z.add_1_r. exact Ht. Qed.

Lemma div_between a b lo hi :
  0 < b -> lo * b <= a < hi * b -> lo <= a / b < hi.
Proof.
  intros Hb [H1 H2]. split.
  - apply Z.div_le_lower_bound; lia.
  - apply Z.div_lt_upper_bound; lia.
Qed.

Lemma round_binary64_interval m shift num den :
  finite_parts m shift -> 0 < den ->
  rounds_to m shift num den = true ->
  round_binary64 num den = shift * 2 ^ 52 + m.
Proof.
  intros (Hshift & Hm & Hnormal) Hden Hin.
  apply rounds_to_spec in Hin. cbv zeta in Hin. destruct Hin as [Hin Hodd].
  unfold round_binary64. cbv zeta.
  replace (num * 2 ^ 1076) with (4 * (num * 2 ^ 1074)) in *
    by (change (2 ^ 1076) with (4 * 2 ^ 1074); ring).
  set (S := num * 2 ^ 1074) in *. clearbody S.
  assert (HP : 0 < 2 ^ shift) by (apply Z.pow_pos_nonneg; lia).
  assert (Hfin : shift * 2 ^ 52 + m < float_infinity)
    by (unfold float_infinity; lia).
  destruct (decide (shift = 0)) as [->|Hpos].
  - (* the place of the subnormal numbers *)
    change (2 ^ 0) with 1 in *.
    rewrite andb_false_r in Hin, Hodd.
    assert (Hshift' : (if bool_decide (S / den < 2 ^ 52) then 0
                       else Z.log2 (S / den) - 52) = 0).
    { case_bool_decide as Ht; [reflexivity|].
      rewrite (log2_between (S / den) 52); [reflexivity | lia |].
      split; [lia|]. apply Z.div_lt_upper_bound; [lia|].
      change (2 ^ (52 + 1)) with (2 ^ 53). nia. }
    rewrite Hshift'. change (2 ^ 0) with 1. rewrite Z.mul_1_r.
    rewrite (round_half_even_unique S den m Hden); [lia | lia |].
    intros Hm'. specialize (Hodd Hm'). lia.
  - assert (Hs : 0 < shift) by lia. specialize (Hnormal Hs).
    rewrite (bool_decide_eq_true_2 (0 < shift)) in Hin, Hodd by exact Hs.
    rewrite andb_true_r in Hin, Hodd.
    set (P := 2 ^ shift) in *.
    assert (HP2 : 2 <= P).
    { unfold P. replace shift with (Z.succ (shift - 1)) by lia.
      rewrite Z.pow_succ_r by lia.
      assert (0 < 2 ^ (shift - 1)) by (apply Z.pow_pos_nonneg; lia). lia. }
    assert (Hp52 : 2 ^ (52 + shift) = 2 ^ 52 * P)
      by (unfold P; rewrite Z.pow_add_r by lia; reflexivity).
    assert (Hp53 : 2 ^ (53 + shift) = 2 ^ 53 * P)
      by (unfold P; rewrite Z.pow_add_r by lia; reflexivity).
    assert (Hp51 : 2 ^ (51 + shift) = 2 ^ 51 * P)
      by (unfold P; rewrite Z.pow_add_r by lia; reflexivity).
    destruct (Z.le_gt_cases (2 ^ 52 * P * den) S) as [Hge|Hlt].
    + (* in the binade of the float *)
      assert (Hup : S < 2 ^ 53 * P * den).
      { assert (4 * S < 4 * (2 ^ 53 * P * den)); [|lia].
        eapply Z.le_lt_trans; [apply Hin|].
        assert ((4 * m + 2) * (P * den) < 4 * 2 ^ 53 * (P * den)); [|lia].
        apply Z.mul_lt_mono_pos_r; lia. }
      assert (Ht : 2 ^ (52 + shift) <= S / den < 2 ^ (52 + shift + 1)).
      { replace (52 + shift + 1) with (53 + shift) by lia.
        rewrite Hp52, Hp53. apply div_between; lia. }
      rewrite (bool_decide_eq_false_2 (S / den < 2 ^ 52)).
      2:{ assert (2 ^ 52 <= 2 ^ (52 + shift)) by (apply Z.pow_le_mono_r; lia). lia. }
      rewrite (log2_between _ (52 + shift)) by (lia || exact Ht).
      replace (52 + shift - 52) with shift by lia. fold P.
      rewrite (round_half_even_unique S (den * P) m); [lia | lia | |].
      * case_bool_decide; lia.
      * intros Hm'. specialize (Hodd Hm'). case_bool_decide; lia.
    + (* just below the power of two *)
      assert (Hm52 : m = 2 ^ 52).
      { destruct (decide (m = 2 ^ 52)) as [|Hne]; [assumption|]. exfalso.
        rewrite bool_decide_eq_false_2 in Hin by exact Hne.
        assert ((4 * 2 ^ 52 + 2) * (P * den) <= (4 * m - 2) * (P * den))
          by (apply Z.mul_le_mono_nonneg_r; lia).
        lia. }
      subst m. rewrite bool_decide_eq_true_2 in Hin by reflexivity.
      assert (Ht : 2 ^ (51 + shift) <= S / den < 2 ^ (51 + shift + 1)).
      { replace (51 + shift + 1) with (52 + shift) by lia.
        rewrite Hp51, Hp52. apply div_between; [lia|]. split; [|lia].
        assert (4 * (2 ^ 51 * P * den) <= 4 * S); [|lia].
        eapply Z.le_trans; [|apply Hin].
        change (2 ^ 52) with (2 * 2 ^ 51). nia. }
      rewrite (bool_decide_eq_false_2 (S / den < 2 ^ 52)).
      2:{ assert (2 ^ 52 <= 2 ^ (51 + shift)) by (apply Z.pow_le_mono_r; lia). lia. }
      rewrite (log2_between _ (51 + shift)) by (lia || exact Ht).
      replace (51 + shift - 52) with (shift - 1) by lia.
      assert (HP' : P = 2 * 2 ^ (shift - 1)).
      { unfold P. rewrite <- Z.pow_succ_r by lia. f_equal. lia. }
      set (P' := 2 ^ (shift - 1)) in *.
      rewrite (round_half_even_unique S (den * P') (2 ^ 53)); [| nia | | discriminate].
      * change (2 ^ 53) with (2 * 2 ^ 52). lia.
      * rewrite HP' in Hin, Hlt. change (2 ^ 53) with (2 * 2 ^ 52). nia.
Qed.

(** *** Powers of ten as fractions *)

Lemma pow10_fraction_pos j :
  0 < (pow10_fraction j).1 /\ 0 < (pow10_fraction j).2.
Proof. unfold pow10_fraction. cbn [fst snd]. split; apply Z.pow_pos_nonneg; lia. Qed.

Lemma pow10_fraction_spec j n :
  0 <= n -> 0 <= n + j ->
  (pow10_fraction j).1 * 10 ^ n = (pow10_fraction j).2 * 10 ^ (n + j).
Proof.
  intros Hn Hnj. unfold pow10_fraction. cbn [fst snd].
  destruct (Z.le_gt_cases 0 j).
  - rewrite (Z.max_r 0 j), (Z.max_l 0 (- j)) by lia.
    rewrite <- !Z.pow_add_r by lia. f_equal. lia.
  - rewrite (Z.max_l 0 j), (Z.max_r 0 (- j)) by lia.
    rewrite <- !Z.pow_add_r by lia. f_equal. lia.
Qed.

(** [a * 10^i = b * 10^j] on the fractions, for [a = b * 10^(j - i)]. *)
Lemma pow10_fraction_scale a b i j :
  i <= j -> a = b * 10 ^ (j - i) ->
  a * (pow10_fraction i).1 * (pow10_fraction j).2
    = b * (pow10_fraction j).1 * (pow10_fraction i).2.
Proof.
  intros Hij ->.
  set (n := Z.abs i + Z.abs j).
  pose proof (pow10_fraction_spec i n ltac:(lia) ltac:(lia)) as Hi.
  pose proof (pow10_fraction_spec j n ltac:(lia) ltac:(lia)) as Hj.
  destruct (pow10_fraction_pos i) as [Hpi Hqi].
  destruct (pow10_fraction_pos j) as [Hpj Hqj].
  assert (Hn : 0 < 10 ^ n) by (apply Z.pow_pos_nonneg; lia).
  apply (Z.mul_reg_r _ _ (10 ^ n)); [lia|].
  replace (n + j) with ((j - i) + (n + i)) in Hj by lia.
  rewrite Z.pow_add_r in Hj by lia.
  set (pi := (pow10_fraction i).1) in *. set (qi := (pow10_fraction i).2) in *.
  set (pj := (pow10_fraction j).1) in *. set (qj := (pow10_fraction j).2) in *.
  set (T := 10 ^ (j - i)) in *. set (N := 10 ^ n) in *. set (M := 10 ^ (n + i)) in *.
  clearbody pi qi pj qj T N M.
  transitivity (b * T * qj * (pi * N)); [ring|].
  rewrite Hi. transitivity (b * qi * (pj * N)); [|ring].
  rewrite Hj. ring.
Qed.

(** Fractions that are equal round alike. *)
Lemma rounds_to_fraction m shift n1 d1 n2 d2 :
  0 < d1 -> 0 < d2 -> n1 * d2 = n2 * d1 ->
  rounds_to m shift n1 d1 = rounds_to m shift n2 d2.
Proof.
  intros H1 H2 Heq. unfold rounds_to. cbv zeta.
  set (lo := 4 * m * 2 ^ shift - _). set (hi := 4 * m * 2 ^ shift + _).
  set (K := 2 ^ 1076). clearbody lo hi K.
  assert (Hle : forall a, a * d1 <= n1 * K <-> a * d2 <= n2 * K).
  { intros a. split; intros H.
    - apply (Z.mul_le_mono_pos_r _ _ d1 H1).
      replace (n2 * K * d1) with (n1 * K * d2)
        by (transitivity (n1 * d2 * K); [ring | rewrite Heq; ring]).
      replace (a * d2 * d1) with (a * d1 * d2) by ring.
      apply Z.mul_le_mono_nonneg_r; lia.
    - apply (Z.mul_le_mono_pos_r _ _ d2 H2).
      replace (n1 * K * d2) with (n2 * K * d1)
        by (transitivity (n1 * d2 * K); [rewrite Heq; ring | ring]).
      replace (a * d1 * d2) with (a * d2 * d1) by ring.
      apply Z.mul_le_mono_nonneg_r; lia. }
  assert (Hge : forall a, n1 * K <= a * d1 <-> n2 * K <= a * d2).
  { intros a. split; intros H.
    - apply (Z.mul_le_mono_pos_r _ _ d1 H1).
      replace (n2 * K * d1) with (n1 * K * d2)
        by (transitivity (n1 * d2 * K); [ring | rewrite Heq; ring]).
      replace (a * d2 * d1) with (a * d1 * d2) by ring.
      apply Z.mul_le_mono_nonneg_r; lia.
    - apply (Z.mul_le_mono_pos_r _ _ d2 H2).
      replace (n1 * K * d2) with (n2 * K * d1)
        by (transitivity (n1 * d2 * K); [rewrite Heq; ring | ring]).
      replace (a * d1 * d2) with (a * d2 * d1) by ring.
      apply Z.mul_le_mono_nonneg_r; lia. }
  assert (Hlt : forall a, a * d1 < n1 * K <-> a * d2 < n2 * K).
  { intros a. pose proof (Hge a). lia. }
  assert (Hgt : forall a, n1 * K < a * d1 <-> n2 * K < a * d2).
  { intros a. pose proof (Hle a). lia. }
  destruct (Z.even m); f_equal; apply bool_decide_ext; auto.
Qed.

(** *** The shortest digits *)

Lemma rounds_to_strict m shift num den :
  (4 * m * 2 ^ shift -
     (if bool_decide (m = 2 ^ 52) && bool_decide (0 < shift)
      then 2 ^ shift else 2 * 2 ^ shift)) * den < num * 2 ^ 1076 ->
  num * 2 ^ 1076 < (4 * m * 2 ^ shift + 2 * 2 ^ shift) * den ->
  rounds_to m shift num den = true.
Proof.
  intros H1 H2. unfold rounds_to. cbv zeta.
  destruct (Z.even m); apply andb_true_iff; split; apply bool_decide_eq_true; lia.
Qed.

Lemma rounds_to_positive m shift num den :
  0 <= shift -> 0 < m -> 0 < den ->
  rounds_to m shift num den = true -> 0 < num.
Proof.
  intros Hshift Hm Hden Hin. apply rounds_to_spec in Hin as [[Hlo _] _].
  assert (HP : 0 < 2 ^ shift) by (apply Z.pow_pos_nonneg; lia).
  assert (HK : 0 < 2 ^ 1076) by (apply Z.pow_pos_nonneg; lia).
  set (P := 2 ^ shift) in *. set (K := 2 ^ 1076) in *.
  assert (Hb : 0 < 4 * m * P -
            (if bool_decide (m = 2 ^ 52) && bool_decide (0 < shift)
             then P else 2 * P)).
  { destruct (_ && _); nia. }
  set (b := 4 * m * P - _) in *. clearbody b P K. nia.
Qed.

Lemma rounds_to_strict' m shift num den :
  (4 * m * 2 ^ shift -
     (if bool_decide (m = 2 ^ 52) && bool_decide (0 < shift)
      then 2 ^ shift else 2 * 2 ^ shift)) * den < num * (4 * 2 ^ 1074) ->
  num * (4 * 2 ^ 1074) < (4 * m * 2 ^ shift + 2 * 2 ^ shift) * den ->
  rounds_to m shift num den = true.
Proof. apply rounds_to_strict. Qed.

Lemma near_arith m P q K p below lo r :
  0 < m -> 0 < P -> 0 < q -> 0 < K -> 0 < p -> 0 < below <= 2 * P ->
  m * P * q = K * p * lo + r -> 0 <= r < K * p ->
  2 * K * p < below * q ->
  (2 * r <= K * p ->
   (4 * m * P - below) * q < lo * p * (4 * K) /\
   lo * p * (4 * K) < (4 * m * P + 2 * P) * q) /\
  (K * p <= 2 * r ->
   (4 * m * P - below) * q < (lo + 1) * p * (4 * K) /\
   (lo + 1) * p * (4 * K) < (4 * m * P + 2 * P) * q).
Proof.
  intros Hm HP Hq HK Hp Hbelow Hdm Hr Hkey.
  assert (Hbq : 0 < below * q) by nia.
  assert (HPq : below * q <= 2 * P * q) by nia.
  assert (Hkey' : 2 * (K * p) < below * q) by lia.
  replace (lo * p * (4 * K)) with (4 * (K * p * lo)) by ring.
  replace ((lo + 1) * p * (4 * K)) with (4 * (K * p * lo) + 4 * (K * p)) by ring.
  replace (K * p * lo) with (m * P * q - r) by lia.
  replace ((4 * m * P - below) * q) with (4 * (m * P * q) - below * q) by ring.
  replace ((4 * m * P + 2 * P) * q) with (4 * (m * P * q) + 2 * P * q) by ring.
  set (X := m * P * q) in *. set (b := below * q) in *. set (c := 2 * P * q) in *.
  set (d := K * p) in *. clearbody X b c d. lia.
Qed.

(** The nearer multiple of [10^j] reads back as the float when [10^j] is
    less than half of the way to the next float below. *)
Lemma candidates_near_ok m shift j :
  0 <= shift -> 0 < m ->
  2 * 2 ^ 1074 * (pow10_fraction j).1 <
    (if bool_decide (m = 2 ^ 52) && bool_decide (0 < shift)
     then 2 ^ shift else 2 * 2 ^ shift) * (pow10_fraction j).2 ->
  candidate_ok m shift j (candidates m shift j).1 = true.
Proof.
  intros Hshift Hm Hkey. unfold candidate_ok, candidates.
  destruct (pow10_fraction_pos j) as [Hp Hq].
  destruct (pow10_fraction j) as [p q]. cbn [fst snd] in *.
  assert (HP : 0 < 2 ^ shift) by (apply Z.pow_pos_nonneg; lia).
  assert (HK : 0 < 2 ^ 1074) by (apply Z.pow_pos_nonneg; lia).
  assert (Hnear : forall c,
            (4 * m * 2 ^ shift -
             (if bool_decide (m = 2 ^ 52) && bool_decide (0 < shift)
              then 2 ^ shift else 2 * 2 ^ shift)) * q < c * p * (4 * 2 ^ 1074) /\
            c * p * (4 * 2 ^ 1074) < (4 * m * 2 ^ shift + 2 * 2 ^ shift) * q ->
            rounds_to m shift (c * p) q = true).
  { intros c [H1 H2]. apply rounds_to_strict'; assumption. }
  set (below := if _ && _ then _ else _) in *.
  assert (Hbelow : 0 < below <= 2 * 2 ^ shift)
    by (unfold below; destruct (_ && _); lia).
  set (P := 2 ^ shift) in *. set (K := 2 ^ 1074) in *.
  clearbody below P K.
  assert (Hden : 0 < K * p) by nia.
  pose proof (Z.div_mod (m * P * q) (K * p) ltac:(lia)) as Hdm.
  pose proof (Z.mod_pos_bound (m * P * q) (K * p) Hden) as Hr.
  set (lo := m * P * q / (K * p)) in *. set (r := m * P * q mod (K * p)) in *.
  clearbody lo r.
  destruct (near_arith m P q K p below lo r Hm HP Hq HK Hp Hbelow Hdm Hr Hkey)
    as [Hlo Hhi].
  repeat case_bool_decide; try destruct (Z.even lo); cbn [fst];
    apply Hnear; first [apply Hlo; lia | apply Hhi; lia].
Qed.

(** Seventeen digits: with [10^k] no more than the float, [10^(k - 16)]
    is that small, since [2^53 < 10^16]. *)
Lemma seventeen_digits m shift k :
  finite_parts m shift -> 0 < m ->
  (pow10_fraction k).1 * 2 ^ 1074 <= m * 2 ^ shift * (pow10_fraction k).2 ->
  2 * 2 ^ 1074 * (pow10_fraction (k - 16)).1 <
    (if bool_decide (m = 2 ^ 52) && bool_decide (0 < shift)
     then 2 ^ shift else 2 * 2 ^ shift) * (pow10_fraction (k - 16)).2.
Proof.
  intros (Hshift & Hm & Hnormal) Hpos Hk.
  pose proof (pow10_fraction_scale (10 ^ 16) 1 (k - 16) k ltac:(lia)) as Hscale.
  replace (k - (k - 16)) with 16 in Hscale by lia.
  specialize (Hscale ltac:(lia)).
  destruct (pow10_fraction_pos k) as [Hpk Hqk].
  destruct (pow10_fraction_pos (k - 16)) as [Hpj Hqj].
  set (pk := (pow10_fraction k).1) in *. set (qk := (pow10_fraction k).2) in *.
  set (pj := (pow10_fraction (k - 16)).1) in *.
  set (qj := (pow10_fraction (k - 16)).2) in *.
  assert (HP : 0 < 2 ^ shift) by (apply Z.pow_pos_nonneg; lia).
  assert (HK : 0 < 2 ^ 1074) by (apply Z.pow_pos_nonneg; lia).
  set (below := if _ && _ then _ else _).
  assert (Hbelow : 2 * m * 2 ^ shift < below * 10 ^ 16).
  { unfold below. destruct (bool_decide (m = 2 ^ 52)) eqn:Hm52;
      [apply bool_decide_eq_true in Hm52; subst m|];
      destruct (bool_decide (0 < shift)); cbn [andb]; nia. }
  set (P := 2 ^ shift) in *. set (K := 2 ^ 1074) in *.
  set (T := 10 ^ 16) in *.
  assert (HT : 0 < T) by (unfold T; lia).
  clearbody pk qk pj qj below P K T.
  apply (Z.mul_lt_mono_pos_r (T * qk)); [nia|].
  apply Z.le_lt_trans with (2 * (m * P * qk) * qj).
  - replace (2 * K * pj * (T * qk)) with (2 * K * (T * pj * qk)) by ring.
    rewrite Hscale.
    replace (2 * K * (1 * pk * qj)) with (2 * (pk * K) * qj) by ring.
    apply Z.mul_le_mono_nonneg_r; lia.
  - replace (2 * (m * P * qk) * qj) with (2 * m * P * (qk * qj)) by ring.
    replace (below * qj * (T * qk)) with (below * T * (qk * qj)) by ring.
    apply Z.mul_lt_mono_pos_r; [nia | exact Hbelow].
Qed.

Lemma shortest_ok m shift fuel : forall j,
  candidate_ok m shift (j - Z.of_nat fuel)
    (candidates m shift (j - Z.of_nat fuel)).1 = true ->
  candidate_ok m shift (shortest fuel m shift j).2
    (shortest fuel m shift j).1 = true.
Proof.
  induction fuel as [|fuel IH]; intros j Hlast.
  - cbn [shortest]. replace (j - Z.of_nat 0) with j in Hlast by lia.
    destruct (candidates m shift j) as [near far]. exact Hlast.
  - cbn [shortest]. destruct (candidates m shift j) as [near far] eqn:Hc.
    destruct (candidate_ok m shift j near) eqn:Hnear; [exact Hnear|].
    destruct (candidate_ok m shift j far) eqn:Hfar; [exact Hfar|].
    apply IH. replace (j - 1 - Z.of_nat fuel) with (j - Z.of_nat (S fuel)) by lia.
    exact Hlast.
Qed.

Lemma decimal_exponent_le x :
  1 <= x ->
  (pow10_fraction (decimal_exponent x)).1 * 2 ^ 1074
    <= x * (pow10_fraction (decimal_exponent x)).2.
Proof.
  intros Hx. unfold decimal_exponent.
  generalize ((Z.log2 x - 1073) * 30103 / 100000 + 1). generalize 4%nat.
  induction n as [|n IH]; intros k.
  - cbn [decimal_exponent_from].
    assert (H : (pow10_fraction (-324)).1 * 2 ^ 1074 <= (pow10_fraction (-324)).2)
      by (apply Z.leb_le; vm_compute; reflexivity).
    assert (0 < (pow10_fraction (-324)).2) by apply pow10_fraction_pos.
    nia.
  - cbn [decimal_exponent_from].
    destruct (pow10_fraction k) as [p q] eqn:Hk.
    case_bool_decide as Hle; [rewrite Hk; exact Hle | apply IH].
Qed.

(** The shortest digits of a float read back as the float. *)
Lemma shortest_rounds_to m shift :
  finite_parts m shift -> 0 < m ->
  let '(c, j) := shortest 16 m shift (decimal_exponent (m * 2 ^ shift)) in
  0 < c /\
  rounds_to m shift (c * (pow10_fraction j).1) (pow10_fraction j).2 = true.
Proof.
  intros Hparts Hm.
  pose proof (shortest_ok m shift 16 (decimal_exponent (m * 2 ^ shift))) as Hok.
  assert (HX : 1 <= m * 2 ^ shift).
  { destruct Hparts as (Hs & _).
    assert (0 < 2 ^ shift) by (apply Z.pow_pos_nonneg; lia). nia. }
  destruct (shortest 16 m shift _) as [c j]. cbn [fst snd] in Hok.
  assert (Hin : candidate_ok m shift j c = true).
  { apply Hok. apply candidates_near_ok; [apply Hparts | exact Hm |].
    change (Z.of_nat 16) with 16.
    apply seventeen_digits; [exact Hparts | exact Hm |].
    apply decimal_exponent_le, HX. }
  unfold candidate_ok in Hin.
  destruct (pow10_fraction_pos j) as [Hp Hq].
  destruct (pow10_fraction j) as [p q]. cbn [fst snd] in *.
  split; [|exact Hin].
  pose proof (rounds_to_positive m shift (c * p) q ltac:(apply Hparts) Hm Hq Hin).
  nia.
Qed.

(** *** Digits *)

Definition digit_value (d : digits) : N :=
  match d with
  | d0 => 0 | d1 => 1 | d2 => 2 | d3 => 3 | d4 => 4
  | d5 => 5 | d6 => 6 | d7 => 7 | d8 => 8 | d9 => 9
  end%N.

Lemma usize_of_list ds :
  DecimalPos.Unsigned.usize (of_list ds) = N.of_nat (length ds).
Proof.
  induction ds as [|d ds IH]; [reflexivity|].
  destruct d; cbn [of_list DecimalPos.Unsigned.usize length];
    rewrite IH; lia.
Qed.

Lemma digits_value_cons d ds :
  digits_value (d :: ds)
    = (digit_value d * 10 ^ N.of_nat (length ds) + digits_value ds)%N.
Proof.
  unfold digits_value, N.of_uint.
  rewrite !DecimalPos.Unsigned.of_uint_alt.
  rewrite <- usize_of_list.
  destruct d; cbn [of_list]; unfold Decimal.rev; cbn [Decimal.revapp];
    rewrite DecimalPos.Unsigned.of_lu_revapp; cbn [DecimalPos.Unsigned.of_lu digit_value];
    unfold Decimal.rev; lia.
Qed.

Lemma digits_value_app ds rest :
  digits_value (ds ++ rest)
    = (digits_value ds * 10 ^ N.of_nat (length rest) + digits_value rest)%N.
Proof.
  induction ds as [|d ds IH]; [cbn [app]; change (digits_value []) with 0%N; lia|].
  cbn [app]. rewrite !digits_value_cons, IH, length_app, Nat2N.inj_add, N.pow_add_r.
  lia.
Qed.

Lemma digits_value_all_zeros k : digits_value (replicate k d0) = 0%N.
Proof.
  rewrite <- (app_nil_r (replicate k d0)). rewrite pyfacts.digits_value_zeros.
  reflexivity.
Qed.

Lemma digits_value_trailing_zeros ds k :
  Z.of_N (digits_value (ds ++ replicate k d0))
    = Z.of_N (digits_value ds) * 10 ^ Z.of_nat k.
Proof.
  rewrite digits_value_app, digits_value_all_zeros, length_replicate.
  rewrite N.add_0_r, N2Z.inj_mul, N2Z.inj_pow, nat_N_Z. reflexivity.
Qed.

Lemma lstrip_zeros_spec ds :
  exists k, ds = replicate k d0 ++ lstrip_zeros ds.
Proof.
  induction ds as [|d ds (k & IH)]; [exists 0%nat; reflexivity|].
  destruct d; try (exists 0%nat; reflexivity).
  exists (S k). cbn [lstrip_zeros replicate app]. f_equal. exact IH.
Qed.

(** The digits without the zeros at the end, and how many these are. *)
Lemma strip_trailing_zeros ds :
  exists k, ds = rev (lstrip_zeros (rev ds)) ++ replicate k d0.
Proof.
  destruct (lstrip_zeros_spec (rev ds)) as (k & Hk). exists k.
  rewrite <- (rev_involutive ds) at 1. rewrite Hk at 1.
  rewrite rev_app_distr. f_equal.
  clear. induction k as [|k IH]; [reflexivity|].
  cbn [replicate rev]. rewrite IH. clear.
  induction k as [|k IH]; [reflexivity|]. cbn [replicate app]. f_equal. exact IH.
Qed.

(** *** The text of a float, parsed *)

Lemma parse_exp_exponent_text e : parse_exp (exponent_text e) = Some e.
Proof.
  unfold exponent_text, parse_exp, str_N.
  destruct (pyfacts.str_N_nonempty (Z.abs_N e)) as (d & ds & Hd).
  rewrite length_fmap.
  assert (Hspan : forall pad : bool,
            span_digits ((if pad then "0"%byte :: (digit_byte <$> to_list (N.to_uint (Z.abs_N e)))
                          else digit_byte <$> to_list (N.to_uint (Z.abs_N e))))
            = ((if pad then d0 :: to_list (N.to_uint (Z.abs_N e))
                else to_list (N.to_uint (Z.abs_N e))), [])).
  { intros [|].
    - change ("0"%byte :: (digit_byte <$> ?l)) with (digit_byte <$> (d0 :: l)).
      apply pyfacts.span_digits_all.
    - apply pyfacts.span_digits_all. }
  assert (Hval : forall pad : bool,
            digits_value (if pad then d0 :: to_list (N.to_uint (Z.abs_N e))
                          else to_list (N.to_uint (Z.abs_N e))) = Z.abs_N e).
  { intros [|]; [|apply pyfacts.digits_value_str].
    change (digits_value (d0 :: ?l)) with (digits_value l).
    apply pyfacts.digits_value_str. }
  case_bool_decide as Hneg; cbn [split_sign];
    match goal with
    | |- context [span_digits (if ?c then _ else _)] => 
      specialize (Hspan c); specialize (Hval c); destruct c
    end; rewrite Hspan; rewrite Hd in *; cbn [app]; rewrite Hval; f_equal; lia.
Qed.

Lemma parse_finite_exponent ip fp (dot : bool) etext n :
  ip <> [] -> (dot = false -> fp = []) ->
  parse_exp etext = Some n ->
  parse_finite ((digit_byte <$> ip) ++
                (if dot then "."%byte :: (digit_byte <$> fp) else []) ++
                "e"%byte :: etext)
    = Some (digits_value (ip ++ fp), n - Z.of_nat (length fp)).
Proof.
  intros Hip Hfp Hexp. unfold parse_finite.
  destruct ip as [|i ip]; [congruence|].
  destruct dot.
  - cbn [app].
    rewrite pyfacts.span_digits_app by exact eq_refl. cbv beta iota.
    rewrite pyfacts.span_digits_app by exact eq_refl.
    cbv beta iota. rewrite bool_decide_eq_true_2 by reflexivity.
    rewrite Hexp. reflexivity.
  - rewrite (Hfp eq_refl). cbn [app].
    rewrite pyfacts.span_digits_app by exact eq_refl.
    cbv beta iota. rewrite bool_decide_eq_true_2 by reflexivity.
    rewrite Hexp. reflexivity.
Qed.

Lemma plain_exponent_text e : Forall pyfacts.plain (exponent_text e).
Proof.
  unfold exponent_text, str_N.
  repeat case_bool_decide; pyfacts.solve_plain.
Qed.

Definition digit_head (s : bytes) : Prop :=
  match s with
  | b :: _ => is_Some (byte_digit b)
  | [] => False
  end.

Lemma digit_head_digits ds rest : ds <> [] -> digit_head ((digit_byte <$> ds) ++ rest).
Proof.
  destruct ds as [|d ds]; [congruence|]. intros _. cbn.
  rewrite pyfacts.byte_digit_digit. eauto.
Qed.

(** What [repr_finite] writes is a numeric string of plain characters
    that starts with a digit; it stands for the digits times ten to the
    power [decpt] less their number. *)
Lemma repr_finite_parse sig decpt :
  sig <> [] ->
  Forall pyfacts.plain (repr_finite sig decpt) /\
  digit_head (repr_finite sig decpt) /\
  exists coeff exp,
    parse_finite (repr_finite sig decpt) = Some (coeff, exp) /\
    (coeff = digits_value sig /\ exp = decpt - Z.of_nat (length sig) \/
     0 <= decpt - Z.of_nat (length sig) /\
     Z.of_N coeff = Z.of_N (digits_value sig)
                    * 10 ^ (decpt - Z.of_nat (length sig) + 1) /\
     exp = -1).
Proof.
  intros Hsig. unfold repr_finite. cbv zeta.
  set (len := Z.of_nat (length sig)).
  assert (Hlen : 1 <= len) by (unfold len; destruct sig; [congruence | simpl; lia]).
  case_bool_decide as Hfixed; [case_bool_decide as Hsmall; [|case_bool_decide as Hint]|].
  - (* 0.000ddd *)
    assert (Hshape : B "0." ++ replicate (Z.to_nat (- decpt)) "0"%byte ++ (digit_byte <$> sig)
                     = pyfacts.finite_shape [d0] (replicate (Z.to_nat (- decpt)) d0 ++ sig)
                         true None).
    { unfold pyfacts.finite_shape. rewrite fmap_app, fmap_replicate, app_nil_r.
      reflexivity. }
    rewrite Hshape. split; [apply pyfacts.plain_finite_shape|].
    split; [cbn; eauto|].
    eexists _, _. split; [apply pyfacts.parse_finite_shape; [discriminate | discriminate]|].
    left. split.
    + change ([d0] ++ ?l) with (d0 :: l).
      change (digits_value (d0 :: ?l)) with (digits_value l).
      apply pyfacts.digits_value_zeros.
    + rewrite length_app, length_replicate. unfold default; simpl; unfold len; lia.
  - (* ddd000.0 *)
    assert (Hshape : (digit_byte <$> sig) ++ replicate (Z.to_nat (decpt - len)) "0"%byte ++ B ".0"
                     = pyfacts.finite_shape (sig ++ replicate (Z.to_nat (decpt - len)) d0)
                         [d0] true None).
    { unfold pyfacts.finite_shape. rewrite fmap_app, fmap_replicate, app_nil_r.
      rewrite <- app_assoc. reflexivity. }
    rewrite Hshape. split; [apply pyfacts.plain_finite_shape|].
    split; [unfold pyfacts.finite_shape; rewrite fmap_app, <- app_assoc;
            apply digit_head_digits, Hsig|].
    eexists _, _. split;
      [apply pyfacts.parse_finite_shape;
       [destruct sig; [congruence | discriminate] | discriminate]|].
    right. split; [lia|]. split; [|reflexivity].
    rewrite <- app_assoc.
    change (replicate ?k d0 ++ [d0]) with (replicate k d0 ++ replicate 1 d0).
    rewrite <- replicate_add, digits_value_trailing_zeros.
    f_equal. f_equal. lia.
  - (* dd.ddd *)
    assert (Hshape : take (Z.to_nat decpt) (digit_byte <$> sig) ++
                     "."%byte :: drop (Z.to_nat decpt) (digit_byte <$> sig)
                     = pyfacts.finite_shape (take (Z.to_nat decpt) sig)
                         (drop (Z.to_nat decpt) sig) true None).
    { unfold pyfacts.finite_shape. rewrite fmap_take, fmap_drop, app_nil_r.
      reflexivity. }
    rewrite Hshape. split; [apply pyfacts.plain_finite_shape|].
    assert (Htake : take (Z.to_nat decpt) sig <> []).
    { destruct sig as [|d sig]; [congruence|].
      replace (Z.to_nat decpt) with (S (Z.to_nat (decpt - 1))) by lia. discriminate. }
    split; [apply digit_head_digits, Htake|].
    eexists _, _. split; [apply pyfacts.parse_finite_shape; [exact Htake | discriminate]|].
    left. rewrite take_drop. split; [reflexivity|].
    rewrite length_drop. unfold default; simpl; unfold len in *; lia.
  - (* d.ddde+XX *)
    assert (Hshape : take 1 (digit_byte <$> sig) ++
                     (if bool_decide (1 < len) then "."%byte :: drop 1 (digit_byte <$> sig)
                      else []) ++ "e"%byte :: exponent_text (decpt - 1)
                     = (digit_byte <$> take 1 sig) ++
                       (if bool_decide (1 < len) then "."%byte :: (digit_byte <$> drop 1 sig)
                        else []) ++ "e"%byte :: exponent_text (decpt - 1)).
    { rewrite fmap_take, fmap_drop. reflexivity. }
    rewrite Hshape.
    assert (Htake : take 1 sig <> [])
      by (destruct sig as [|d sig]; [congruence | discriminate]).
    split.
    { case_bool_decide; pyfacts.solve_plain; apply plain_exponent_text. }
    split; [apply digit_head_digits, Htake|].
    assert (Hfp : bool_decide (1 < len) = false -> drop 1 sig = []).
    { intros Hb. apply bool_decide_eq_false in Hb.
      apply drop_ge. unfold len in *. lia. }
    eexists _, _. split.
    { apply parse_finite_exponent;
        [exact Htake | exact Hfp | apply parse_exp_exponent_text]. }
    left. rewrite take_drop. split; [reflexivity|].
    rewrite length_drop. unfold len in *. lia.
Qed.

Lemma strip_c_space_plain s :
  Forall pyfacts.plain s -> strip_by is_c_space s = s.
Proof.
  intros H. unfold strip_by.
  assert (Hs : Forall (fun b => is_c_space b = false) s).
  { eapply Forall_impl; [exact H|]. intros b (_ & Hb & _).
    unfold is_space in Hb. unfold is_c_space.
    apply orb_false_iff in Hb as [Hb1 Hb2]. rewrite Hb1. cbn [orb].
    apply bool_decide_eq_false in Hb2. apply bool_decide_eq_false_2. lia. }
  rewrite (pyfacts.lstrip_id _ s Hs).
  rewrite pyfacts.lstrip_id by (apply Forall_rev; exact Hs).
  apply rev_involutive.
Qed.

Lemma remove_underscores_plain s : forall prev,
  Forall pyfacts.plain s -> prev <> Some "_"%byte ->
  remove_underscores prev s = Some s.
Proof.
  induction s as [|c s IH]; intros prev Hs Hprev.
  - cbn [remove_underscores]. rewrite bool_decide_eq_false_2 by exact Hprev.
    reflexivity.
  - apply Forall_cons in Hs as [(_ & _ & Hc) Hs]. cbn [remove_underscores].
    rewrite (bool_decide_eq_false_2 (c = "_"%byte)) by exact Hc.
    rewrite (bool_decide_eq_false_2 (prev = Some "_"%byte)) by exact Hprev.
    cbn [andb]. rewrite IH; [reflexivity | exact Hs | congruence].
Qed.

Lemma split_sign_digit_head sign body :
  digit_head body -> split_sign (sign_str sign ++ body) = (sign, body).
Proof.
  destruct body as [|b body]; [intros []|]. cbn [digit_head]. intros [d Hd].
  destruct sign; [reflexivity|]. cbn [sign_str app].
  unfold split_sign. destruct b; try reflexivity; discriminate.
Qed.

Lemma plain_sign_body sign body :
  Forall pyfacts.plain body -> Forall pyfacts.plain (sign_str sign ++ body).
Proof. intros H. apply Forall_app_2; [apply pyfacts.plain_sign_str | exact H]. Qed.

Lemma float_of_bytes_finite sign body coeff exp :
  Forall pyfacts.plain body -> digit_head body ->
  parse_finite body = Some (coeff, exp) ->
  float_of_bytes (sign_str sign ++ body)
    = Ok (sign_bit sign +
          round_binary64 (Z.of_N coeff * (pow10_fraction exp).1)
            (pow10_fraction exp).2).
Proof.
  intros Hplain Hhead Hparse. unfold float_of_bytes.
  rewrite strip_c_space_plain by (apply plain_sign_body, Hplain).
  rewrite remove_underscores_plain
    by (apply plain_sign_body, Hplain || discriminate).
  rewrite split_sign_digit_head by exact Hhead.
  rewrite Hparse. destruct (pow10_fraction exp). reflexivity.
Qed.

(** *** The fields of a bit pattern *)

Lemma bits_low_fields x :
  x mod 2 ^ 63 = 2 ^ 52 * ((x / 2 ^ 52) mod 2 ^ 11) + x mod 2 ^ 52.
Proof.
  change (2 ^ 63) with (2 ^ 52 * 2 ^ 11).
  rewrite Z.rem_mul_r by lia. lia.
Qed.

Lemma bits_sign_field x :
  x mod 2 ^ 64 = sign_bit (Z.testbit x 63) + x mod 2 ^ 63.
Proof.
  change (2 ^ 64) with (2 ^ 63 * 2).
  rewrite Z.rem_mul_r by lia.
  rewrite <- Z.bit0_mod, Z.div_pow2_bits by lia. change (0 + 63) with 63.
  unfold sign_bit. destruct (Z.testbit x 63); cbn [Z.b2z]; lia.
Qed.

Lemma float_num_mod x : float_num (x mod 2 ^ 64) = float_num x.
Proof.
  unfold float_num.
  rewrite Z.mod_pow2_bits_low by lia.
  assert (He : (x mod 2 ^ 64 / 2 ^ 52) mod 2 ^ 11 = (x / 2 ^ 52) mod 2 ^ 11).
  { change (2 ^ 64) with (2 ^ 52 * 2 ^ 12).
    rewrite Z.rem_mul_r by lia.
    rewrite Z.add_comm, Z.mul_comm, Z.div_add_l by lia.
    rewrite (Z.div_small (x mod 2 ^ 52)) by (apply Z.mod_pos_bound; lia).
    rewrite Z.add_0_r.
    apply Z.mod_mod_divide. exists 2. reflexivity. }
  assert (Hm : (x mod 2 ^ 64) mod 2 ^ 52 = x mod 2 ^ 52).
  { apply Z.mod_mod_divide. exists (2 ^ 12). reflexivity. }
  rewrite He, Hm. reflexivity.
Qed.

Lemma is_nan_fields x :
  is_nan (VFloat x) = false ->
  x mod 2 ^ 63 <= float_infinity.
Proof.
  unfold is_nan. cbn [to_num]. unfold float_num.
  rewrite bits_low_fields.
  pose proof (Z.mod_pos_bound (x / 2 ^ 52) (2 ^ 11) ltac:(lia)) as He.
  pose proof (Z.mod_pos_bound x (2 ^ 52) ltac:(lia)) as Hm.
  set (e := (x / 2 ^ 52) mod 2 ^ 11) in *. set (m := x mod 2 ^ 52) in *.
  unfold float_infinity. clearbody e m.
  repeat case_bool_decide; try discriminate; intros _;
    try destruct (Z.testbit x 63); lia.
Qed.

Lemma finite_parts_of_bits b :
  0 < b < float_infinity ->
  let shift := Z.max 0 (b / 2 ^ 52 - 1) in
  finite_parts (b - shift * 2 ^ 52) shift /\ 0 < b - shift * 2 ^ 52.
Proof.
  intros Hb. cbv zeta. unfold finite_parts, float_infinity in *.
  pose proof (Z.div_mod b (2 ^ 52) ltac:(lia)) as Hdm.
  pose proof (Z.mod_pos_bound b (2 ^ 52) ltac:(lia)) as Hr.
  assert (He : 0 <= b / 2 ^ 52 < 2047).
  { split; [apply Z.div_pos; lia | apply Z.div_lt_upper_bound; lia]. }
  set (e := b / 2 ^ 52) in *. set (r := b mod 2 ^ 52) in *. clearbody e r.
  lia.
Qed.

(** [float(str(x))] is [x], bit for bit, for every float that is not a
    NaN. *)
Lemma float_of_bytes_str x :
  is_nan (VFloat x) = false ->
  float_of_bytes (float_str x) = Ok (x mod 2 ^ 64).
Proof.
  intros Hnan. apply is_nan_fields in Hnan.
  rewrite bits_sign_field. unfold float_str. cbv zeta.
  pose proof (Z.mod_pos_bound x (2 ^ 63) ltac:(lia)) as Hb.
  set (b := x mod 2 ^ 63) in *. set (sign := Z.testbit x 63). clearbody b sign.
  case_bool_decide as Hinf.
  - rewrite bool_decide_eq_true_2 by lia.
    replace b with float_infinity by lia. destruct sign; reflexivity.
  - case_bool_decide as Hzero; [subst b; destruct sign; reflexivity|].
    destruct (finite_parts_of_bits b ltac:(lia)) as [Hparts Hm].
    cbv zeta in Hparts, Hm.
    set (shift := Z.max 0 (b / 2 ^ 52 - 1)) in *.
    set (m := b - shift * 2 ^ 52) in *.
    pose proof (shortest_rounds_to m shift Hparts Hm) as Hshort.
    destruct (shortest 16 m shift _) as [c j]. destruct Hshort as [Hc Hin].
    pose proof (pyfacts.digits_value_str (Z.to_N c)) as Hval.
    set (ds := to_list (N.to_uint (Z.to_N c))) in *.
    destruct (strip_trailing_zeros ds) as (k & Hds).
    set (sig := rev (lstrip_zeros (rev ds))) in *.
    assert (Hc' : c = Z.of_N (digits_value sig) * 10 ^ Z.of_nat k).
    { rewrite <- digits_value_trailing_zeros, <- Hds, Hval. lia. }
    assert (Hsig : sig <> []).
    { intros Hnil. rewrite Hnil in Hc'. change (digits_value []) with 0%N in Hc'. lia. }
    assert (Hlen : Z.of_nat (length ds) = Z.of_nat (length sig) + Z.of_nat k).
    { rewrite Hds at 1. rewrite length_app, length_replicate. lia. }
    destruct (repr_finite_parse sig (j + Z.of_nat (length ds)) Hsig)
      as (Hplain & Hhead & coeff & exp & Hparse & Hvalue).
    rewrite (float_of_bytes_finite sign _ coeff exp Hplain Hhead Hparse).
    f_equal. f_equal.
    rewrite (round_binary64_interval m shift); [unfold m; lia | exact Hparts | apply pow10_fraction_pos |].
    rewrite <- Hin.
    destruct (pow10_fraction_pos j) as [Hpj Hqj].
    destruct (pow10_fraction_pos exp) as [Hpe Hqe].
    set (e' := j + Z.of_nat k).
    destruct (pow10_fraction_pos e') as [Hp' Hq'].
    pose proof (pow10_fraction_scale c (Z.of_N (digits_value sig)) j e'
                  ltac:(unfold e'; lia)) as Hscale.
    replace (e' - j) with (Z.of_nat k) in Hscale by (unfold e'; lia).
    specialize (Hscale Hc').
    transitivity (rounds_to m shift
                    (Z.of_N (digits_value sig) * (pow10_fraction e').1)
                    (pow10_fraction e').2).
    + destruct Hvalue as [[-> ->] | (Hge & Hcoeff & ->)].
      * replace (j + Z.of_nat (length ds) - Z.of_nat (length sig)) with e'
          by (unfold e'; lia).
        reflexivity.
      * replace (j + Z.of_nat (length ds) - Z.of_nat (length sig)) with e' in *
          by (unfold e'; lia).
        apply rounds_to_fraction; [assumption | assumption |].
        rewrite <- !Z.mul_assoc, (Z.mul_comm (pow10_fraction (-1)).1), !Z.mul_assoc.
        rewrite <- Z.mul_assoc.
        pose proof (pow10_fraction_scale (Z.of_N coeff) (Z.of_N (digits_value sig))
                      (-1) e' ltac:(lia)) as Hs2.
        replace (e' - -1) with (e' + 1) in Hs2 by lia.
        specialize (Hs2 Hcoeff). lia.
    + apply rounds_to_fraction; [assumption | assumption |]. lia.
Qed.

(** *** The number of digits of an integer *)

Lemma to_uint_head n :
  n <> 0%N -> exists d ds, to_list (N.to_uint n) = d :: ds /\ d <> d0.
Proof.
  intros Hn. destruct (pyfacts.str_N_nonempty n) as (d & ds & Hd).
  exists d, ds. split; [exact Hd|]. intros ->.
  pose proof (DecimalN.Unsigned.to_of (N.to_uint n)) as Hnorm.
  rewrite DecimalN.Unsigned.of_to in Hnorm.
  assert (Hu : N.to_uint n = Decimal.D0 (of_list ds)).
  { rewrite <- (of_list_to_list (N.to_uint n)), Hd. reflexivity. }
  rewrite Hu in Hnorm. unfold Decimal.unorm in Hnorm. cbn [Decimal.nzhead] in Hnorm.
  pose proof (nb_digits_nzhead (of_list ds)) as Hsize.
  destruct (Decimal.nzhead (of_list ds)) eqn:Hz; try discriminate Hnorm.
  - injection Hnorm as Hnil. apply Hn.
    rewrite <- (DecimalN.Unsigned.of_to n), Hu, Hnil. reflexivity.
  - injection Hnorm as Hnil. rewrite Hnil in Hsize.
    cbn [Decimal.nb_digits] in Hsize. lia.
Qed.

Lemma digit_value_bound d : (digit_value d <= 9)%N.
Proof. destruct d; cbn; lia. Qed.

Lemma digit_value_nonzero d : d <> d0 -> (1 <= digit_value d)%N.
Proof. destruct d; cbn; try lia. congruence. Qed.

Lemma digits_value_bound ds : (digits_value ds < 10 ^ N.of_nat (length ds))%N.
Proof.
  induction ds as [|d ds IH]; [cbn; lia|].
  rewrite digits_value_cons. cbn [length]. rewrite Nat2N.inj_succ, N.pow_succ_r'.
  pose proof (digit_value_bound d). nia.
Qed.

Lemma str_N_length n k :
  (1 <= k)%nat ->
  (length (str_N n) <= k)%nat <-> (n < 10 ^ N.of_nat k)%N.
Proof.
  intros Hk. unfold str_N. rewrite length_fmap.
  pose proof (pyfacts.digits_value_str n) as Hval.
  destruct (N.eq_dec n 0%N) as [->|Hn].
  - cbn [N.to_uint to_list length]. split; [intros _|intros _; exact Hk].
    apply N.neq_0_lt_0, N.pow_nonzero. discriminate.
  - destruct (to_uint_head n Hn) as (d & ds & Hd & Hd0).
    rewrite Hd in *. cbn [length].
    pose proof (digits_value_bound (d :: ds)) as Hup. rewrite Hval in Hup.
    cbn [length] in Hup.
    rewrite digits_value_cons in Hval.
    pose proof (digit_value_nonzero d Hd0) as Hd1.
    assert (Hlow : (10 ^ N.of_nat (length ds) <= n)%N) by nia.
    split; intros H.
    + eapply N.lt_le_trans; [exact Hup|]. apply N.pow_le_mono_r; lia.
    + destruct (Nat.le_gt_cases (S (length ds)) k) as [|Hgt]; [assumption|].
      exfalso. assert ((10 ^ N.of_nat k <= 10 ^ N.of_nat (length ds))%N)
        by (apply N.pow_le_mono_r; lia).
      lia.
Qed.

End floatfacts.

(** ** adapt.py: the registries of dumpers and loaders *)

Module adapt.

#[global] Instance Format_countable : Countable Format.
Proof.
  refine (inj_countable' (fun f => match f with TEXT => false | BINARY => true end)
            (fun b : bool => if b then BINARY else TEXT) _).
  intros []; reflexivity.
Defined.

#[global] Instance PyType_eq_dec : EqDecision PyType.
Proof. solve_decision. Defined.

#[global] Instance PyType_countable : Countable PyType.
Proof.
  refine (inj_countable'
            (fun t => match t with
                      | t_int => 0%nat | t_bool => 1%nat
                      | t_float => 2%nat | t_Decimal => 3%nat
                      end)
            (fun n => match n with
                      | 0%nat => t_int | 1%nat => t_bool
                      | 2%nat => t_float | _ => t_Decimal
                      end) _).
  intros []; reflexivity.
Defined.

(** Modelled from the spec: [Dumper] and [Loader] of [adapt.py] are not
    among the sources.  Their registries are the two maps of the spec,
    dumpers keyed by (runtime type, wire format) and loaders keyed by
    (type oid, wire format); registering a key again replaces its entry. *)
Definition register {K A} `{Countable K} (key : K) (entry : A)
    (m : gmap K A) : gmap K A := <[key := entry]> m.

End adapt.
Export adapt.

(** ** types/numeric.py *)

Module numeric.

Definition DumpFunc := PyValue -> result (bytes * Z).
Definition LoadFunc := bytes -> result PyValue.

(** [_int2_struct = struct.Struct("!h")] and the others of the module; the
    eight bytes of ["!d"] and the four of ["!f"] are the bit pattern of the
    float, most significant byte first. *)
Abbreviation _int2_struct_pack := (struct.pack_signed 2).
Abbreviation _int4_struct_pack := (struct.pack_signed 4).
Abbreviation _int8_struct_pack := (struct.pack_signed 8).
Abbreviation _float8_struct_pack := (struct.pack_unsigned 8).
Abbreviation _int2_struct_unpack := (struct.unpack_signed 2).
Abbreviation _int4_struct_unpack := (struct.unpack_signed 4).
Abbreviation _int8_struct_unpack := (struct.unpack_signed 8).
Abbreviation _oid_struct_unpack := (struct.unpack_unsigned 4).
Abbreviation _float4_struct_unpack := (struct.unpack_unsigned 4).
Abbreviation _float8_struct_unpack := (struct.unpack_unsigned 8).

Definition type_error : PyExc := mkExc ValueError "unexpected type".

Definition dump_int (obj : Z) : result (bytes * Z) :=
  data ← str_int obj; Ok (data, NUMERIC_OID).

Definition dump_binary_int (obj : Z) : result (bytes * Z) :=
  if bool_decide (- 0x8000 <= obj <= 0x7FFF) then
    data ← _int2_struct_pack obj; Ok (data, INT2_OID)
  else if bool_decide (- 0x80000000 <= obj <= 0x7FFFFFFF) then
    data ← _int4_struct_pack obj; Ok (data, INT4_OID)
  else
    data ← _int8_struct_pack obj; Ok (data, INT8_OID).

Definition dump_binary_int2 (obj : Z) : result (bytes * Z) :=
  data ← _int2_struct_pack obj; Ok (data, INT2_OID).

Definition dump_binary_int4 (obj : Z) : result (bytes * Z) :=
  data ← _int4_struct_pack obj; Ok (data, INT4_OID).

Definition dump_binary_int8 (obj : Z) : result (bytes * Z) :=
  data ← _int8_struct_pack obj; Ok (data, INT8_OID).

Definition dump_binary_float (obj : Z) : result (bytes * Z) :=
  data ← _float8_struct_pack obj; Ok (data, FLOAT8_OID).

Definition dump_decimal (obj : PyDecimal) : result (bytes * Z) :=
  Ok (str_Decimal obj, NUMERIC_OID).

Definition _bool_dump (obj : bool) : bytes * Z :=
  if obj then (B "t", BOOL_OID) else (B "f", BOOL_OID).

Definition _bool_binary_dump (obj : bool) : bytes * Z :=
  if obj then ([x01%byte], BOOL_OID) else ([x00%byte], BOOL_OID).

Definition dump_bool (obj : bool) : result (bytes * Z) := Ok (_bool_dump obj).

Definition dump_binary_bool (obj : bool) : result (bytes * Z) :=
  Ok (_bool_binary_dump obj).

Definition load_int (data : bytes) : result Z :=
  s ← ascii_decode data; int_of_str s.

Definition load_binary_int2 (data : bytes) : result Z := _int2_struct_unpack data.
Definition load_binary_int4 (data : bytes) : result Z := _int4_struct_unpack data.
Definition load_binary_int8 (data : bytes) : result Z := _int8_struct_unpack data.
Definition load_binary_oid (data : bytes) : result Z := _oid_struct_unpack data.

Definition load_binary_float4 (data : bytes) : result Z :=
  bits ← _float4_struct_unpack data; Ok (float_of_single bits).

Definition load_binary_float8 (data : bytes) : result Z :=
  _float8_struct_unpack data.

Definition load_numeric (data : bytes) : result PyDecimal :=
  s ← ascii_decode data; Decimal_of_str s.

Definition key_error : PyExc := mkExc KeyError "".

Definition _bool_loads (data : bytes) : result bool :=
  if bool_decide (data = B "t") then Ok true
  else if bool_decide (data = B "f") then Ok false
  else Raise key_error.

Definition _bool_binary_loads (data : bytes) : result bool :=
  if bool_decide (data = [x01%byte]) then Ok true
  else if bool_decide (data = [x00%byte]) then Ok false
  else Raise key_error.

Definition load_bool (data : bytes) : result bool := _bool_loads data.
Definition load_binary_bool (data : bytes) : result bool := _bool_binary_loads data.

(** A dumper registered for a type is called with values of that type. *)
Definition on_int (f : Z -> result (bytes * Z)) : DumpFunc :=
  fun v => match v with VInt z => f z | _ => Raise type_error end.
Definition on_bool (f : bool -> result (bytes * Z)) : DumpFunc :=
  fun v => match v with VBool b => f b | _ => Raise type_error end.
Definition on_float (f : Z -> result (bytes * Z)) : DumpFunc :=
  fun v => match v with VFloat x => f x | _ => Raise type_error end.
Definition on_Decimal (f : PyDecimal -> result (bytes * Z)) : DumpFunc :=
  fun v => match v with VDecimal d => f d | _ => Raise type_error end.

Definition returning {A} (c : A -> PyValue) (f : bytes -> result A) : LoadFunc :=
  fun data => c <$> f data.

(** *** The binary integer dumper *)

Lemma pack_signed_ok n z :
  - 2 ^ (8 * Z.of_nat n - 1) <= z <= 2 ^ (8 * Z.of_nat n - 1) - 1 ->
  struct.pack_signed n z = Ok (struct.pack_be n z).
Proof.
  intros H. unfold struct.pack_signed.
  rewrite bool_decide_eq_true_2 by exact H. reflexivity.
Qed.

Lemma pack_signed_raises n z :
  ~ (- 2 ^ (8 * Z.of_nat n - 1) <= z <= 2 ^ (8 * Z.of_nat n - 1) - 1) ->
  struct.pack_signed n z = Raise struct.struct_error.
Proof.
  intros H. unfold struct.pack_signed.
  rewrite bool_decide_eq_false_2 by exact H. reflexivity.
Qed.

Lemma dump_binary_int_cases obj :
  dump_binary_int obj =
    if bool_decide (- 32768 <= obj <= 32767) then
      Ok (struct.pack_be 2 obj, INT2_OID)
    else if bool_decide (- 2147483648 <= obj <= 2147483647) then
      Ok (struct.pack_be 4 obj, INT4_OID)
    else if bool_decide (- 2 ^ 63 <= obj <= 2 ^ 63 - 1) then
      Ok (struct.pack_be 8 obj, INT8_OID)
    else Raise struct.struct_error.
Proof.
  unfold dump_binary_int.
  change (- 0x8000) with (- 32768). change 0x7FFF with 32767.
  change (- 0x80000000) with (- 2147483648). change 0x7FFFFFFF with 2147483647.
  repeat case_bool_decide.
  - rewrite pack_signed_ok; [reflexivity|]. simpl. lia.
  - rewrite pack_signed_ok; [reflexivity|]. simpl. lia.
  - rewrite pack_signed_ok; [reflexivity|]. simpl. lia.
  - rewrite pack_signed_raises; [reflexivity|]. simpl. lia.
Qed.

(** C6, as the code has it: within the range of int8 the binary integer
    dumper picks the narrowest type that holds [obj]: the oid of int2 with
    the 2-byte encoding exactly on [-32768, 32767], the oid of int4 with the
    4-byte encoding exactly on the rest of [-2147483648, 2147483647], the
    oid of int8 with the 8-byte encoding exactly on the rest of
    [-2^63, 2^63 - 1]; so int2 for -32768, int4 for -32769 and int8 for
    2^31. *)
Theorem dump_binary_int_narrowest obj :
  (dump_binary_int obj = Ok (struct.pack_be 2 obj, INT2_OID) <->
     - 32768 <= obj <= 32767) /\
  (dump_binary_int obj = Ok (struct.pack_be 4 obj, INT4_OID) <->
     ~ (- 32768 <= obj <= 32767) /\ - 2147483648 <= obj <= 2147483647) /\
  (dump_binary_int obj = Ok (struct.pack_be 8 obj, INT8_OID) <->
     ~ (- 2147483648 <= obj <= 2147483647) /\ - 2 ^ 63 <= obj <= 2 ^ 63 - 1) /\
  (forall data oid, dump_binary_int obj = Ok (data, oid) ->
     oid = INT2_OID /\ length data = 2%nat \/
     oid = INT4_OID /\ length data = 4%nat \/
     oid = INT8_OID /\ length data = 8%nat) /\
  snd <$> dump_binary_int (- 32768) = Ok INT2_OID /\
  snd <$> dump_binary_int (- 32769) = Ok INT4_OID /\
  snd <$> dump_binary_int (2 ^ 31) = Ok INT8_OID.
Proof.
  rewrite dump_binary_int_cases.
  split; [|split; [|split; [|split; [|split; [|split]]]]].
  - repeat case_bool_decide; split; try discriminate; try lia; reflexivity.
  - repeat case_bool_decide; split; try discriminate; try lia; reflexivity.
  - repeat case_bool_decide; split; try discriminate; try lia; reflexivity.
  - intros data oid.
    repeat case_bool_decide; try discriminate; intros [= <- <-];
      rewrite struct.length_pack_be; auto.
  - rewrite dump_binary_int_cases. reflexivity.
  - rewrite dump_binary_int_cases. reflexivity.
  - rewrite dump_binary_int_cases. reflexivity.
Qed.

(** C6 as stated fails past int8: for 2^63 the dumper is to return the
    int8 oid with an 8-byte encoding, and [pack] raises instead. *)
Lemma dump_binary_int_too_large :
  dump_binary_int (2 ^ 63) = Raise struct.struct_error.
Proof. rewrite dump_binary_int_cases. reflexivity. Qed.

Lemma dump_int_Ok obj data oid :
  dump_int obj = Ok (data, oid) -> data = int_text obj /\ oid = NUMERIC_OID.
Proof.
  unfold dump_int. destruct (str_int obj) as [t|] eqn:Ht; [|discriminate].
  intros [= <- <-]. split; [apply pyfacts.str_int_Ok, Ht | reflexivity].
Qed.

Section Registry.

(** [str(obj)] of a float and [float(data)] of the runtime, on bit
    patterns. *)
Variable float_str : Z -> bytes.
Variable float_of_bytes : bytes -> result Z.

Definition dump_float (obj : Z) : result (bytes * Z) :=
  Ok (float_str obj, FLOAT8_OID).

Definition load_float (data : bytes) : result Z := float_of_bytes data.

(** The registrations of the module, in the order of its decorators
    ([dump_binary_int] and the three fixed-width dumpers carry none). *)
Definition dumpers : gmap (PyType * Format) DumpFunc :=
  register (t_bool, BINARY) (on_bool dump_binary_bool)
  (register (t_bool, TEXT) (on_bool dump_bool)
  (register (t_Decimal, TEXT) (on_Decimal dump_decimal)
  (register (t_float, BINARY) (on_float dump_binary_float)
  (register (t_float, TEXT) (on_float dump_float)
  (register (t_int, TEXT) (on_int dump_int) ∅))))).

Definition loaders : gmap (Z * Format) LoadFunc :=
  register (BOOL_OID, BINARY) (returning VBool load_binary_bool)
  (register (BOOL_OID, TEXT) (returning VBool load_bool)
  (register (NUMERIC_OID, TEXT) (returning VDecimal load_numeric)
  (register (FLOAT8_OID, BINARY) (returning VFloat load_binary_float8)
  (register (FLOAT4_OID, BINARY) (returning VFloat load_binary_float4)
  (register (FLOAT4_OID, TEXT) (returning VFloat load_float)
  (register (FLOAT8_OID, TEXT) (returning VFloat load_float)
  (register (OID_OID, BINARY) (returning VInt load_binary_oid)
  (register (INT8_OID, BINARY) (returning VInt load_binary_int8)
  (register (INT4_OID, BINARY) (returning VInt load_binary_int4)
  (register (INT2_OID, BINARY) (returning VInt load_binary_int2)
  (register (INT2_OID, TEXT) (returning VInt load_int)
  (register (INT4_OID, TEXT) (returning VInt load_int)
  (register (INT8_OID, TEXT) (returning VInt load_int)
  (register (OID_OID, TEXT) (returning VInt load_int) ∅)))))))))))))).

(** *** Round trip of the built-in adapters *)

Ltac lookup_registry :=
  unfold dumpers, loaders, adapt.register;
  repeat (rewrite lookup_insert_ne by (vm_compute; congruence));
  first [rewrite lookup_insert_eq | rewrite lookup_empty].

Lemma load_numeric_str d : load_numeric (str_Decimal d) = Ok d.
Proof.
  unfold load_numeric. destruct (pyfacts.Decimal_of_str_str d) as [Hplain Hparse].
  rewrite pyfacts.ascii_decode_plain by exact Hplain. exact Hparse.
Qed.

Lemma load_binary_int_dump z data oid :
  dump_binary_int z = Ok (data, oid) ->
  exists load, loaders !! (oid, BINARY) = Some load /\ load data = Ok (VInt z).
Proof.
  unfold dump_binary_int.
  repeat case_bool_decide;
    destruct (struct.pack_signed _ z) as [d|] eqn:Hpack;
    cbn [mbind result_bind]; try discriminate;
    intros Heq; inversion Heq; subst; clear Heq; eexists; (split; [lookup_registry; reflexivity|]);
    unfold returning, load_binary_int2, load_binary_int4, load_binary_int8;
    pose proof (fun H => struct.unpack_pack_signed _ _ _ H Hpack) as Hu;
    rewrite Hu by lia; reflexivity.
Qed.

(** The round trip through the registries, given the round trip of [str]
    and [float] on the float at hand. *)
Lemma registry_roundtrip v format dump data oid load :
  is_nan v = false ->
  (forall x, v = VFloat x -> format = TEXT ->
     exists y, float_of_bytes (float_str x) = Ok y /\
               py_eq (VFloat y) (VFloat x) = true) ->
  dumpers !! (type_of v, format) = Some dump ->
  dump v = Ok (data, oid) ->
  loaders !! (oid, format) = Some load ->
  exists v', load data = Ok v' /\ py_eq v' v = true.
Proof.
  intros Hnan Hfloat Hdump Hres Hload.
  destruct v as [z | b | x | d], format; cbn [type_of] in Hdump;
    revert Hdump; lookup_registry; try discriminate; intros [= <-];
    cbn [on_int on_bool on_float on_Decimal] in Hres.
  - (* int, text *)
    apply dump_int_Ok in Hres as [-> ->].
    revert Hload. lookup_registry. intros [= <-].
    unfold returning. rewrite pyfacts.int_text_Decimal, load_numeric_str.
    eexists. split; [reflexivity|]. apply pyfacts.py_eq_Decimal_int.
  - (* bool, text *)
    destruct b; injection Hres as <- <-; revert Hload;
      lookup_registry; intros [= <-]; eexists; split; reflexivity.
  - (* bool, binary *)
    destruct b; injection Hres as <- <-; revert Hload;
      lookup_registry; intros [= <-]; eexists; split; reflexivity.
  - (* float, text *)
    injection Hres as <- <-. revert Hload. lookup_registry. intros [= <-].
    destruct (Hfloat x eq_refl eq_refl) as (y & Hy & Heq).
    unfold returning, load_float. rewrite Hy.
    eexists. split; [reflexivity|]. exact Heq.
  - (* float, binary *)
    unfold dump_binary_float in Hres.
    destruct (struct.pack_unsigned 8 x) as [d|] eqn:Hpack; [|discriminate].
    injection Hres as <- <-. revert Hload. lookup_registry. intros [= <-].
    unfold returning, load_binary_float8.
    rewrite (struct.unpack_pack_unsigned _ _ _ Hpack).
    eexists. split; [reflexivity|]. apply pyfacts.py_eq_refl, Hnan.
  - (* Decimal, text *)
    injection Hres as <- <-. revert Hload. lookup_registry. intros [= <-].
    unfold returning. rewrite load_numeric_str.
    eexists. split; [reflexivity|]. apply pyfacts.py_eq_refl, Hnan.
Qed.

Lemma binary_int_roundtrip z :
  - 2 ^ 63 <= z <= 2 ^ 63 - 1 ->
  exists data oid load,
    dump_binary_int z = Ok (data, oid) /\
    loaders !! (oid, BINARY) = Some load /\
    load data = Ok (VInt z).
Proof.
  intros Hz.
  destruct (dump_binary_int z) as [[data oid]|e] eqn:Hdump.
  - destruct (load_binary_int_dump z data oid Hdump) as (load & Hl & Hv).
    exists data, oid, load. repeat split; assumption.
  - exfalso. rewrite dump_binary_int_cases in Hdump.
    repeat case_bool_decide; try discriminate; lia.
Qed.

(** *** What is registered *)

(** The decorators of the module register a dumper for every built-in
    type in both formats, except for int and Decimal in the binary format
    ([dump_binary_int] carries no decorator); and whatever a registered
    dumper returns, a loader is registered for the oid it returns in the
    format it was registered for. *)
Theorem registry_closed :
  (forall t format,
     is_Some (dumpers !! (t, format)) <->
     (t, format) <> (t_int, BINARY) /\ (t, format) <> (t_Decimal, BINARY)) /\
  (forall v format dump data oid,
     dumpers !! (type_of v, format) = Some dump ->
     dump v = Ok (data, oid) ->
     is_Some (loaders !! (oid, format))).
Proof.
  split.
  - intros t format. destruct t, format; lookup_registry;
      (split; [intros Hs; try (split; discriminate); destruct Hs; discriminate
              | intros [H1 H2]; try congruence; eexists; reflexivity]).
  - intros v format dump data oid Hdump Hres.
    destruct v as [z | b | x | d], format; cbn [type_of] in Hdump;
      revert Hdump; lookup_registry; try discriminate; intros [= <-];
      cbn [on_int on_bool on_float on_Decimal] in Hres.
    + apply dump_int_Ok in Hres as [-> ->]. lookup_registry. eexists. reflexivity.
    + destruct b; injection Hres as <- <-; lookup_registry; eexists; reflexivity.
    + destruct b; injection Hres as <- <-; lookup_registry; eexists; reflexivity.
    + injection Hres as <- <-. lookup_registry. eexists. reflexivity.
    + unfold dump_binary_float in Hres.
      destruct (struct.pack_unsigned 8 x) as [d|]; [|discriminate].
      injection Hres as <- <-. lookup_registry. eexists. reflexivity.
    + injection Hres as <- <-. lookup_registry. eexists. reflexivity.
Qed.

End Registry.

(** *** The round trip of the built-in adapters *)

(** A float read back from its text compares equal to itself. *)
Lemma float_text_roundtrip x :
  is_nan (VFloat x) = false ->
  exists y, float_of_bytes (float_str x) = Ok y /\
            py_eq (VFloat y) (VFloat x) = true.
Proof.
  intros Hnan. exists (x mod 2 ^ 64).
  split; [apply floatfacts.float_of_bytes_str, Hnan|].
  unfold py_eq. cbn [to_num]. rewrite floatfacts.float_num_mod.
  apply (pyfacts.py_eq_refl (VFloat x)), Hnan.
Qed.

(** C1, as the code has it.  With [str] and [float] of the runtime for
    the text of a float: a value that is not a NaN, dumped by the dumper
    registered for its type and format and loaded by the loader registered
    for the oid the dumper returned and that format, comes back as a value
    equal to it.  The binary integer dumper, which is not registered,
    round-trips with the binary loader of the oid it chose on every integer
    of int8, and a bool goes out as [t]/[f] or as the byte 1/0 and comes
    back the same. *)
Theorem builtin_roundtrip :
  (forall v format dump data oid load,
     is_nan v = false ->
     dumpers float_str !! (type_of v, format) = Some dump ->
     dump v = Ok (data, oid) ->
     loaders float_of_bytes !! (oid, format) = Some load ->
     exists v', load data = Ok v' /\ py_eq v' v = true) /\
  (forall z, - 2 ^ 63 <= z <= 2 ^ 63 - 1 ->
     exists data oid load,
       dump_binary_int z = Ok (data, oid) /\
       loaders float_of_bytes !! (oid, BINARY) = Some load /\
       load data = Ok (VInt z)) /\
  (forall b,
     dump_bool b = Ok (if b then B "t" else B "f", BOOL_OID) /\
     load_bool (if b then B "t" else B "f") = Ok b /\
     dump_binary_bool b = Ok (if b then [x01%byte] else [x00%byte], BOOL_OID) /\
     load_binary_bool (if b then [x01%byte] else [x00%byte]) = Ok b).
Proof.
  split; [|split].
  - intros v format dump data oid load Hnan Hdump Hres Hload.
    apply (registry_roundtrip float_str float_of_bytes v format dump data oid load);
      try assumption.
    intros x -> _. apply float_text_roundtrip, Hnan.
  - apply binary_int_roundtrip.
  - intros b. destruct b; repeat split; reflexivity.
Qed.

(** *** The round trip at concrete values *)

(** A runtime that prints floats as nothing and parses none: the text
    form of floats plays no part in what is registered. *)
Definition no_float_str (x : Z) : bytes := [].
Definition no_float_of_bytes (data : bytes) : result Z :=
  Raise (mkExc ValueError "could not convert string to float").

(** [Decimal("NaN")], and [float("nan")] as the quiet NaN 7ff8000000000000. *)
Definition Decimal_NaN : PyValue := VDecimal (NaN false false 0).
Definition float_nan : PyValue := VFloat 0x7ff8000000000000.

(** The floats 0.1 and -1.5e-07. *)
Definition float_tenth : Z := 0x3fb999999999999a.
Definition float_small : Z := 0xbe8421f5f40d8376.

Lemma builtin_roundtrip_witness :
  (exists v',
     dump_float float_str float_tenth = Ok (B "0.1", FLOAT8_OID) /\
     returning VFloat (load_float float_of_bytes) (B "0.1") = Ok v' /\
     py_eq v' (VFloat float_tenth) = true) /\
  (exists v',
     dump_float float_str float_small = Ok (B "-1.5e-07", FLOAT8_OID) /\
     returning VFloat (load_float float_of_bytes) (B "-1.5e-07") = Ok v' /\
     py_eq v' (VFloat float_small) = true) /\
  (exists v',
     dump_int (- 42) = Ok (B "-42", NUMERIC_OID) /\
     returning VDecimal load_numeric (B "-42") = Ok v' /\
     py_eq v' (VInt (- 42)) = true).
Proof.
  assert (Hd : forall x data,
            float_str x = data ->
            on_float (dump_float float_str) (VFloat x) = Ok (data, FLOAT8_OID))
    by (intros x data <-; reflexivity).
  assert (H1 : float_str float_tenth = B "0.1") by (vm_compute; reflexivity).
  assert (H2 : float_str float_small = B "-1.5e-07") by (vm_compute; reflexivity).
  split; [|split].
  - destruct (proj1 builtin_roundtrip (VFloat float_tenth) TEXT
                (on_float (dump_float float_str)) (B "0.1") FLOAT8_OID
                (returning VFloat (load_float float_of_bytes)))
      as (v' & Hv & Heq);
      [reflexivity | reflexivity | exact (Hd _ _ H1) | reflexivity |].
    exists v'. split; [exact (Hd _ _ H1)|]. split; assumption.
  - destruct (proj1 builtin_roundtrip (VFloat float_small) TEXT
                (on_float (dump_float float_str)) (B "-1.5e-07") FLOAT8_OID
                (returning VFloat (load_float float_of_bytes)))
      as (v' & Hv & Heq);
      [reflexivity | reflexivity | exact (Hd _ _ H2) | reflexivity |].
    exists v'. split; [exact (Hd _ _ H2)|]. split; assumption.
  - destruct (proj1 builtin_roundtrip (VInt (- 42)) TEXT (on_int dump_int)
                (B "-42") NUMERIC_OID (returning VDecimal load_numeric))
      as (v' & Hv & Heq); [reflexivity | reflexivity | reflexivity | reflexivity |].
    exists v'. split; [reflexivity|]. split; assumption.
Defined.

(** C1 as stated fails on a NaN: [Decimal("NaN")] in the text format and
    the float NaN in both formats are dumped by the registered dumper and
    loaded by the registered loader of the returned oid, and what comes
    back, a NaN again, is not equal to the value dumped. *)
Lemma nan_roundtrip_not_equal :
  (exists dump data load v',
     dumpers float_str !! (type_of Decimal_NaN, TEXT) = Some dump /\
     dump Decimal_NaN = Ok (data, NUMERIC_OID) /\
     loaders float_of_bytes !! (NUMERIC_OID, TEXT) = Some load /\
     load data = Ok v' /\ py_eq v' Decimal_NaN = false) /\
  (exists dump data load v',
     dumpers float_str !! (type_of float_nan, BINARY) = Some dump /\
     dump float_nan = Ok (data, FLOAT8_OID) /\
     loaders float_of_bytes !! (FLOAT8_OID, BINARY) = Some load /\
     load data = Ok v' /\ py_eq v' float_nan = false) /\
  (exists dump data load v',
     dumpers float_str !! (type_of float_nan, TEXT) = Some dump /\
     dump float_nan = Ok (data, FLOAT8_OID) /\
     loaders float_of_bytes !! (FLOAT8_OID, TEXT) = Some load /\
     load data = Ok v' /\ py_eq v' float_nan = false).
Proof.
  split; [|split].
  - exists (on_Decimal dump_decimal), (B "NaN"),
      (returning VDecimal load_numeric), Decimal_NaN.
    repeat split; reflexivity.
  - exists (on_float dump_binary_float),
      [x7f; xf8; x00; x00; x00; x00; x00; x00]%byte,
      (returning VFloat load_binary_float8), float_nan.
    repeat split; reflexivity.
  - exists (on_float (dump_float float_str)), (B "nan"),
      (returning VFloat (load_float float_of_bytes)), float_nan.
    repeat split; reflexivity.
Qed.

(** *** The fixed-width dumpers and the binary loaders *)

Lemma half_range n :
  (0 < n)%nat -> 2 ^ (8 * Z.of_nat n) = 2 * 2 ^ (8 * Z.of_nat n - 1).
Proof. intros Hn. rewrite <- Z.pow_succ_r by lia. f_equal. lia. Qed.

Lemma unpack_be_bound data :
  0 <= struct.unpack_be data < 2 ^ (8 * Z.of_nat (length data)).
Proof.
  unfold struct.unpack_be. rewrite <- (length_rev data). apply le_combine_bound.
Qed.

Lemma to_signed_bound n u :
  (0 < n)%nat -> 0 <= u < 2 ^ (8 * Z.of_nat n) ->
  - 2 ^ (8 * Z.of_nat n - 1) <= struct.to_signed n u <= 2 ^ (8 * Z.of_nat n - 1) - 1.
Proof.
  intros Hn Hu. unfold struct.to_signed. rewrite (half_range n Hn) in *.
  case_bool_decide; lia.
Qed.

(** The bytes of [pack] depend on the integer modulo [2 ^ (8 n)] only. *)
Lemma pack_be_mod n a b :
  a mod 2 ^ (Z.of_nat n * 8) = b mod 2 ^ (Z.of_nat n * 8) ->
  struct.pack_be n a = struct.pack_be n b.
Proof.
  intros Hab. unfold struct.pack_be. f_equal.
  apply le_combine_inj; [rewrite !length_le_split; reflexivity|].
  rewrite !le_combine_split. exact Hab.
Qed.

Lemma pack_unpack_be data :
  struct.pack_be (length data) (struct.unpack_be data) = data.
Proof.
  unfold struct.pack_be, struct.unpack_be.
  rewrite <- (length_rev data), split_le_combine. apply rev_involutive.
Qed.

Lemma pack_unpack_signed n data :
  (0 < n)%nat -> length data = n ->
  exists z, struct.unpack_signed n data = Ok z /\ struct.pack_signed n z = Ok data.
Proof.
  intros Hn Hlen. unfold struct.unpack_signed.
  rewrite bool_decide_eq_true_2 by exact Hlen. eexists. split; [reflexivity|].
  pose proof (unpack_be_bound data) as Hb. rewrite Hlen in Hb.
  rewrite pack_signed_ok by (apply to_signed_bound; assumption).
  f_equal. rewrite <- (pack_unpack_be data) at 2. rewrite Hlen.
  apply pack_be_mod. unfold struct.to_signed.
  case_bool_decide; [reflexivity|].
  replace (Z.of_nat n * 8) with (8 * Z.of_nat n) by lia.
  rewrite <- (Z.mod_add (struct.unpack_be data - 2 ^ (8 * Z.of_nat n)) 1)
    by (apply Z.pow_nonzero; lia).
  f_equal. lia.
Qed.

Lemma unpack_signed_size n data :
  length data <> n -> struct.unpack_signed n data = Raise struct.size_error.
Proof.
  intros H. unfold struct.unpack_signed.
  rewrite bool_decide_eq_false_2 by exact H. reflexivity.
Qed.

Lemma dump_load_signed n obj :
  (0 < n)%nat ->
  - 2 ^ (8 * Z.of_nat n - 1) <= obj <= 2 ^ (8 * Z.of_nat n - 1) - 1 ->
  exists data,
    struct.pack_signed n obj = Ok data /\ length data = n /\
    struct.unpack_signed n data = Ok obj.
Proof.
  intros Hn Hr. exists (struct.pack_be n obj).
  pose proof (pack_signed_ok n obj Hr) as Hp. split; [exact Hp|].
  split; [apply struct.length_pack_be|].
  apply (struct.unpack_pack_signed n obj _ Hn Hp).
Qed.

(** The three dumpers [dump_binary_int2], [dump_binary_int4] and
    [dump_binary_int8], which are used on demand, return the oid of their
    type with an encoding of its width on the integers of their range, and
    the binary loader of that type reads the integer back; outside the
    range they raise [struct.error] (nothing is truncated). *)
Theorem fixed_width_dump_load obj :
  (- 2 ^ 15 <= obj <= 2 ^ 15 - 1 ->
     exists data, dump_binary_int2 obj = Ok (data, INT2_OID) /\
       length data = 2%nat /\ load_binary_int2 data = Ok obj) /\
  (~ - 2 ^ 15 <= obj <= 2 ^ 15 - 1 ->
     dump_binary_int2 obj = Raise struct.struct_error) /\
  (- 2 ^ 31 <= obj <= 2 ^ 31 - 1 ->
     exists data, dump_binary_int4 obj = Ok (data, INT4_OID) /\
       length data = 4%nat /\ load_binary_int4 data = Ok obj) /\
  (~ - 2 ^ 31 <= obj <= 2 ^ 31 - 1 ->
     dump_binary_int4 obj = Raise struct.struct_error) /\
  (- 2 ^ 63 <= obj <= 2 ^ 63 - 1 ->
     exists data, dump_binary_int8 obj = Ok (data, INT8_OID) /\
       length data = 8%nat /\ load_binary_int8 data = Ok obj) /\
  (~ - 2 ^ 63 <= obj <= 2 ^ 63 - 1 ->
     dump_binary_int8 obj = Raise struct.struct_error).
Proof.
  unfold dump_binary_int2, dump_binary_int4, dump_binary_int8,
    load_binary_int2, load_binary_int4, load_binary_int8.
  repeat split; intros Hr;
    first
      [ match goal with
        | |- exists _, mbind _ (struct.pack_signed ?n _) = _ /\ _ =>
          destruct (dump_load_signed n obj) as (data & Hp & Hl & Hu);
            [lia | exact Hr |];
            exists data; rewrite Hp; repeat split; assumption
        end
      | rewrite pack_signed_raises by exact Hr; reflexivity ].
Qed.

(** The binary loaders of int2, int4 and int8 accept every buffer of the
    width of their type, and the dumper of that width gives the buffer back
    from the integer read: no two buffers are read as the same integer.  A
    buffer of another length raises [struct.error]; the loader of oid reads
    four bytes as an unsigned integer. *)
Theorem binary_int_load_dump data :
  (length data = 2%nat ->
     exists z, load_binary_int2 data = Ok z /\
       dump_binary_int2 z = Ok (data, INT2_OID)) /\
  (length data <> 2%nat -> load_binary_int2 data = Raise struct.size_error) /\
  (length data = 4%nat ->
     exists z, load_binary_int4 data = Ok z /\
       dump_binary_int4 z = Ok (data, INT4_OID)) /\
  (length data <> 4%nat -> load_binary_int4 data = Raise struct.size_error) /\
  (length data = 8%nat ->
     exists z, load_binary_int8 data = Ok z /\
       dump_binary_int8 z = Ok (data, INT8_OID)) /\
  (length data <> 8%nat -> load_binary_int8 data = Raise struct.size_error) /\
  (length data = 4%nat ->
     exists z, load_binary_oid data = Ok z /\ 0 <= z < 2 ^ 32) /\
  (length data <> 4%nat -> load_binary_oid data = Raise struct.size_error).
Proof.
  unfold dump_binary_int2, dump_binary_int4, dump_binary_int8,
    load_binary_int2, load_binary_int4, load_binary_int8, load_binary_oid.
  repeat split; intros Hl;
    try (apply unpack_signed_size; exact Hl).
  - destruct (pack_unpack_signed 2 data) as (z & Hu & Hp); [lia | exact Hl |].
    exists z. rewrite Hu, Hp. split; reflexivity.
  - destruct (pack_unpack_signed 4 data) as (z & Hu & Hp); [lia | exact Hl |].
    exists z. rewrite Hu, Hp. split; reflexivity.
  - destruct (pack_unpack_signed 8 data) as (z & Hu & Hp); [lia | exact Hl |].
    exists z. rewrite Hu, Hp. split; reflexivity.
  - unfold struct.unpack_unsigned. rewrite bool_decide_eq_true_2 by exact Hl.
    eexists. split; [reflexivity|].
    pose proof (unpack_be_bound data) as Hb. rewrite Hl in Hb. exact Hb.
  - unfold struct.unpack_unsigned. rewrite bool_decide_eq_false_2 by exact Hl.
    reflexivity.
Qed.

(** The loaders of bool read exactly what the dumpers of bool write: [t]
    and [f] in the text format, the bytes 1 and 0 in the binary one.  Any
    other data is a key the lookup tables do not have, and raises
    [KeyError]. *)
Theorem bool_loaders_domain data :
  (forall b, load_bool data = Ok b <-> dump_bool b = Ok (data, BOOL_OID)) /\
  (forall b, load_binary_bool data = Ok b <->
             dump_binary_bool b = Ok (data, BOOL_OID)) /\
  (data <> B "t" -> data <> B "f" -> load_bool data = Raise key_error) /\
  (data <> [x01%byte] -> data <> [x00%byte] ->
   load_binary_bool data = Raise key_error).
Proof.
  unfold load_bool, load_binary_bool, _bool_loads, _bool_binary_loads,
    dump_bool, dump_binary_bool, _bool_dump, _bool_binary_dump.
  repeat split.
  - repeat case_bool_decide; subst; destruct b; intros [=]; reflexivity.
  - destruct b; intros [= <-]; reflexivity.
  - repeat case_bool_decide; subst; destruct b; intros [=]; reflexivity.
  - destruct b; intros [= <-]; reflexivity.
  - intros Ht Hf. rewrite !bool_decide_eq_false_2 by assumption. reflexivity.
  - intros Ht Hf. rewrite !bool_decide_eq_false_2 by assumption. reflexivity.
Qed.

(** *** The text loaders *)

Lemma int_digits_digits ds :
  ds <> [] -> int_digits (digit_byte <$> ds) false = Some ds.
Proof.
  assert (H : forall ds b, (ds <> [] \/ b = true) ->
            int_digits (digit_byte <$> ds) b = Some ds).
  { clear ds. induction ds as [|d ds IH]; intros b Hb.
    - destruct Hb as [Hb | ->]; [congruence | reflexivity].
    - cbn [fmap list_fmap int_digits]. rewrite pyfacts.byte_digit_digit.
      change (list_fmap _ _ digit_byte ds) with (digit_byte <$> ds).
      rewrite IH by (right; reflexivity). reflexivity. }
  intros Hne. apply H. left. exact Hne.
Qed.

Lemma span_int_digits ds : span_int (digit_byte <$> ds) = (digit_byte <$> ds, []).
Proof.
  induction ds as [|d ds IH]; [reflexivity|].
  cbn [fmap list_fmap span_int]. rewrite pyfacts.byte_digit_digit.
  rewrite (bool_decide_eq_true_2 (is_Some (Some d))) by eauto. cbn [orb].
  change (list_fmap _ _ digit_byte ds) with (digit_byte <$> ds).
  rewrite IH. reflexivity.
Qed.

(** [int] of a sign and digits, no more of them than the limit. *)
Lemma int_of_str_digits (neg : bool) ds :
  ds <> [] -> (length ds <= int_max_str_digits)%nat ->
  int_of_str ((if neg then B "-" else []) ++ (digit_byte <$> ds))
    = Ok (if neg then - Z.of_N (digits_value ds) else Z.of_N (digits_value ds)).
Proof.
  intros Hne Hlen. unfold int_of_str.
  rewrite floatfacts.strip_c_space_plain
    by (destruct neg; pyfacts.solve_plain).
  assert (Hsign : match (if neg then B "-" else []) ++ (digit_byte <$> ds) with
                  | "-"%byte :: r => (true, r)
                  | "+"%byte :: r => (false, r)
                  | _ => (false, (if neg then B "-" else []) ++ (digit_byte <$> ds))
                  end = (neg, digit_byte <$> ds)).
  { destruct neg; [reflexivity|]. cbn [app].
    destruct ds as [|d ds]; [congruence|]. destruct d; reflexivity. }
  rewrite Hsign, span_int_digits, int_digits_digits by exact Hne.
  rewrite bool_decide_eq_true_2 by exact Hlen. reflexivity.
Qed.

Lemma int_text_digits z :
  int_text z = (if bool_decide (z < 0) then B "-" else [])
               ++ (digit_byte <$> to_list (N.to_uint (Z.abs_N z))).
Proof. unfold int_text, str_N. case_bool_decide; reflexivity. Qed.

(** An int has no more than 4300 digits when it is below [10^4300] in
    absolute value. *)
Lemma int_digits_limit z :
  (length (str_N (Z.abs_N z)) <= int_max_str_digits)%nat <-> Z.abs z < 10 ^ 4300.
Proof.
  rewrite (floatfacts.str_N_length _ int_max_str_digits) by (unfold int_max_str_digits; lia).
  rewrite <- (N2Z.inj_abs_N z). change 10 with (Z.of_N 10).
  change 4300 with (Z.of_N (N.of_nat int_max_str_digits)).
  rewrite <- N2Z.inj_pow. split; intros H; [apply N2Z.inj_lt, H | apply N2Z.inj_lt in H; exact H].
Qed.

(** [load_int] reads back the text that [dump_int] writes, for an int of
    no more than 4300 decimal digits, [int(str(obj)) == obj]; for an int
    with more digits [str] raises [ValueError] in the runtime, and so does
    [dump_int]. *)
Theorem load_int_dump_int obj :
  (Z.abs obj < 10 ^ 4300 ->
   exists data, dump_int obj = Ok (data, NUMERIC_OID) /\ load_int data = Ok obj) /\
  (10 ^ 4300 <= Z.abs obj -> dump_int obj = Raise int_limit_error).
Proof.
  unfold dump_int, str_int. split; intros Hobj.
  - pose proof (proj2 (int_digits_limit obj) Hobj) as Hlen.
    rewrite bool_decide_eq_true_2 by exact Hlen.
    exists (int_text obj). split; [reflexivity|].
    unfold load_int. rewrite int_text_digits.
    rewrite pyfacts.ascii_decode_plain by (case_bool_decide; pyfacts.solve_plain).
    cbn [mbind result_bind].
    rewrite int_of_str_digits;
      [| apply pyfacts.to_uint_nonnil
       | unfold str_N in Hlen; rewrite length_fmap in Hlen; exact Hlen].
    rewrite pyfacts.digits_value_str. f_equal. case_bool_decide; lia.
  - rewrite bool_decide_eq_false_2; [reflexivity|].
    rewrite int_digits_limit. lia.
Qed.

(** The text loaders of integers and of numeric decode the data as ASCII
    first: data with a byte above 127 raises [UnicodeDecodeError], whatever
    the other bytes are, and empty data decodes to the empty string, which
    [int] refuses with [ValueError] and [Decimal] with
    [InvalidOperation]. *)
Theorem text_loaders_reject :
  (forall data b, b ∈ data -> 128 <= byte.unsigned b ->
     exists msg,
       load_int data = Raise (mkExc UnicodeError msg) /\
       load_numeric data = Raise (mkExc UnicodeError msg)) /\
  (exists msg, load_int [] = Raise (mkExc ValueError msg)) /\
  (exists msg, load_numeric [] = Raise (mkExc InvalidOperation msg)).
Proof.
  split; [|split; eexists; reflexivity].
  intros data b Hin Hb. eexists.
  assert (Hdec : ascii_decode data
                 = Raise (mkExc UnicodeError "'ascii' codec can't decode byte")).
  { unfold ascii_decode. rewrite bool_decide_eq_false_2; [reflexivity|].
    intros Hall. rewrite Forall_forall in Hall. specialize (Hall b Hin). lia. }
  unfold load_int, load_numeric. rewrite Hdec. split; reflexivity.
Qed.

(** A float dumped in the binary format is read back by the binary loader
    of float8 as the same bit pattern: the sign of a zero and the payload
    of a NaN are kept.  The loader raises [struct.error] on data that is
    not eight bytes long. *)
Theorem binary_float_same_bits :
  (forall x, 0 <= x < 2 ^ 64 ->
     exists data,
       dump_binary_float x = Ok (data, FLOAT8_OID) /\ length data = 8%nat /\
       load_binary_float8 data = Ok x) /\
  (forall data, length data <> 8%nat ->
     load_binary_float8 data = Raise struct.size_error) /\
  (forall data, length data = 8%nat ->
     exists x, load_binary_float8 data = Ok x /\ 0 <= x < 2 ^ 64 /\
       dump_binary_float x = Ok (data, FLOAT8_OID)).
Proof.
  unfold dump_binary_float, load_binary_float8. repeat split.
  - intros x Hx. exists (struct.pack_be 8 x).
    assert (Hp : struct.pack_unsigned 8 x = Ok (struct.pack_be 8 x)).
    { unfold struct.pack_unsigned. rewrite bool_decide_eq_true_2; [reflexivity|].
      change (8 * Z.of_nat 8) with 64. lia. }
    rewrite Hp. split; [reflexivity|]. split; [apply struct.length_pack_be|].
    apply (struct.unpack_pack_unsigned 8 x _ Hp).
  - intros data Hl. unfold struct.unpack_unsigned.
    rewrite bool_decide_eq_false_2 by exact Hl. reflexivity.
  - intros data Hl. unfold struct.unpack_unsigned.
    rewrite bool_decide_eq_true_2 by exact Hl.
    pose proof (unpack_be_bound data) as Hb. rewrite Hl in Hb.
    change (8 * Z.of_nat 8) with 64 in Hb.
    eexists. split; [reflexivity|]. split; [exact Hb|].
    unfold struct.pack_unsigned. rewrite bool_decide_eq_true_2
      by (change (8 * Z.of_nat 8) with 64; lia).
    cbn [mbind result_bind]. rewrite <- Hl at 1. rewrite pack_unpack_be.
    reflexivity.
Qed.

Lemma registry_closed_witness :
  dumpers no_float_str !! (t_int, BINARY) = None /\
  is_Some (loaders no_float_of_bytes !! (NUMERIC_OID, TEXT)).
Proof.
  destruct (registry_closed no_float_str no_float_of_bytes) as [Hdom Hclosed].
  split.
  - destruct (dumpers no_float_str !! (t_int, BINARY)) eqn:Hd; [|reflexivity].
    exfalso. destruct (proj1 (Hdom t_int BINARY)) as [Hne _];
      [rewrite Hd; eauto | apply Hne; reflexivity].
  - apply (Hclosed (VInt 5) TEXT (on_int dump_int) (B "5") NUMERIC_OID);
      reflexivity.
Defined.

End numeric.

(** ** types/composite.py *)

Module composite.

(** [MaybeOid] of [proto.py]: the dumped bytes, or [None], alone or in a
    pair with an oid. *)
Inductive MaybeOid :=
| Bare (ad : option bytes)
| WithOid (ad : option bytes) (oid : Z).

(** *** The regular expressions of the text layout *)

Definition QUOTE : byte := x22%byte.
Definition BACKSLASH : byte := x5c%byte.
Definition COMMA : byte := ","%byte.
Definition LPAREN : byte := "("%byte.
Definition RPAREN : byte := ")"%byte.

(** [\s] of a bytes pattern: space, tab, newline, return, form feed,
    vertical tab. *)
Definition is_re_space (b : byte) : bool :=
  let c := byte.unsigned b in bool_decide (9 <= c <= 13) || bool_decide (c = 32).

(** The class of [_re_needs_quotes]: a double quote, a comma, a backslash
    or [\s]. *)
Definition is_escape_char (b : byte) : bool :=
  bool_decide (b = QUOTE) || bool_decide (b = COMMA) ||
  bool_decide (b = BACKSLASH) || is_re_space b.

(** [_re_needs_quotes.search(ad) is not None]: the empty string, or a
    character to escape somewhere. *)
Definition _re_needs_quotes (ad : bytes) : bool :=
  bool_decide (ad = []) || existsb is_escape_char ad.

(** [_re_escape.sub] with the group twice: every double quote is doubled. *)
Fixpoint _re_escape (ad : bytes) : bytes :=
  match ad with
  | [] => []
  | b :: rest =>
    if bool_decide (b = QUOTE) then QUOTE :: QUOTE :: _re_escape rest
    else b :: _re_escape rest
  end.

(** [_re_undouble.sub] with the group once: from the left, a double quote
    or a backslash followed by itself is replaced by one. *)
Fixpoint _re_undouble (s : bytes) : bytes :=
  match s with
  | [] => []
  | a :: rest =>
    match rest with
    | b :: rest' =>
      if (bool_decide (a = QUOTE) || bool_decide (a = BACKSLASH)) && bool_decide (a = b)
      then a :: _re_undouble rest'
      else a :: _re_undouble rest
    | [] => [a]
    end
  end.

(** The class of a comma and a closing parenthesis, which ends a token. *)
Definition is_sep (b : byte) : bool :=
  bool_decide (b = COMMA) || bool_decide (b = RPAREN).

(** The starred group of the quoted alternative (a character other than a
    double quote, or two double quotes), greedy: the body and what follows
    it.  Giving back an iteration never lets the closing quote and the
    separator match, so the greedy body is the only one the expression can
    match with. *)
Fixpoint quoted_body (s : bytes) : bytes * bytes :=
  match s with
  | [] => ([], [])
  | a :: rest =>
    if bool_decide (a = QUOTE) then
      match rest with
      | b :: rest' =>
        if bool_decide (b = QUOTE) then
          let '(body, r) := quoted_body rest' in (QUOTE :: QUOTE :: body, r)
        else ([], s)
      | [] => ([], s)
      end
    else let '(body, r) := quoted_body rest in (a :: body, r)
  end.

(** The run of the unquoted alternative (characters other than a double
    quote, a comma and a closing parenthesis), greedy. *)
Fixpoint unquoted_run (s : bytes) : bytes * bytes :=
  match s with
  | [] => ([], [])
  | a :: rest =>
    if bool_decide (a = QUOTE) || is_sep a then ([], s)
    else let '(run, r) := unquoted_run rest in (a :: run, r)
  end.

(** What a match of [_re_tokenize] yields: [None] for group 1, the
    undoubled group 2, or group 3. *)
Definition Token := option bytes.

(** [\(?] takes the parenthesis when there is one, and gives it back when
    the rest of the alternative does not match. *)
Definition optional_paren {A} (s : bytes) (k : bytes -> option A) : option A :=
  match s with
  | b :: rest =>
    if bool_decide (b = LPAREN) then
      match k rest with
      | Some r => Some r
      | None => k s
      end
    else k s
  | [] => k s
  end.

(** The three alternatives, matched at the start of [s]: the token and the
    text after the match. *)
Definition alt_empty (s : bytes) : option (Token * bytes) :=
  optional_paren s (fun s =>
    match s with
    | c :: rest => if is_sep c then Some (None, rest) else None
    | [] => None
    end).

Definition alt_quoted (s : bytes) : option (Token * bytes) :=
  optional_paren s (fun s =>
    match s with
    | q :: rest =>
      if bool_decide (q = QUOTE) then
        match quoted_body rest with
        | (body, q' :: c :: rest') =>
          if bool_decide (q' = QUOTE) && is_sep c
          then Some (Some (_re_undouble body), rest') else None
        | _ => None
        end
      else None
    | [] => None
    end).

Definition alt_unquoted (s : bytes) : option (Token * bytes) :=
  optional_paren s (fun s =>
    match unquoted_run s with
    | (a :: run, c :: rest) =>
      if is_sep c then Some (Some (a :: run), rest) else None
    | _ => None
    end).

Definition match_token (s : bytes) : option (Token * bytes) :=
  match alt_empty s with
  | Some m => Some m
  | None =>
    match alt_quoted s with
    | Some m => Some m
    | None => alt_unquoted s
    end
  end.

(** [_re_tokenize.finditer(data)]: at each position the alternatives are
    tried in order; a position where none matches is skipped, and the scan
    goes on after a match.  [skip] counts the characters of the current
    match still to pass. *)
Fixpoint _re_tokenize (s : bytes) (skip : nat) : list Token :=
  match s with
  | [] => []
  | _ :: rest =>
    match skip with
    | S n => _re_tokenize rest n
    | O =>
      match match_token s with
      | Some (tok, after) =>
        tok :: _re_tokenize rest (length s - length after - 1)
      | None => _re_tokenize rest 0
      end
    end
  end.

Definition _parse_record (data : bytes) : list Token :=
  if bool_decide (data = B "()") then [] else _re_tokenize data 0.

(** *** The binary layout *)

(** [_struct_len] is [Struct("!i")], [_struct_oidlen] is [Struct("!Ii")]. *)
Definition _struct_len_pack (n : Z) : result bytes := struct.pack_signed 4 n.

Definition _struct_oidlen_pack (oid len : Z) : result bytes :=
  a ← struct.pack_unsigned 4 oid;
  b ← struct.pack_signed 4 len;
  Ok (a ++ b).

(** [unpack_from(data, i)] reads at offset [i] and raises when fewer bytes
    than the size of the format are left. *)
Definition _struct_len_unpack_from (data : bytes) (i : Z) : result Z :=
  if bool_decide (0 <= i /\ i + 4 <= Z.of_nat (length data)) then
    struct.unpack_signed 4 (take 4 (drop (Z.to_nat i) data))
  else Raise struct.size_error.

Definition _struct_oidlen_unpack_from (data : bytes) (i : Z) : result (Z * Z) :=
  if bool_decide (0 <= i /\ i + 8 <= Z.of_nat (length data)) then
    oid ← struct.unpack_unsigned 4 (take 4 (drop (Z.to_nat i) data));
    len ← struct.unpack_signed 4 (take 4 (drop (Z.to_nat i + 4) data));
    Ok (oid, len)
  else Raise struct.size_error.

(** [_walk_record]: the (oid, offset, length) of each field; [n] counts
    the fields still to read and [i] is the offset of the next one. *)
Fixpoint walk_fields (data : bytes) (n : nat) (i : Z) : result (list (Z * Z * Z)) :=
  match n with
  | O => Ok []
  | S n' =>
    '(oid, len) ← _struct_oidlen_unpack_from data i;
    rest ← walk_fields data n' (if bool_decide (len > 0) then i + (8 + len) else i + 8);
    Ok ((oid, i + 8, len) :: rest)
  end.

Definition _walk_record (data : bytes) : result (list (Z * Z * Z)) :=
  nfields ← _struct_len_unpack_from data 0;
  walk_fields data (Z.to_nat nfields) 4.

(** [data[start : stop]]: a negative index counts from the end, and both
    are clipped to the data. *)
Definition py_slice (data : bytes) (start stop : Z) : bytes :=
  let n := Z.of_nat (length data) in
  let clip x := if bool_decide (x < 0) then Z.max (x + n) 0 else Z.min x n in
  take (Z.to_nat (clip stop - clip start)) (drop (Z.to_nat (clip start)) data).

Section Codecs.

(** The fields of a tuple are Python objects, [None] among them; the
    Transformer that dumps one and finds the load function of an oid is
    in [adapt.py]. *)
Variable PyObj : Type.
Variable tx_dump : option PyObj -> Format -> result MaybeOid.
Variable get_load_function : Z -> Format -> bytes -> result PyObj.

(** Modelled from the spec: [Transformer.set_row_types] and
    [Transformer.load_sequence] are not among the sources.
    [set_row_types] memoizes the load function of each column, and
    [load_sequence] decodes a record with the memoized functions, column by
    column, a NULL staying [None]. *)
Definition set_row_types (types : list (Z * Format)) : list (bytes -> result PyObj) :=
  (fun '(oid, fmt) => get_load_function oid fmt) <$> types.

Fixpoint load_sequence (row_loaders : list (bytes -> result PyObj))
    (record : list (option bytes)) : result (list (option PyObj)) :=
  match record with
  | [] => Ok []
  | val :: record' =>
    match val, row_loaders with
    | None, _ =>
      rest ← load_sequence (tail row_loaders) record'; Ok (None :: rest)
    | Some data, loader :: _ =>
      v ← loader data;
      rest ← load_sequence (tail row_loaders) record'; Ok (Some v :: rest)
    | Some _, [] => Raise (mkExc IndexError "list index out of range")
    end
  end.

(** [BinaryTupleDumper.dump], for the subclass whose [oid] is [self_oid]. *)
Definition binary_dump_item (item : option PyObj) : result bytes :=
  ad ← tx_dump item BINARY;
  let '(ad, oid) :=
    match ad with
    | WithOid ad oid => (ad, oid)
    | Bare ad => (ad, TEXT_OID)
    end in
  match ad with
  | None => _struct_oidlen_pack oid (-1)
  | Some ad =>
    head ← _struct_oidlen_pack oid (Z.of_nat (length ad)); Ok (head ++ ad)
  end.

Fixpoint binary_dump_items (obj : list (option PyObj)) : result bytes :=
  match obj with
  | [] => Ok []
  | item :: rest =>
    d ← binary_dump_item item;
    ds ← binary_dump_items rest;
    Ok (d ++ ds)
  end.

Definition BinaryTupleDumper_dump (self_oid : Z) (obj : list (option PyObj))
  : result (bytes * Z) :=
  head ← _struct_len_pack (Z.of_nat (length obj));
  body ← binary_dump_items obj;
  Ok (head ++ body, self_oid).

(** [TextTupleDumper.dump]: what the loop appends to [parts] for an item. *)
Definition text_dump_item (item : option PyObj) : result (list bytes) :=
  match item with
  | None => Ok [B ","]
  | Some _ =>
    ad ← tx_dump item TEXT;
    let ad := match ad with WithOid ad _ => ad | Bare ad => ad end in
    match ad with
    | None => Ok [B ","]
    | Some ad =>
      let ad :=
        if _re_needs_quotes ad then [QUOTE] ++ _re_escape ad ++ [QUOTE] else ad in
      Ok [ad; B ","]
    end
  end.

Fixpoint text_dump_items (obj : list (option PyObj)) : result (list bytes) :=
  match obj with
  | [] => Ok []
  | item :: rest =>
    ps ← text_dump_item item;
    pss ← text_dump_items rest;
    Ok (ps ++ pss)
  end.

(** [parts[-1] = x] on a list that is not empty. *)
Definition set_last {A} (parts : list A) (x : A) : list A := removelast parts ++ [x].

Definition TextTupleDumper_dump (self_oid : Z) (obj : list (option PyObj))
  : result (bytes * Z) :=
  match obj with
  | [] => Ok (B "()", self_oid)
  | _ =>
    parts ← text_dump_items obj;
    let parts := set_last (B "(" :: parts) (B ")") in
    Ok (concat parts, self_oid)
  end.

(** [RecordLoader.load] *)
Fixpoint cast_tokens (cast : bytes -> result PyObj) (tokens : list Token)
  : result (list (option PyObj)) :=
  match tokens with
  | [] => Ok []
  | None :: rest => r ← cast_tokens cast rest; Ok (None :: r)
  | Some token :: rest =>
    v ← cast token; r ← cast_tokens cast rest; Ok (Some v :: r)
  end.

Definition RecordLoader_load (data : bytes) : result (list (option PyObj)) :=
  let cast := get_load_function TEXT_OID TEXT in
  cast_tokens cast (_parse_record data).

(** [BinaryRecordLoader.load] on a loader whose types are not set yet:
    [_config_types] walks the record for the oids, then the fields are cut
    out of [data] and loaded. *)
Definition BinaryRecordLoader_load (data : bytes) : result (list (option PyObj)) :=
  types ← _walk_record data;
  let row_loaders := set_row_types ((fun '(oid, _, _) => (oid, BINARY)) <$> types) in
  fields ← _walk_record data;
  load_sequence row_loaders
    ((fun '(_, offset, len) =>
        if bool_decide (len <> -1) then Some (py_slice data offset (offset + len))
        else None)
       <$> fields).

(** *** The text layout read back *)

(** The text of a field, or [None] for NULL, as it stands between the
    delimiters. *)
Definition enc_field (ad : option bytes) : bytes :=
  match ad with
  | None => []
  | Some ad => if _re_needs_quotes ad then [QUOTE] ++ _re_escape ad ++ [QUOTE] else ad
  end.

(** The fields after the opening parenthesis, for a tuple that is not
    empty. *)
Fixpoint enc_body (ads : list (option bytes)) : bytes :=
  match ads with
  | [] => []
  | [ad] => enc_field ad ++ [RPAREN]
  | ad :: rest => enc_field ad ++ COMMA :: enc_body rest
  end.

Fixpoint no_double_backslash (ad : bytes) : bool :=
  match ad with
  | [] => true
  | a :: rest =>
    match rest with
    | b :: _ =>
      negb (bool_decide (a = BACKSLASH) && bool_decide (b = BACKSLASH))
      && no_double_backslash rest
    | [] => true
    end
  end.

Definition no_paren (ad : bytes) : bool :=
  forallb (fun b => negb (bool_decide (b = LPAREN) || bool_decide (b = RPAREN))) ad.

(** A field text that the two layouts of the code agree on: a quoted one
    has no backslash followed by a backslash, an unquoted one has no
    parenthesis. *)
Definition text_safe (ad : bytes) : bool :=
  if _re_needs_quotes ad then no_double_backslash ad else no_paren ad.

Lemma is_sep_spec c : is_sep c = true <-> c = COMMA \/ c = RPAREN.
Proof.
  unfold is_sep. rewrite orb_true_iff, !bool_decide_eq_true. reflexivity.
Qed.

Lemma head_escape ad b :
  head (_re_escape ad) = Some b -> head ad = Some b.
Proof.
  destruct ad as [|a rest]; simpl; [discriminate|].
  case_bool_decide as Ha; simpl; congruence.
Qed.

Lemma undouble_escape ad :
  no_double_backslash ad = true -> _re_undouble (_re_escape ad) = ad.
Proof.
  induction ad as [|a rest IH]; [reflexivity|].
  intros Hnd.
  assert (Hrest : no_double_backslash rest = true).
  { simpl in Hnd. destruct rest; [reflexivity|].
    apply andb_true_iff in Hnd. apply Hnd. }
  specialize (IH Hrest).
  cbn [_re_escape]. case_bool_decide as Ha.
  - subst a. cbn [_re_undouble].
    rewrite bool_decide_eq_true_2 by reflexivity. simpl. f_equal. exact IH.
  - cbn [_re_undouble].
    destruct (_re_escape rest) as [|b rest'] eqn:Hesc.
    + destruct rest as [|r rest0]; [reflexivity|].
      simpl in Hesc. case_bool_decide; discriminate.
    + assert (Hb : head rest = Some b) by (apply head_escape; rewrite Hesc; reflexivity).
      destruct rest as [|r rest0]; [discriminate|]. simpl in Hb.
      injection Hb as ->.
      rewrite (bool_decide_eq_false_2 (a = QUOTE)) by exact Ha. cbn [orb].
      destruct (bool_decide (a = BACKSLASH) && bool_decide (a = b)) eqn:Hab.
      * apply andb_true_iff in Hab as [Ha1 Ha2].
        apply bool_decide_eq_true in Ha1, Ha2. subst a b.
        simpl in Hnd. discriminate.
      * f_equal. exact IH.
Qed.

Lemma quoted_body_escape ad c rest :
  c <> QUOTE ->
  quoted_body (_re_escape ad ++ QUOTE :: c :: rest) = (_re_escape ad, QUOTE :: c :: rest).
Proof.
  intros Hc. induction ad as [|a ad IH].
  - cbn [_re_escape app quoted_body].
    rewrite bool_decide_eq_true_2 by reflexivity.
    rewrite bool_decide_eq_false_2 by exact Hc. reflexivity.
  - cbn [_re_escape]. case_bool_decide as Ha.
    + cbn [app quoted_body].
      rewrite !bool_decide_eq_true_2 by reflexivity. rewrite IH. reflexivity.
    + cbn [app quoted_body].
      rewrite bool_decide_eq_false_2 by exact Ha. rewrite IH. reflexivity.
Qed.

Lemma unquoted_run_app ad c rest :
  Forall (fun b => b <> QUOTE /\ is_sep b = false) ad ->
  is_sep c = true ->
  unquoted_run (ad ++ c :: rest) = (ad, c :: rest).
Proof.
  intros Had Hc. induction Had as [|a ad [Ha1 Ha2] _ IH].
  - simpl. rewrite Hc, orb_true_r. reflexivity.
  - cbn [app unquoted_run].
    rewrite bool_decide_eq_false_2 by exact Ha1. rewrite Ha2. cbn [orb].
    rewrite IH. reflexivity.
Qed.

Lemma finditer_skip pre rest :
  _re_tokenize (pre ++ rest) (length pre) = _re_tokenize rest 0.
Proof.
  induction pre as [|x pre IH]; [reflexivity|].
  cbn [app length _re_tokenize]. exact IH.
Qed.

Lemma finditer_match consumed after tok :
  consumed <> [] ->
  match_token (consumed ++ after) = Some (tok, after) ->
  _re_tokenize (consumed ++ after) 0 = tok :: _re_tokenize after 0.
Proof.
  intros Hne Hm. destruct consumed as [|x pre]; [congruence|].
  cbn [app _re_tokenize]. cbn [app] in Hm. rewrite Hm. f_equal.
  replace (length (x :: pre ++ after) - length after - 1)%nat with (length pre)
    by (cbn [length]; rewrite length_app; lia).
  apply finditer_skip.
Qed.

Definition field_safe (ad : option bytes) : bool :=
  match ad with
  | None => true
  | Some ad => text_safe ad
  end.

Lemma optional_paren_no {A} (k : bytes -> option A) b rest :
  b <> LPAREN -> optional_paren (b :: rest) k = k (b :: rest).
Proof.
  intros Hb. unfold optional_paren.
  rewrite bool_decide_eq_false_2 by exact Hb. reflexivity.
Qed.

Lemma optional_paren_yes {A} (k : bytes -> option A) rest :
  optional_paren (LPAREN :: rest) k =
    match k rest with Some r => Some r | None => k (LPAREN :: rest) end.
Proof. reflexivity. Qed.

Lemma unquoted_chars ad :
  _re_needs_quotes ad = false -> no_paren ad = true ->
  ad <> [] /\
  Forall (fun b => b <> QUOTE /\ b <> LPAREN /\ is_sep b = false) ad.
Proof.
  unfold _re_needs_quotes, no_paren. intros Hq Hp.
  apply orb_false_iff in Hq as [Hne Hesc].
  apply bool_decide_eq_false in Hne. split; [exact Hne|].
  clear Hne. induction ad as [|b ad IH]; [constructor|].
  cbn [existsb forallb] in Hesc, Hp.
  apply orb_false_iff in Hesc as [Hb Hesc].
  apply andb_true_iff in Hp as [Hbp Hp].
  constructor; [|apply IH; assumption].
  unfold is_escape_char in Hb.
  apply orb_false_iff in Hb as [Hb _].
  apply orb_false_iff in Hb as [Hb _].
  apply orb_false_iff in Hb as [Hb1 Hb2].
  apply negb_true_iff, orb_false_iff in Hbp as [Hb3 Hb4].
  apply bool_decide_eq_false in Hb1, Hb2, Hb3, Hb4.
  repeat split; try assumption.
  unfold is_sep. rewrite !bool_decide_eq_false_2 by assumption. reflexivity.
Qed.

(** A field of the dumper, followed by a delimiter, is one match of
    [_re_tokenize], with or without the opening parenthesis before it, and
    the match yields the text of the field. *)
Lemma match_token_field (paren : bool) ad c rest :
  field_safe ad = true -> is_sep c = true ->
  match_token ((if paren then [LPAREN] else []) ++ enc_field ad ++ c :: rest)
    = Some (ad, rest).
Proof.
  intros Hsafe Hc.
  assert (HcP : c <> LPAREN).
  { apply is_sep_spec in Hc as [-> | ->]; discriminate. }
  assert (HcQ : c <> QUOTE).
  { apply is_sep_spec in Hc as [-> | ->]; discriminate. }
  unfold match_token. destruct ad as [ad|]; cbn [enc_field field_safe] in *.
  - unfold text_safe in Hsafe. destruct (_re_needs_quotes ad) eqn:Hq.
    + (* quoted *)
      assert (Hk : forall s, s = QUOTE :: _re_escape ad ++ QUOTE :: c :: rest ->
                alt_quoted s = Some (Some ad, rest) /\ alt_empty s = None).
      { intros s ->. unfold alt_quoted, alt_empty.
        rewrite !optional_paren_no by discriminate.
        rewrite bool_decide_eq_true_2 by reflexivity.
        rewrite quoted_body_escape by exact HcQ.
        rewrite bool_decide_eq_true_2 by reflexivity. rewrite Hc. cbn [andb].
        rewrite undouble_escape by exact Hsafe. split; reflexivity. }
      destruct paren; cbn [app]; rewrite <- app_assoc; cbn [app].
      * unfold alt_empty at 1. rewrite optional_paren_yes.
        destruct (Hk _ eq_refl) as [Hq1 Hq2].
        unfold alt_empty in Hq2. rewrite optional_paren_no in Hq2 by discriminate.
        rewrite Hq2. cbn [is_sep]. 
        replace (is_sep LPAREN) with false by reflexivity.
        unfold alt_quoted at 1. rewrite optional_paren_yes.
        unfold alt_quoted in Hq1. rewrite optional_paren_no in Hq1 by discriminate.
        rewrite Hq1. reflexivity.
      * destruct (Hk _ eq_refl) as [-> ->]. reflexivity.
    + (* unquoted *)
      destruct (unquoted_chars ad Hq Hsafe) as [Hne Hall].
      destruct ad as [|a ad]; [congruence|].
      assert (Ha : a <> QUOTE /\ a <> LPAREN /\ is_sep a = false)
        by (inversion Hall; assumption).
      destruct Ha as (HaQ & HaP & HaS).
      assert (Hrun : unquoted_run ((a :: ad) ++ c :: rest) = (a :: ad, c :: rest)).
      { apply unquoted_run_app; [|exact Hc].
        eapply Forall_impl; [exact Hall|]. intros b (? & ? & ?). split; assumption. }
      assert (Hk : alt_empty ((a :: ad) ++ c :: rest) = None /\
                   alt_quoted ((a :: ad) ++ c :: rest) = None /\
                   alt_unquoted ((a :: ad) ++ c :: rest) = Some (Some (a :: ad), rest)).
      { unfold alt_empty, alt_quoted, alt_unquoted. cbn [app].
        rewrite !optional_paren_no by exact HaP.
        rewrite HaS. rewrite bool_decide_eq_false_2 by exact HaQ.
        cbn [app] in Hrun. rewrite Hrun, Hc. repeat split; reflexivity. }
      destruct Hk as (Hk1 & Hk2 & Hk3).
      destruct paren; cbn [app] in *.
      * unfold alt_empty at 1. rewrite optional_paren_yes.
        unfold alt_empty in Hk1. rewrite optional_paren_no in Hk1 by exact HaP.
        rewrite Hk1. replace (is_sep LPAREN) with false by reflexivity.
        unfold alt_quoted at 1. rewrite optional_paren_yes.
        unfold alt_quoted in Hk2. rewrite optional_paren_no in Hk2 by exact HaP.
        rewrite Hk2. rewrite bool_decide_eq_false_2 by discriminate.
        unfold alt_unquoted at 1. rewrite optional_paren_yes.
        unfold alt_unquoted in Hk3. rewrite optional_paren_no in Hk3 by exact HaP.
        rewrite Hk3. reflexivity.
      * rewrite Hk1, Hk2, Hk3. reflexivity.
  - (* NULL *)
    destruct paren; cbn [app]; unfold alt_empty.
    + rewrite optional_paren_yes. rewrite Hc. reflexivity.
    + rewrite optional_paren_no by exact HcP. rewrite Hc. reflexivity.
Qed.

Lemma finditer_field (paren : bool) ad c rest :
  field_safe ad = true -> is_sep c = true ->
  _re_tokenize ((if paren then [LPAREN] else []) ++ enc_field ad ++ c :: rest) 0
    = ad :: _re_tokenize rest 0.
Proof.
  intros Hsafe Hc.
  pose proof (match_token_field paren ad c rest Hsafe Hc) as Hm.
  replace ((if paren then [LPAREN] else []) ++ enc_field ad ++ c :: rest)
    with (((if paren then [LPAREN] else []) ++ enc_field ad ++ [c]) ++ rest) in *
    by (rewrite <- !app_assoc; reflexivity).
  apply finditer_match; [|exact Hm].
  destruct paren; [discriminate|]. cbn [app].
  destruct (enc_field ad); discriminate.
Qed.

Lemma finditer_body (paren : bool) ads :
  ads <> [] -> forallb field_safe ads = true ->
  _re_tokenize ((if paren then [LPAREN] else []) ++ enc_body ads) 0 = ads.
Proof.
  revert paren. induction ads as [|ad ads IH]; [congruence|].
  intros paren _ Hsafe. cbn [forallb] in Hsafe.
  apply andb_true_iff in Hsafe as [Had Hads].
  destruct ads as [|ad' ads'].
  - cbn [enc_body]. rewrite finditer_field by (assumption || reflexivity).
    reflexivity.
  - change (enc_body (ad :: ad' :: ads'))
      with (enc_field ad ++ COMMA :: enc_body (ad' :: ads')).
    rewrite finditer_field by (assumption || reflexivity).
    f_equal. apply (IH false); [discriminate | exact Hads].
Qed.

(** What the loop of [TextTupleDumper.dump] appends for a field text. *)
Definition field_parts (ad : option bytes) : list bytes :=
  match ad with
  | None => [B ","]
  | Some _ => [enc_field ad; B ","]
  end.

Lemma set_last_snoc {A} (l : list A) x y : set_last (l ++ [x]) y = l ++ [y].
Proof. unfold set_last. rewrite removelast_last. reflexivity. Qed.

Lemma parts_split ads :
  ads <> [] ->
  exists pre,
    flat_map field_parts ads = pre ++ [B ","] /\
    concat pre ++ [RPAREN] = enc_body ads.
Proof.
  induction ads as [|ad ads IH]; [congruence|]. intros _.
  destruct ads as [|ad' ads'].
  - destruct ad as [ad|].
    + exists [enc_field (Some ad)]. split; [reflexivity|].
      cbn [concat enc_body]. rewrite app_nil_r. reflexivity.
    + exists []. split; reflexivity.
  - destruct IH as (pre & Hpre & Hbody); [discriminate|].
    exists (removelast (field_parts ad) ++ [B ","] ++ pre).
    change (flat_map field_parts (ad :: ad' :: ads'))
      with (field_parts ad ++ flat_map field_parts (ad' :: ads')).
    change (enc_body (ad :: ad' :: ads'))
      with (enc_field ad ++ COMMA :: enc_body (ad' :: ads')).
    rewrite Hpre, <- Hbody.
    destruct ad as [ad|]; cbn [field_parts removelast enc_field app concat];
      rewrite ?concat_app, <- ?app_assoc; split; reflexivity.
Qed.

Lemma dumped_text ads :
  ads <> [] ->
  concat (set_last (B "(" :: flat_map field_parts ads) (B ")"))
    = LPAREN :: enc_body ads.
Proof.
  intros Hne. destruct (parts_split ads Hne) as (pre & -> & <-).
  change (B "(" :: pre ++ [B ","]) with ((B "(" :: pre) ++ [B ","]).
  rewrite set_last_snoc. cbn [app concat]. rewrite concat_app.
  reflexivity.
Qed.

Lemma enc_body_single_null ads :
  ads <> [] -> forallb field_safe ads = true ->
  LPAREN :: enc_body ads = B "()" -> ads = [None].
Proof.
  intros Hne Hsafe Heq. injection Heq as Heq.
  destruct ads as [|ad ads]; [congruence|].
  assert (Henc : forall rest, enc_field ad ++ rest = [RPAREN] -> ad = None).
  { intros rest Hr. destruct ad as [ad|]; [|reflexivity]. exfalso.
    cbn [forallb field_safe] in Hsafe. apply andb_true_iff in Hsafe as [Hs _].
    unfold text_safe in Hs. cbn [enc_field] in Hr.
    destruct (_re_needs_quotes ad) eqn:Hq.
    - discriminate.
    - destruct (unquoted_chars ad Hq Hs) as [Had Hall].
      destruct ad as [|a ad]; [congruence|].
      inversion Hall as [|? ? (_ & _ & Hsep) _]; subst.
      injection Hr as -> _. discriminate. }
  destruct ads as [|ad' ads'].
  - cbn [enc_body] in Heq. rewrite (Henc _ Heq). reflexivity.
  - exfalso.
    change (enc_body (ad :: ad' :: ads'))
      with (enc_field ad ++ COMMA :: enc_body (ad' :: ads')) in Heq.
    pose proof (Henc _ Heq) as ->. discriminate.
Qed.

Definition maybe_bytes (m : MaybeOid) : option bytes :=
  match m with Bare ad => ad | WithOid ad _ => ad end.

Definition maybe_oid (m : MaybeOid) : Z :=
  match m with Bare _ => TEXT_OID | WithOid _ oid => oid end.

(** A field the text layout can carry: NULL, or an object that the
    Transformer dumps to a text the two layouts agree on, and that the
    loader of [text] gives back from that text. *)
Definition text_field_ok (item : option PyObj) : Prop :=
  match item with
  | None => True
  | Some x =>
    exists m ad,
      tx_dump (Some x) TEXT = Ok m /\ maybe_bytes m = Some ad /\
      text_safe ad = true /\ get_load_function TEXT_OID TEXT ad = Ok x
  end.

Lemma text_dump_items_spec obj :
  Forall text_field_ok obj ->
  exists ads,
    text_dump_items obj = Ok (flat_map field_parts ads) /\
    forallb field_safe ads = true /\
    cast_tokens (get_load_function TEXT_OID TEXT) ads = Ok obj /\
    (ads = [] -> obj = []) /\ (ads = [None] -> obj = [None]).
Proof.
  induction 1 as [|item obj Hitem _ IH].
  - exists []. repeat split; try reflexivity. discriminate.
  - destruct IH as (ads & Hd & Hs & Hc & Hnil & Hnull).
    destruct item as [x|].
    + destruct Hitem as (m & ad & Hm & Hb & Hsafe & Hload).
      exists (Some ad :: ads). cbn [text_dump_items text_dump_item].
      rewrite Hm. cbn [mbind result_bind].
      replace (match m with WithOid ad0 _ => ad0 | Bare ad0 => ad0 end)
        with (Some ad) by (destruct m; symmetry; exact Hb).
      cbn [mbind result_bind]. rewrite Hd. cbn [mbind result_bind].
      repeat split.
      * cbn [forallb field_safe]. rewrite Hsafe, Hs. reflexivity.
      * cbn [cast_tokens]. rewrite Hload. cbn [mbind result_bind].
        rewrite Hc. reflexivity.
      * discriminate.
      * discriminate.
    + exists (None :: ads). cbn [text_dump_items text_dump_item].
      cbn [mbind result_bind]. rewrite Hd. cbn [mbind result_bind].
      repeat split.
      * cbn [forallb field_safe]. exact Hs.
      * cbn [cast_tokens]. rewrite Hc. reflexivity.
      * discriminate.
      * intros [= Hads]. rewrite (Hnil Hads). reflexivity.
Qed.

(** The text layout, as the code has it: a tuple other than [(None,)]
    whose fields are NULL or are dumped to texts the two layouts agree on
    is read back by [RecordLoader] field by field. *)
Lemma text_roundtrip self_oid obj :
  obj <> [None] ->
  Forall text_field_ok obj ->
  exists data,
    TextTupleDumper_dump self_oid obj = Ok (data, self_oid) /\
    RecordLoader_load data = Ok obj.
Proof.
  intros Hnot Hok.
  destruct (text_dump_items_spec obj Hok) as (ads & Hd & Hs & Hc & Hnil & Hnull).
  destruct obj as [|item obj].
  - exists (B "()"). split; reflexivity.
  - assert (Hne : ads <> []) by (intros ->; specialize (Hnil eq_refl); discriminate).
    exists (LPAREN :: enc_body ads). split.
    + unfold TextTupleDumper_dump. rewrite Hd. cbn [mbind result_bind].
      rewrite dumped_text by exact Hne. reflexivity.
    + unfold RecordLoader_load, _parse_record.
      rewrite bool_decide_eq_false_2.
      * pose proof (finditer_body true ads Hne Hs) as Hf.
        cbn [app] in Hf. rewrite Hf. exact Hc.
      * intros Heq. apply Hnot, Hnull.
        apply enc_body_single_null; assumption.
Qed.

(** *** The binary layout read back *)

Lemma pack_unsigned_ok n z :
  0 <= z <= 2 ^ (8 * Z.of_nat n) - 1 ->
  struct.pack_unsigned n z = Ok (struct.pack_be n z).
Proof.
  intros H. unfold struct.pack_unsigned.
  rewrite bool_decide_eq_true_2 by exact H. reflexivity.
Qed.

Lemma pack_signed4_ok z :
  - 2 ^ 31 <= z < 2 ^ 31 -> struct.pack_signed 4 z = Ok (struct.pack_be 4 z).
Proof.
  intros H. unfold struct.pack_signed.
  rewrite bool_decide_eq_true_2; [reflexivity|].
  change (8 * Z.of_nat 4 - 1) with 31. lia.
Qed.

Lemma oidlen_pack_ok oid len :
  0 <= oid < 2 ^ 32 -> - 2 ^ 31 <= len < 2 ^ 31 ->
  _struct_oidlen_pack oid len = Ok (struct.pack_be 4 oid ++ struct.pack_be 4 len).
Proof.
  intros Ho Hl. unfold _struct_oidlen_pack.
  rewrite pack_unsigned_ok by (change (8 * Z.of_nat 4) with 32; lia).
  cbn [mbind result_bind]. rewrite pack_signed4_ok by exact Hl. reflexivity.
Qed.

Lemma unpack_signed4_pack z :
  - 2 ^ 31 <= z < 2 ^ 31 -> struct.unpack_signed 4 (struct.pack_be 4 z) = Ok z.
Proof.
  intros H. apply struct.unpack_pack_signed; [lia|]. apply pack_signed4_ok, H.
Qed.

Lemma unpack_unsigned4_pack z :
  0 <= z < 2 ^ 32 -> struct.unpack_unsigned 4 (struct.pack_be 4 z) = Ok z.
Proof.
  intros H. apply struct.unpack_pack_unsigned, pack_unsigned_ok.
  change (8 * Z.of_nat 4) with 32. lia.
Qed.

Lemma len_unpack_from n rest :
  - 2 ^ 31 <= n < 2 ^ 31 ->
  _struct_len_unpack_from (struct.pack_be 4 n ++ rest) 0 = Ok n.
Proof.
  intros Hn. unfold _struct_len_unpack_from.
  rewrite bool_decide_eq_true_2
    by (rewrite length_app, struct.length_pack_be; lia).
  change (Z.to_nat 0) with 0%nat. rewrite drop_0.
  rewrite take_app_length' by (rewrite struct.length_pack_be; reflexivity).
  apply unpack_signed4_pack, Hn.
Qed.

Lemma oidlen_unpack_from pre oid len rest :
  0 <= oid < 2 ^ 32 -> - 2 ^ 31 <= len < 2 ^ 31 ->
  _struct_oidlen_unpack_from
    (pre ++ (struct.pack_be 4 oid ++ struct.pack_be 4 len) ++ rest)
    (Z.of_nat (length pre)) = Ok (oid, len).
Proof.
  intros Ho Hl. unfold _struct_oidlen_unpack_from.
  rewrite bool_decide_eq_true_2
    by (rewrite !length_app, !struct.length_pack_be; lia).
  rewrite Nat2Z.id. rewrite drop_app_length, <- app_assoc.
  rewrite take_app_length' by (rewrite struct.length_pack_be; reflexivity).
  rewrite unpack_unsigned4_pack by exact Ho. cbn [mbind result_bind].
  replace (pre ++ struct.pack_be 4 oid ++ struct.pack_be 4 len ++ rest)
    with ((pre ++ struct.pack_be 4 oid) ++ struct.pack_be 4 len ++ rest)
    by (rewrite <- app_assoc; reflexivity).
  rewrite drop_app_length'
    by (rewrite length_app, struct.length_pack_be; reflexivity).
  rewrite take_app_length' by (rewrite struct.length_pack_be; reflexivity).
  rewrite unpack_signed4_pack by exact Hl. reflexivity.
Qed.

Lemma py_slice_middle pre ad rest :
  py_slice (pre ++ ad ++ rest) (Z.of_nat (length pre))
    (Z.of_nat (length pre) + Z.of_nat (length ad)) = ad.
Proof.
  unfold py_slice. rewrite !length_app.
  rewrite !bool_decide_eq_false_2 by lia.
  rewrite !Z.min_l by lia.
  rewrite Nat2Z.id, drop_app_length.
  apply take_app_length'. lia.
Qed.

(** A field the binary layout can carry: the Transformer dumps NULL to
    [None], and an object to bytes that the binary loader of the oid it
    returns gives the object back from; the oid and the length fit their
    slots. *)
Definition binary_field_ok (item : option PyObj) : Prop :=
  exists m,
    tx_dump item BINARY = Ok m /\ 0 <= maybe_oid m < 2 ^ 32 /\
    match item with
    | None => maybe_bytes m = None
    | Some x =>
      exists ad,
        maybe_bytes m = Some ad /\ Z.of_nat (length ad) < 2 ^ 31 /\
        get_load_function (maybe_oid m) BINARY ad = Ok x
    end.

Definition field_len (ad : option bytes) : Z :=
  match ad with None => -1 | Some ad => Z.of_nat (length ad) end.

Lemma binary_dump_item_spec item :
  binary_field_ok item ->
  exists oid ad,
    0 <= oid < 2 ^ 32 /\ - 2 ^ 31 <= field_len ad < 2 ^ 31 /\
    binary_dump_item item =
      Ok ((struct.pack_be 4 oid ++ struct.pack_be 4 (field_len ad)) ++ default [] ad) /\
    match item with
    | None => ad = None
    | Some x => exists a, ad = Some a /\ get_load_function oid BINARY a = Ok x
    end.
Proof.
  intros (m & Hm & Hoid & Hitem). unfold binary_dump_item. rewrite Hm.
  cbn [mbind result_bind].
  replace (match m with WithOid ad oid => (ad, oid) | Bare ad => (ad, TEXT_OID) end)
    with (maybe_bytes m, maybe_oid m) by (destruct m; reflexivity).
  destruct item as [x|].
  - destruct Hitem as (ad & Hb & Hlen & Hload). rewrite Hb.
    exists (maybe_oid m), (Some ad). cbn [field_len default].
    split; [exact Hoid|]. split; [lia|]. split; [|eauto].
    rewrite oidlen_pack_ok by (assumption || lia). reflexivity.
  - rewrite Hitem. exists (maybe_oid m), None. cbn [field_len default].
    split; [exact Hoid|]. split; [lia|]. split; [|reflexivity].
    rewrite oidlen_pack_ok by (assumption || lia).
    rewrite app_nil_r. reflexivity.
Qed.

Lemma binary_items_spec obj :
  Forall binary_field_ok obj ->
  exists body,
    binary_dump_items obj = Ok body /\
    forall pre,
    exists fields,
      walk_fields (pre ++ body) (length obj) (Z.of_nat (length pre)) = Ok fields /\
      load_sequence
        (set_row_types ((fun '(oid, _, _) => (oid, BINARY)) <$> fields))
        ((fun '(_, offset, len) =>
            if bool_decide (len <> -1)
            then Some (py_slice (pre ++ body) offset (offset + len))
            else None) <$> fields) = Ok obj.
Proof.
  induction 1 as [|item obj Hitem _ IH].
  - exists []. split; [reflexivity|]. intros pre. exists []. split; reflexivity.
  - destruct IH as (body & Hbody & IH).
    destruct (binary_dump_item_spec item Hitem)
      as (oid & ad & Hoid & Hlen & Hdump & Hload).
    eexists. split.
    { cbn [binary_dump_items]. rewrite Hdump. cbn [mbind result_bind].
      rewrite Hbody. reflexivity. }
    intros pre.
    set (hdr := struct.pack_be 4 oid ++ struct.pack_be 4 (field_len ad)) in *.
    assert (Hhdr : length hdr = 8%nat)
      by (unfold hdr; rewrite length_app, !struct.length_pack_be; reflexivity).
    destruct (IH (pre ++ hdr ++ default [] ad)) as (fields & Hwalk & Hseq).
    assert (Hdata : (pre ++ hdr ++ default [] ad) ++ body
                    = pre ++ (hdr ++ default [] ad) ++ body)
      by (rewrite <- !app_assoc; reflexivity).
    rewrite Hdata in Hwalk, Hseq.
    exists ((oid, Z.of_nat (length pre) + 8, field_len ad) :: fields). split.
    + assert (Hun : _struct_oidlen_unpack_from
                      (pre ++ (hdr ++ default [] ad) ++ body)
                      (Z.of_nat (length pre)) = Ok (oid, field_len ad)).
      { replace (pre ++ (hdr ++ default [] ad) ++ body)
          with (pre ++ hdr ++ (default [] ad ++ body))
          by (rewrite <- !app_assoc; reflexivity).
        unfold hdr. apply oidlen_unpack_from; assumption. }
      cbn [walk_fields length]. rewrite Hun.
      cbn [mbind result_bind].
      replace (if bool_decide (field_len ad > 0)
               then Z.of_nat (length pre) + (8 + field_len ad)
               else Z.of_nat (length pre) + 8)
        with (Z.of_nat (length (pre ++ hdr ++ default [] ad))).
      * rewrite Hwalk. reflexivity.
      * rewrite !length_app, Hhdr.
        destruct ad as [a|]; simpl; try case_bool_decide; lia.
    + cbn [fmap list_fmap set_row_types load_sequence].
      destruct item as [x|].
      * destruct Hload as (a & -> & Hload).
        change (default [] (Some a)) with a in *. cbn [field_len] in *.
        rewrite bool_decide_eq_true_2 by lia.
        replace (pre ++ (hdr ++ a) ++ body) with ((pre ++ hdr) ++ a ++ body)
          by (rewrite <- !app_assoc; reflexivity).
        replace (Z.of_nat (length pre) + 8) with (Z.of_nat (length (pre ++ hdr)))
          by (rewrite length_app, Hhdr; lia).
        rewrite py_slice_middle. cbn [tail].
        replace ((pre ++ hdr) ++ a ++ body) with (pre ++ (hdr ++ a) ++ body)
          by (rewrite <- !app_assoc; reflexivity).
        rewrite Hload. cbn [mbind result_bind].
        unfold set_row_types in Hseq. rewrite Hseq. reflexivity.
      * subst ad. cbn [field_len] in *.
        rewrite bool_decide_eq_false_2 by (intros Hn; apply Hn; reflexivity).
        cbn [tail]. unfold set_row_types in Hseq. rewrite Hseq. reflexivity.
Qed.

(** The binary layout: a tuple whose fields the Transformer dumps, NULL to
    [None], is read back by [BinaryRecordLoader] field by field, each by
    the binary loader of the oid its dumper returned. *)
Lemma binary_roundtrip self_oid obj :
  Z.of_nat (length obj) < 2 ^ 31 ->
  Forall binary_field_ok obj ->
  exists data,
    BinaryTupleDumper_dump self_oid obj = Ok (data, self_oid) /\
    BinaryRecordLoader_load data = Ok obj.
Proof.
  intros Hn Hok.
  destruct (binary_items_spec obj Hok) as (body & Hbody & Hwalk).
  exists (struct.pack_be 4 (Z.of_nat (length obj)) ++ body). split.
  - unfold BinaryTupleDumper_dump, _struct_len_pack.
    rewrite pack_signed4_ok by lia. cbn [mbind result_bind].
    rewrite Hbody. reflexivity.
  - destruct (Hwalk (struct.pack_be 4 (Z.of_nat (length obj))))
      as (fields & Hfields & Hseq).
    rewrite struct.length_pack_be in Hfields.
    unfold BinaryRecordLoader_load, _walk_record.
    rewrite len_unpack_from by lia. cbn [mbind result_bind].
    rewrite Nat2Z.id. change (Z.of_nat 4) with 4 in Hfields.
    rewrite Hfields. cbn [mbind result_bind]. exact Hseq.
Qed.

(** C2, as the code has it.  Binary layout: a tuple whose fields the
    Transformer dumps (NULL to [None], written with length -1), each with an
    oid and a length that fit their slots and each given back by the
    binary loader of the oid its dumper returned, is dumped by
    [BinaryTupleDumper] and read back by [BinaryRecordLoader] field by
    field.  Text layout: the same holds for [TextTupleDumper] and
    [RecordLoader] on a tuple other than [(None,)] whose fields are NULL (an
    empty slot) or are given back by the loader of [text] from a dumped
    text that is quoted and has no two backslashes in a row, or is unquoted
    and has no parenthesis; a doubled quote inside a quoted field is
    undoubled. *)
Theorem composite_roundtrip self_oid obj :
  (obj <> [None] ->
   Forall text_field_ok obj ->
   exists data,
     TextTupleDumper_dump self_oid obj = Ok (data, self_oid) /\
     RecordLoader_load data = Ok obj) /\
  (Z.of_nat (length obj) < 2 ^ 31 ->
   Forall binary_field_ok obj ->
   exists data,
     BinaryTupleDumper_dump self_oid obj = Ok (data, self_oid) /\
     BinaryRecordLoader_load data = Ok obj).
Proof.
  split.
  - apply text_roundtrip.
  - apply binary_roundtrip.
Qed.

(** C10: the text dumper gives the bytes of [()] both for [(None,)] and
    for the empty tuple: the comma appended for the NULL is the last part,
    which the closing parenthesis replaces; and the record loader reads
    these bytes as a record without fields, not as [(None,)]. *)
Theorem text_dump_single_null self_oid :
  text_dump_items [None] = Ok [B ","] /\
  set_last (B "(" :: [B ","]) (B ")") = [B "("; B ")"] /\
  TextTupleDumper_dump self_oid [None] = Ok (B "()", self_oid) /\
  TextTupleDumper_dump self_oid [] = Ok (B "()", self_oid) /\
  _parse_record (B "()") = [] /\
  RecordLoader_load (B "()") = Ok [] /\
  RecordLoader_load (B "()") <> Ok [None].
Proof. repeat split; discriminate. Qed.

(** *** What [_walk_record] yields *)

(** The layout the walk follows: the data of a field starts eight bytes
    after [i], and the header of the next field where that data ends (a
    length that is not positive takes no room). *)
Fixpoint offsets_from (i : Z) (fields : list (Z * Z * Z)) : Prop :=
  match fields with
  | [] => True
  | (_, offset, len) :: rest =>
    offset = i + 8 /\ offsets_from (offset + Z.max len 0) rest
  end.

Lemma unpack_signed4_bound d z :
  struct.unpack_signed 4 d = Ok z -> - 2 ^ 31 <= z < 2 ^ 31.
Proof.
  unfold struct.unpack_signed. case_bool_decide as Hl; [|discriminate].
  intros [= <-]. pose proof (numeric.unpack_be_bound d) as Hb. rewrite Hl in Hb.
  pose proof (numeric.to_signed_bound 4 (struct.unpack_be d)) as Hs.
  change (8 * Z.of_nat 4 - 1) with 31 in Hs. lia.
Qed.

Lemma unpack_unsigned4_bound d z :
  struct.unpack_unsigned 4 d = Ok z -> 0 <= z < 2 ^ 32.
Proof.
  unfold struct.unpack_unsigned. case_bool_decide as Hl; [|discriminate].
  intros [= <-]. pose proof (numeric.unpack_be_bound d) as Hb. rewrite Hl in Hb.
  exact Hb.
Qed.

Lemma oidlen_unpack_from_inv data i oid len :
  _struct_oidlen_unpack_from data i = Ok (oid, len) ->
  0 <= i /\ i + 8 <= Z.of_nat (length data) /\
  0 <= oid < 2 ^ 32 /\ - 2 ^ 31 <= len < 2 ^ 31.
Proof.
  unfold _struct_oidlen_unpack_from. case_bool_decide as Hi; [|discriminate].
  destruct (struct.unpack_unsigned 4 _) as [o|] eqn:Ho; [|discriminate].
  cbn [mbind result_bind].
  destruct (struct.unpack_signed 4 _) as [l|] eqn:Hl; [|discriminate].
  intros [= <- <-].
  pose proof (unpack_unsigned4_bound _ _ Ho). pose proof (unpack_signed4_bound _ _ Hl).
  lia.
Qed.

Lemma walk_fields_inv data n : forall i fields,
  walk_fields data n i = Ok fields ->
  length fields = n /\ offsets_from i fields /\
  Forall (fun '(oid, offset, len) =>
            0 <= oid < 2 ^ 32 /\ - 2 ^ 31 <= len < 2 ^ 31 /\
            i + 8 <= offset <= Z.of_nat (length data)) fields.
Proof.
  induction n as [|n IH]; intros i fields.
  - intros [= <-]. repeat split. constructor.
  - cbn [walk_fields].
    destruct (_struct_oidlen_unpack_from data i) as [[oid len]|] eqn:Hun;
      [|discriminate].
    cbn [mbind result_bind].
    destruct (walk_fields data n _) as [rest|] eqn:Hwalk; [|discriminate].
    intros [= <-].
    apply oidlen_unpack_from_inv in Hun as (Hi & Hend & Hoid & Hlen).
    apply IH in Hwalk as (Hn & Hoff & Hall).
    split; [cbn [length]; rewrite Hn; reflexivity|]. split.
    + cbn [offsets_from]. split; [reflexivity|].
      replace (i + 8 + Z.max len 0)
        with (if bool_decide (len > 0) then i + (8 + len) else i + 8)
        by (case_bool_decide; lia).
      exact Hoff.
    + constructor; [lia|].
      eapply Forall_impl; [exact Hall|].
      intros [[o off] l] (? & ? & Hlo & ?). revert Hlo.
      case_bool_decide; lia.
Qed.

(** When [_walk_record] returns, it yields as many fields as the count in
    the first four bytes says (none for a count that is not positive); the
    data of the first field is at offset 12 and every header follows the
    data of the field before it; each oid is an unsigned and each length a
    signed 32-bit number, and each header read lies inside the data. *)
Theorem walk_record_layout data fields :
  _walk_record data = Ok fields ->
  exists nfields,
    _struct_len_unpack_from data 0 = Ok nfields /\
    length fields = Z.to_nat nfields /\
    offsets_from 4 fields /\
    Forall (fun '(oid, offset, len) =>
              0 <= oid < 2 ^ 32 /\ - 2 ^ 31 <= len < 2 ^ 31 /\
              12 <= offset <= Z.of_nat (length data)) fields.
Proof.
  unfold _walk_record.
  destruct (_struct_len_unpack_from data 0) as [nfields|]; [|discriminate].
  cbn [mbind result_bind]. intros Hwalk.
  apply walk_fields_inv in Hwalk as (Hn & Hoff & Hall).
  exists nfields. repeat split; assumption.
Qed.

(** Data shorter than the four bytes of the count raises [struct.error] in
    [BinaryRecordLoader.load]; a count that is zero or negative gives the
    empty tuple, whatever follows the count. *)
Theorem binary_record_header :
  (forall data, (length data < 4)%nat ->
     BinaryRecordLoader_load data = Raise struct.size_error) /\
  (forall n rest, - 2 ^ 31 <= n <= 0 ->
     BinaryRecordLoader_load (struct.pack_be 4 n ++ rest) = Ok []).
Proof.
  split.
  - intros data Hl. unfold BinaryRecordLoader_load, _walk_record,
      _struct_len_unpack_from.
    rewrite bool_decide_eq_false_2 by lia. reflexivity.
  - intros n rest Hn. unfold BinaryRecordLoader_load, _walk_record.
    rewrite len_unpack_from by lia. cbn [mbind result_bind].
    replace (Z.to_nat n) with 0%nat by lia. reflexivity.
Qed.

(** *** Bytes after the last field *)

Lemma len_unpack_from_app data junk i n :
  _struct_len_unpack_from data i = Ok n ->
  _struct_len_unpack_from (data ++ junk) i = Ok n.
Proof.
  unfold _struct_len_unpack_from. case_bool_decide as Hi; [|discriminate].
  rewrite bool_decide_eq_true_2 by (rewrite length_app; lia).
  rewrite drop_app_le by lia.
  rewrite take_app_le by (rewrite length_drop; lia). tauto.
Qed.

Lemma oidlen_unpack_from_app data junk i r :
  _struct_oidlen_unpack_from data i = Ok r ->
  _struct_oidlen_unpack_from (data ++ junk) i = Ok r.
Proof.
  unfold _struct_oidlen_unpack_from. case_bool_decide as Hi; [|discriminate].
  rewrite bool_decide_eq_true_2 by (rewrite length_app; lia).
  rewrite !drop_app_le by lia.
  rewrite !take_app_le by (rewrite length_drop; lia). tauto.
Qed.

Lemma walk_fields_app data junk n : forall i fields,
  walk_fields data n i = Ok fields ->
  walk_fields (data ++ junk) n i = Ok fields.
Proof.
  induction n as [|n IH]; intros i fields; [tauto|].
  cbn [walk_fields].
  destruct (_struct_oidlen_unpack_from data i) as [[oid len]|] eqn:Hun;
    [|discriminate].
  rewrite (oidlen_unpack_from_app _ junk _ _ Hun). cbn [mbind result_bind].
  destruct (walk_fields data n _) as [rest|] eqn:Hwalk; [|discriminate].
  rewrite (IH _ _ Hwalk). tauto.
Qed.

Lemma py_slice_app data junk start stop :
  0 <= start -> 0 <= stop <= Z.of_nat (length data) ->
  py_slice (data ++ junk) start stop = py_slice data start stop.
Proof.
  intros Hstart Hstop. unfold py_slice. rewrite length_app.
  rewrite !bool_decide_eq_false_2 by lia.
  rewrite !(Z.min_l stop) by lia.
  destruct (Z.le_gt_cases start (Z.of_nat (length data))) as [Hle|Hgt].
  - rewrite !(Z.min_l start) by lia.
    rewrite drop_app_le by lia.
    apply take_app_le. rewrite length_drop. lia.
  - replace (Z.to_nat (stop - Z.min start (Z.of_nat (length data + length junk))))
      with 0%nat by lia.
    replace (Z.to_nat (stop - Z.min start (Z.of_nat (length data))))
      with 0%nat by lia.
    reflexivity.
Qed.

Lemma walk_record_app data junk fields :
  _walk_record data = Ok fields -> _walk_record (data ++ junk) = Ok fields.
Proof.
  unfold _walk_record.
  destruct (_struct_len_unpack_from data 0) as [n|] eqn:Hn; [|discriminate].
  rewrite (len_unpack_from_app _ junk _ _ Hn). cbn [mbind result_bind].
  apply walk_fields_app.
Qed.

Lemma walk_record_offsets data fields :
  _walk_record data = Ok fields ->
  Forall (fun '(_, offset, _) => 0 <= offset) fields.
Proof.
  unfold _walk_record.
  destruct (_struct_len_unpack_from data 0) as [n|]; [|discriminate].
  cbn [mbind result_bind]. intros Hwalk.
  apply walk_fields_inv in Hwalk as (_ & _ & Hall).
  eapply Forall_impl; [exact Hall|]. intros [[o off] l] (_ & _ & H). lia.
Qed.

(** [BinaryRecordLoader.load] does not look past the last field: when the
    walk of [data] succeeds and the data of every field that is not NULL
    lies inside [data], any bytes appended to [data] change nothing in
    what is loaded. *)
Theorem binary_load_ignores_trailing data junk fields :
  _walk_record data = Ok fields ->
  Forall (fun '(_, offset, len) =>
            len = -1 \/ 0 <= len /\ offset + len <= Z.of_nat (length data))
         fields ->
  BinaryRecordLoader_load (data ++ junk) = BinaryRecordLoader_load data.
Proof.
  intros Hwalk Hin.
  pose proof (walk_record_app data junk fields Hwalk) as Happ.
  unfold BinaryRecordLoader_load. rewrite Hwalk, Happ.
  cbn [mbind result_bind]. f_equal.
  apply walk_record_offsets in Hwalk.
  clear Happ. induction fields as [|[[oid off] len] fields IH]; [reflexivity|].
  inversion Hin as [|? ? Hf Hrest]; subst.
  inversion Hwalk as [|? ? Ho Horest]; subst.
  cbn [fmap list_fmap]. f_equal; [|apply IH; assumption].
  case_bool_decide as Hlen; [|reflexivity].
  f_equal. apply py_slice_app; lia.
Qed.

(** *** What [TextTupleDumper.dump] writes *)

(** The text of a field as the dumper takes it from the Transformer:
    [None] for a [None], which the Transformer is not asked about, and for
    an object that the Transformer dumps to [None]. *)
Definition text_dumped (item : option PyObj) (ad : option bytes) : Prop :=
  match item with
  | None => ad = None
  | Some x => exists m, tx_dump (Some x) TEXT = Ok m /\ maybe_bytes m = ad
  end.

Lemma text_dump_item_parts item ps :
  text_dump_item item = Ok ps ->
  exists ad, ps = field_parts ad /\ text_dumped item ad.
Proof.
  unfold text_dump_item.
  destruct item as [x|];
    [|intros [= <-]; exists None; split; reflexivity].
  destruct (tx_dump (Some x) TEXT) as [m|] eqn:Hm; [|discriminate].
  cbn [mbind result_bind].
  replace (match m with WithOid ad _ => ad | Bare ad => ad end)
    with (maybe_bytes m) by (destruct m; reflexivity).
  destruct (maybe_bytes m) as [ad|] eqn:Hb;
    intros [= <-]; [exists (Some ad) | exists None];
    (split; [reflexivity|]); exists m; split; assumption.
Qed.

Lemma text_dump_items_parts obj : forall parts,
  text_dump_items obj = Ok parts ->
  exists ads, parts = flat_map field_parts ads /\ Forall2 text_dumped obj ads.
Proof.
  induction obj as [|item obj IH]; intros parts.
  - intros [= <-]. exists []. split; [reflexivity | constructor].
  - cbn [text_dump_items].
    destruct (text_dump_item item) as [ps|] eqn:Hitem; [|discriminate].
    cbn [mbind result_bind].
    destruct (text_dump_items obj) as [pss|]; [|discriminate].
    intros [= <-].
    destruct (text_dump_item_parts _ _ Hitem) as (ad & -> & Had).
    destruct (IH pss eq_refl) as (ads & -> & Hads).
    exists (ad :: ads). split; [reflexivity|]. constructor; assumption.
Qed.

Lemma text_dump_items_raise obj e :
  text_dump_items obj = Raise e ->
  exists x, Some x ∈ obj /\ tx_dump (Some x) TEXT = Raise e.
Proof.
  induction obj as [|item obj IH]; [discriminate|].
  cbn [text_dump_items].
  destruct (text_dump_item item) as [ps|e'] eqn:Hitem.
  - cbn [mbind result_bind].
    destruct (text_dump_items obj) as [pss|e'']; [discriminate|].
    intros [= <-]. destruct (IH eq_refl) as (x & Hin & Hx).
    exists x. split; [right; exact Hin | exact Hx].
  - intros [= <-]. unfold text_dump_item in Hitem.
    destruct item as [x|]; [|discriminate].
    exists x. split; [left|].
    destruct (tx_dump (Some x) TEXT) as [m|e''];
      cbn [mbind result_bind] in Hitem; [|congruence].
    destruct (match m with WithOid ad _ => ad | Bare ad => ad end);
      discriminate.
Qed.

Lemma enc_body_last ads :
  ads <> [] -> exists pre, enc_body ads = pre ++ [RPAREN].
Proof.
  induction ads as [|ad ads IH]; [congruence|]. intros _.
  destruct ads as [|ad' ads'].
  - exists (enc_field ad). reflexivity.
  - destruct IH as (pre & Hpre); [discriminate|].
    exists (enc_field ad ++ COMMA :: pre).
    change (enc_body (ad :: ad' :: ads'))
      with (enc_field ad ++ COMMA :: enc_body (ad' :: ads')).
    rewrite Hpre, <- app_assoc. reflexivity.
Qed.

(** Whatever the fields are, the text that [TextTupleDumper.dump] returns
    comes with the oid of the dumper's class, starts with an opening and
    ends with a closing parenthesis, and between them has the texts of the
    fields in order with a comma between two of them: nothing for a field
    that is [None] or is dumped to [None], the dumped text in double quotes
    with its double quotes doubled when it is empty or has a double quote,
    a comma, a backslash or white space, and the dumped text as it is
    otherwise.  The dumper raises only what the Transformer raises on a
    field that is not [None]. *)
Theorem text_dump_shape self_oid obj :
  (forall data oid,
     TextTupleDumper_dump self_oid obj = Ok (data, oid) ->
     oid = self_oid /\
     (exists body, data = LPAREN :: body ++ [RPAREN]) /\
     exists ads,
       Forall2 text_dumped obj ads /\
       data = if bool_decide (obj = []) then B "()" else LPAREN :: enc_body ads) /\
  (forall e,
     TextTupleDumper_dump self_oid obj = Raise e ->
     exists x, Some x ∈ obj /\ tx_dump (Some x) TEXT = Raise e).
Proof.
  unfold TextTupleDumper_dump. split.
  - intros data oid. destruct obj as [|item obj].
    + intros [= <- <-]. split; [reflexivity|]. split; [exists []; reflexivity|].
      exists []. split; [constructor | reflexivity].
    + destruct (text_dump_items (item :: obj)) as [parts|] eqn:Hparts;
        [|discriminate].
      cbn [mbind result_bind]. intros [= <- <-]. split; [reflexivity|].
      destruct (text_dump_items_parts _ _ Hparts) as (ads & -> & Hads).
      assert (Hne : ads <> []) by (intros ->; inversion Hads).
      rewrite dumped_text by exact Hne. split.
      * destruct (enc_body_last ads Hne) as (pre & ->). exists pre. reflexivity.
      * exists ads. split; [exact Hads|].
        rewrite bool_decide_eq_false_2 by discriminate. reflexivity.
  - intros e. destruct obj as [|item obj]; [discriminate|].
    destruct (text_dump_items (item :: obj)) as [parts|e'] eqn:Hparts;
      [discriminate|].
    intros [= <-]. apply text_dump_items_raise. exact Hparts.
Qed.

(** *** Escaping and un-escaping of a quoted field *)

Lemma undouble_escape_length n : forall ad,
  (length ad <= n)%nat ->
  (length (_re_undouble (_re_escape ad)) <= length ad)%nat /\
  (no_double_backslash ad = false ->
   (length (_re_undouble (_re_escape ad)) < length ad)%nat).
Proof.
  induction n as [|n IH]; intros ad Hn.
  { destruct ad; [|cbn [length] in Hn; lia]. split; [reflexivity|discriminate]. }
  destruct ad as [|a rest]; [split; [reflexivity|discriminate]|].
  cbn [length] in Hn.
  cbn [_re_escape]. case_bool_decide as Ha.
  - subst a. cbn [_re_undouble].
    rewrite !bool_decide_eq_true_2 by reflexivity. cbn [orb andb length].
    destruct (IH rest) as [Hle Hlt]; [lia|].
    split; [lia|]. intros Hnd.
    assert (Hrest : no_double_backslash rest = false).
    { destruct rest as [|b rest0]; [discriminate|].
      cbn [no_double_backslash] in Hnd.
      rewrite (bool_decide_eq_false_2 (QUOTE = BACKSLASH)) in Hnd by discriminate.
      exact Hnd. }
    specialize (Hlt Hrest). lia.
  - cbn [_re_undouble].
    destruct (_re_escape rest) as [|b r'] eqn:Hesc.
    + destruct rest as [|r rest0].
      * split; [reflexivity|discriminate].
      * cbn [_re_escape] in Hesc. case_bool_decide; discriminate.
    + assert (Hb : head rest = Some b)
        by (apply head_escape; rewrite Hesc; reflexivity).
      destruct rest as [|r rest0]; [discriminate|]. cbn [head] in Hb.
      injection Hb as ->. cbn [length] in *.
      rewrite (bool_decide_eq_false_2 (a = QUOTE)) by exact Ha. cbn [orb].
      destruct (bool_decide (a = BACKSLASH) && bool_decide (a = b)) eqn:Hab.
      * apply andb_true_iff in Hab as [Ha1 Ha2].
        apply bool_decide_eq_true in Ha1, Ha2. subst a b.
        cbn [_re_escape] in Hesc.
        rewrite (bool_decide_eq_false_2 (BACKSLASH = QUOTE)) in Hesc by discriminate.
        injection Hesc as <-.
        destruct (IH rest0) as [Hle _]; [lia|]. cbn [length]. split; lia.
      * rewrite <- Hesc. destruct (IH (b :: rest0)) as [Hle Hlt]; [cbn [length]; lia|].
        cbn [length] in *. split; [lia|]. intros Hnd.
        cbn [no_double_backslash] in Hnd.
        assert (Hnot : bool_decide (a = BACKSLASH) && bool_decide (b = BACKSLASH) = false).
        { apply andb_false_iff in Hab. apply andb_false_iff.
          destruct Hab as [Hab|Hab]; [left; exact Hab|].
          apply bool_decide_eq_false in Hab.
          destruct (bool_decide (a = BACKSLASH)) eqn:Ha1; [|left; reflexivity].
          right. apply bool_decide_eq_true in Ha1. apply bool_decide_eq_false_2.
          congruence. }
        rewrite Hnot in Hnd. cbn [negb andb] in Hnd.
        specialize (Hlt Hnd). lia.
Qed.

(** The un-escaping that [RecordLoader] applies to a quoted token gives
    back the text that [TextTupleDumper] escaped exactly when that text
    has no backslash followed by a backslash; otherwise what comes back is
    shorter than the text. *)
Theorem undouble_escape_iff ad :
  (_re_undouble (_re_escape ad) = ad <-> no_double_backslash ad = true) /\
  (no_double_backslash ad = false ->
   (length (_re_undouble (_re_escape ad)) < length ad)%nat).
Proof.
  destruct (undouble_escape_length (length ad) ad) as [_ Hlt]; [reflexivity|].
  split; [split|exact Hlt].
  - intros Heq. destruct (no_double_backslash ad) eqn:Hnd; [reflexivity|].
    specialize (Hlt eq_refl). rewrite Heq in Hlt. lia.
  - apply undouble_escape.
Qed.

(** *** How many tokens the text loader finds *)

(** The commas and closing parentheses of a text. *)
Fixpoint count_sep (s : bytes) : nat :=
  match s with
  | [] => 0
  | b :: rest => ((if is_sep b then 1 else 0) + count_sep rest)%nat
  end.

Lemma count_sep_app s t : count_sep (s ++ t) = (count_sep s + count_sep t)%nat.
Proof.
  induction s as [|b s IH]; [reflexivity|].
  cbn [app count_sep]. rewrite IH. lia.
Qed.

Lemma quoted_body_split n : forall s body r,
  (length s <= n)%nat -> quoted_body s = (body, r) -> s = body ++ r.
Proof.
  induction n as [|n IH]; intros s body r Hn.
  { destruct s; [|cbn [length] in Hn; lia]. intros [= <- <-]. reflexivity. }
  destruct s as [|a rest]; [intros [= <- <-]; reflexivity|].
  cbn [length] in Hn. cbn [quoted_body]. case_bool_decide as Ha.
  - destruct rest as [|b rest']; [intros [= <- <-]; reflexivity|].
    case_bool_decide as Hb; [|intros [= <- <-]; reflexivity].
    destruct (quoted_body rest') as [body' r'] eqn:Hq.
    intros [= <- <-]. subst a b. cbn [app]. do 2 f_equal.
    apply (IH rest'); [cbn [length] in Hn; lia | exact Hq].
  - destruct (quoted_body rest) as [body' r'] eqn:Hq.
    intros [= <- <-]. cbn [app]. f_equal.
    apply (IH rest); [lia | exact Hq].
Qed.

Lemma unquoted_run_split s : forall run r,
  unquoted_run s = (run, r) -> s = run ++ r.
Proof.
  induction s as [|a rest IH]; intros run r; [intros [= <- <-]; reflexivity|].
  cbn [unquoted_run].
  destruct (bool_decide (a = QUOTE) || is_sep a); [intros [= <- <-]; reflexivity|].
  destruct (unquoted_run rest) as [run' r'] eqn:Hr.
  intros [= <- <-]. cbn [app]. f_equal. apply IH. reflexivity.
Qed.

Lemma optional_paren_inv {A} s (k : bytes -> option A) r :
  optional_paren s k = Some r ->
  k s = Some r \/ exists rest, s = LPAREN :: rest /\ k rest = Some r.
Proof.
  unfold optional_paren. destruct s as [|b rest]; [auto|].
  case_bool_decide as Hb; [|auto]. subst b.
  destruct (k rest) as [r'|] eqn:Hk; [|auto].
  intros [= <-]. right. exists rest. auto.
Qed.

(** A match of [_re_tokenize] ends with a comma or a closing parenthesis,
    which it consumes. *)
Lemma match_token_consumes s tok after :
  match_token s = Some (tok, after) ->
  exists consumed c, s = consumed ++ c :: after /\ is_sep c = true.
Proof.
  assert (Hparen : forall k : bytes -> option (Token * bytes),
            (forall s', k s' = Some (tok, after) ->
               exists consumed c, s' = consumed ++ c :: after /\ is_sep c = true) ->
            optional_paren s k = Some (tok, after) ->
            exists consumed c, s = consumed ++ c :: after /\ is_sep c = true).
  { intros k Hk Hopt.
    apply optional_paren_inv in Hopt as [Hopt | (rest & -> & Hopt)].
    - apply Hk, Hopt.
    - destruct (Hk _ Hopt) as (consumed & c & -> & Hc).
      exists (LPAREN :: consumed), c. split; [reflexivity | exact Hc]. }
  unfold match_token.
  destruct (alt_empty s) as [m|] eqn:He.
  { intros [= ->]. revert He. unfold alt_empty. apply Hparen.
    intros [|c rest]; [discriminate|].
    destruct (is_sep c) eqn:Hc; [|discriminate].
    intros [= _ <-]. exists [], c. split; [reflexivity | exact Hc]. }
  destruct (alt_quoted s) as [m|] eqn:Hq.
  { intros [= ->]. revert Hq. unfold alt_quoted. apply Hparen.
    intros [|q rest]; [discriminate|].
    case_bool_decide as Hquote; [|discriminate].
    destruct (quoted_body rest) as [body r] eqn:Hbody.
    destruct r as [|q' [|c rest']]; try discriminate.
    destruct (bool_decide (q' = QUOTE) && is_sep c) eqn:Hend; [|discriminate].
    intros [= _ <-]. apply andb_true_iff in Hend as [_ Hc].
    apply (quoted_body_split (length rest)) in Hbody; [|reflexivity].
    exists (q :: body ++ [q']), c. split; [|exact Hc].
    rewrite Hbody. cbn [app]. rewrite <- app_assoc. reflexivity. }
  unfold alt_unquoted. apply Hparen.
  intros s'. destruct (unquoted_run s') as [run r] eqn:Hrun.
  destruct run as [|a run]; [discriminate|].
  destruct r as [|c rest]; [discriminate|].
  destruct (is_sep c) eqn:Hc; [|discriminate].
  intros [= _ <-]. apply unquoted_run_split in Hrun.
  exists (a :: run), c. split; [exact Hrun | exact Hc].
Qed.

Lemma count_sep_drop k s : (count_sep (drop k s) <= count_sep s)%nat.
Proof.
  rewrite <- (take_drop k s) at 2. rewrite count_sep_app. lia.
Qed.

Lemma tokenize_count s : forall skip,
  (length (_re_tokenize s skip) <= count_sep (drop skip s))%nat.
Proof.
  induction s as [|x rest IH]; intros skip.
  - destruct skip; cbn; lia.
  - cbn [_re_tokenize]. destruct skip as [|n]; [|apply IH].
    rewrite drop_0.
    destruct (match_token (x :: rest)) as [[tok after]|] eqn:Hm.
    + destruct (match_token_consumes _ _ _ Hm) as (consumed & c & Hs & Hc).
      specialize (IH (length (x :: rest) - length after - 1)%nat).
      assert (Hcount : (1 + count_sep after <= count_sep (x :: rest))%nat).
      { rewrite Hs, count_sep_app. cbn [count_sep]. rewrite Hc. lia. }
      assert (Hdrop : drop (length (x :: rest) - length after - 1) rest = after).
      { rewrite Hs. destruct consumed as [|y cs].
        - cbn [app] in Hs. injection Hs as -> ->.
          cbn [app length]. replace (S (length after) - length after - 1)%nat
            with 0%nat by lia. apply drop_0.
        - cbn [app] in Hs. injection Hs as -> ->.
          cbn [app length]. rewrite length_app. cbn [length].
          replace (S (length cs + S (length after)) - length after - 1)%nat
            with (length (cs ++ [c])) by (rewrite length_app; cbn [length]; lia).
          replace (cs ++ c :: after) with ((cs ++ [c]) ++ after)
            by (rewrite <- app_assoc; reflexivity).
          apply drop_app_length. }
      rewrite Hdrop in IH. cbn [length] in *. lia.
    + specialize (IH 0%nat). rewrite drop_0 in IH. cbn [count_sep]. lia.
Qed.

Lemma cast_tokens_length cast tokens : forall r,
  cast_tokens cast tokens = Ok r -> length r = length tokens.
Proof.
  induction tokens as [|[token|] tokens IH]; intros r; cbn [cast_tokens].
  - intros [= <-]. reflexivity.
  - destruct (cast token) as [v|]; [|discriminate]. cbn [mbind result_bind].
    destruct (cast_tokens cast tokens) as [r'|]; [|discriminate].
    intros [= <-]. cbn [length]. rewrite (IH r' eq_refl). reflexivity.
  - destruct (cast_tokens cast tokens) as [r'|]; [|discriminate].
    intros [= <-]. cbn [length]. rewrite (IH r' eq_refl). reflexivity.
Qed.

(** Every token that [_parse_record] yields ends at a comma or a closing
    parenthesis of its own, so the tuple that [RecordLoader.load] returns
    has at most as many fields as the data has of these; on data without
    one, whatever it is, the loader returns the empty tuple and calls no
    load function. *)
Theorem record_loader_token_count data :
  (length (_parse_record data) <= count_sep data)%nat /\
  (forall r, RecordLoader_load data = Ok r ->
     (length r <= count_sep data)%nat) /\
  (count_sep data = 0%nat -> RecordLoader_load data = Ok []).
Proof.
  assert (Hlen : (length (_parse_record data) <= count_sep data)%nat).
  { unfold _parse_record. case_bool_decide; [cbn [length]; lia|].
    pose proof (tokenize_count data 0) as Htok. rewrite drop_0 in Htok. exact Htok. }
  split; [exact Hlen|]. split.
  - intros r Hr. unfold RecordLoader_load in Hr.
    apply cast_tokens_length in Hr. lia.
  - intros Hz. unfold RecordLoader_load.
    destruct (_parse_record data) as [|tok toks]; [reflexivity|].
    cbn [length] in Hlen. lia.
Qed.

(** *** What [BinaryTupleDumper.dump] writes *)

(** A field of the walk of [data] is what the Transformer returned for
    [item]: its oid (the oid of text when the Transformer gave none), the
    length of its bytes, or -1 for [None], and its bytes at the offset. *)
Definition binary_dumped (data : bytes) (item : option PyObj) (field : Z * Z * Z)
  : Prop :=
  let '(oid, offset, len) := field in
  exists m,
    tx_dump item BINARY = Ok m /\ oid = maybe_oid m /\
    len = field_len (maybe_bytes m) /\
    forall ad, maybe_bytes m = Some ad -> py_slice data offset (offset + len) = ad.

Lemma oidlen_pack_inv oid len hdr :
  _struct_oidlen_pack oid len = Ok hdr ->
  0 <= oid < 2 ^ 32 /\ - 2 ^ 31 <= len < 2 ^ 31 /\
  hdr = struct.pack_be 4 oid ++ struct.pack_be 4 len.
Proof.
  unfold _struct_oidlen_pack, struct.pack_unsigned, struct.pack_signed.
  repeat case_bool_decide; cbn [mbind result_bind]; try discriminate.
  intros [= <-]. change (8 * Z.of_nat 4 - 1) with 31 in *.
  change (8 * Z.of_nat 4) with 32 in *. repeat split; lia.
Qed.

Lemma binary_dump_item_inv item d :
  binary_dump_item item = Ok d ->
  exists m,
    tx_dump item BINARY = Ok m /\
    0 <= maybe_oid m < 2 ^ 32 /\ - 2 ^ 31 <= field_len (maybe_bytes m) < 2 ^ 31 /\
    d = (struct.pack_be 4 (maybe_oid m) ++
         struct.pack_be 4 (field_len (maybe_bytes m))) ++
        default [] (maybe_bytes m).
Proof.
  unfold binary_dump_item.
  destruct (tx_dump item BINARY) as [m|] eqn:Hm; [|discriminate].
  cbn [mbind result_bind].
  replace (match m with WithOid ad oid => (ad, oid) | Bare ad => (ad, TEXT_OID) end)
    with (maybe_bytes m, maybe_oid m) by (destruct m; reflexivity).
  destruct (maybe_bytes m) as [ad|] eqn:Hb.
  - destruct (_struct_oidlen_pack _ _) as [hdr|] eqn:Hh; [|discriminate].
    cbn [mbind result_bind]. intros [= <-].
    apply oidlen_pack_inv in Hh as (Ho & Hl & ->).
    exists m. rewrite Hb. cbn [field_len default]. auto.
  - intros Hh. apply oidlen_pack_inv in Hh as (Ho & Hl & ->).
    exists m. rewrite Hb. cbn [field_len default]. rewrite app_nil_r. auto.
Qed.

Lemma binary_dump_items_walk obj : forall body,
  binary_dump_items obj = Ok body ->
  forall pre post,
  exists fields,
    walk_fields (pre ++ body ++ post) (length obj) (Z.of_nat (length pre))
      = Ok fields /\
    Forall2 (binary_dumped (pre ++ body ++ post)) obj fields.
Proof.
  induction obj as [|item obj IH]; intros body.
  - intros [= <-] pre post. exists []. split; [reflexivity | constructor].
  - cbn [binary_dump_items].
    destruct (binary_dump_item item) as [d|] eqn:Hd; [|discriminate].
    cbn [mbind result_bind].
    destruct (binary_dump_items obj) as [ds|] eqn:Hds; [|discriminate].
    intros [= <-] pre post.
    destruct (binary_dump_item_inv _ _ Hd) as (m & Hm & Ho & Hl & ->).
    set (hdr := struct.pack_be 4 (maybe_oid m) ++
                struct.pack_be 4 (field_len (maybe_bytes m))) in *.
    set (a := default [] (maybe_bytes m)) in *.
    assert (Hhdr : length hdr = 8%nat)
      by (unfold hdr; rewrite length_app, !struct.length_pack_be; reflexivity).
    assert (Ha : Z.of_nat (length a) = Z.max (field_len (maybe_bytes m)) 0).
    { unfold a. destruct (maybe_bytes m); simpl; lia. }
    destruct (IH ds eq_refl (pre ++ hdr ++ a) post) as (fields & Hwalk & Hall).
    assert (Hdata : (pre ++ hdr ++ a) ++ ds ++ post
                    = pre ++ ((hdr ++ a) ++ ds) ++ post)
      by (rewrite <- !app_assoc; reflexivity).
    rewrite Hdata in Hwalk, Hall.
    exists ((maybe_oid m, Z.of_nat (length pre) + 8, field_len (maybe_bytes m))
              :: fields).
    split.
    + assert (Hun : _struct_oidlen_unpack_from
                      (pre ++ ((hdr ++ a) ++ ds) ++ post) (Z.of_nat (length pre))
                    = Ok (maybe_oid m, field_len (maybe_bytes m))).
      { replace (pre ++ ((hdr ++ a) ++ ds) ++ post)
          with (pre ++ hdr ++ (a ++ ds ++ post))
          by (rewrite <- !app_assoc; reflexivity).
        unfold hdr. apply oidlen_unpack_from; assumption. }
      cbn [walk_fields length]. rewrite Hun. cbn [mbind result_bind].
      replace (if bool_decide (field_len (maybe_bytes m) > 0)
               then Z.of_nat (length pre) + (8 + field_len (maybe_bytes m))
               else Z.of_nat (length pre) + 8)
        with (Z.of_nat (length (pre ++ hdr ++ a)))
        by (rewrite !length_app, Hhdr; case_bool_decide; lia).
      rewrite Hwalk. reflexivity.
    + constructor; [|exact Hall].
      unfold binary_dumped. exists m. repeat split; [exact Hm|].
      intros ad Had.
      assert (Haa : a = ad) by (unfold a; rewrite Had; reflexivity).
      assert (Hlen : field_len (maybe_bytes m) = Z.of_nat (length ad))
        by (rewrite Had; reflexivity).
      rewrite Hlen, Haa.
      replace (pre ++ ((hdr ++ ad) ++ ds) ++ post)
        with ((pre ++ hdr) ++ ad ++ (ds ++ post))
        by (rewrite <- !app_assoc; reflexivity).
      replace (Z.of_nat (length pre) + 8) with (Z.of_nat (length (pre ++ hdr)))
        by (rewrite length_app, Hhdr; lia).
      apply py_slice_middle.
Qed.

(** A record that [BinaryTupleDumper.dump] returns, whatever the fields
    are, comes with the oid of the dumper's class and is one that
    [_walk_record] walks without error: field by field the walk finds the
    oid that the Transformer returned (the oid of text when it returned
    none), and the length and the bytes of what it dumped, a [None] having
    the length -1 and no bytes. *)
Theorem binary_dump_layout self_oid obj data oid :
  BinaryTupleDumper_dump self_oid obj = Ok (data, oid) ->
  oid = self_oid /\
  exists fields,
    _walk_record data = Ok fields /\ Forall2 (binary_dumped data) obj fields.
Proof.
  unfold BinaryTupleDumper_dump, _struct_len_pack, struct.pack_signed.
  case_bool_decide as Hn; cbn [mbind result_bind]; [|discriminate].
  destruct (binary_dump_items obj) as [body|] eqn:Hbody; [|discriminate].
  cbn [mbind result_bind]. intros Heq.
  assert (Hdata : data = struct.pack_be 4 (Z.of_nat (length obj)) ++ body)
    by congruence.
  split; [congruence|]. subst data. clear Heq.
  change (8 * Z.of_nat 4 - 1) with 31 in Hn.
  destruct (binary_dump_items_walk obj body Hbody
              (struct.pack_be 4 (Z.of_nat (length obj))) [])
    as (fields & Hwalk & Hall).
  rewrite app_nil_r, struct.length_pack_be in Hwalk. rewrite app_nil_r in Hall.
  exists fields. split; [|exact Hall].
  unfold _walk_record. rewrite len_unpack_from by lia.
  cbn [mbind result_bind]. rewrite Nat2Z.id. exact Hwalk.
Qed.

(** *** The loader object between two calls *)

(** Modelled from the spec: the Transformer [_tx] of a loader, of
    [adapt.py], keeps the load functions that [set_row_types] memoized
    until the next call of [set_row_types].  With them a binary loader
    object keeps its flag [_types_set] from one [load] to the next. *)
Record LoaderObject := mkLoaderObject {
  _types_set : bool;
  _row_loaders : list (bytes -> result PyObj);
}.

(** [BinaryRecordLoader._config_types] *)
Definition _config_types (self : LoaderObject) (data : bytes) : result LoaderObject :=
  types ← _walk_record data;
  Ok {| _types_set := _types_set self;
        _row_loaders := set_row_types ((fun '(oid, _, _) => (oid, BINARY)) <$> types) |}.

(** [BinaryRecordLoader.load] on the object: the types are configured from
    the data of the first call that gets through [_config_types], and the
    flag is set after it. *)
Definition BinaryRecordLoader_load_self (self : LoaderObject) (data : bytes)
  : LoaderObject * result (list (option PyObj)) :=
  match (if _types_set self then Ok self
         else
           self ← _config_types self data;
           Ok {| _types_set := true; _row_loaders := _row_loaders self |}) with
  | Raise e => (self, Raise e)
  | Ok self =>
    (self,
     fields ← _walk_record data;
     load_sequence (_row_loaders self)
       ((fun '(_, offset, len) =>
           if bool_decide (len <> -1) then Some (py_slice data offset (offset + len))
           else None)
          <$> fields))
  end.

(** The fields of [data] as [BinaryRecordLoader.load] cuts them out. *)
Definition record_fields (data : bytes) (fields : list (Z * Z * Z))
  : list (option bytes) :=
  (fun '(_, offset, len) =>
     if bool_decide (len <> -1) then Some (py_slice data offset (offset + len))
     else None) <$> fields.

(** A [BinaryRecordLoader] configures its load functions once.  The first
    [load] that succeeds on a new loader takes them from the oids of its
    data (so it is the [load] modelled above) and sets the flag; every
    later [load] on that object decodes the fields of its own data with the
    load functions of the oids of the first data, and leaves the object as
    it is.  A [load] whose walk raises leaves the flag unset. *)
Theorem binary_loader_types_set_once self data1 :
  _types_set self = false ->
  (forall e, _walk_record data1 = Raise e ->
     BinaryRecordLoader_load_self self data1 = (self, Raise e)) /\
  (forall types1, _walk_record data1 = Ok types1 ->
     let self1 :=
       {| _types_set := true;
          _row_loaders :=
            set_row_types ((fun '(oid, _, _) => (oid, BINARY)) <$> types1) |} in
     BinaryRecordLoader_load_self self data1
       = (self1, BinaryRecordLoader_load data1) /\
     forall data2 fields2,
       _walk_record data2 = Ok fields2 ->
       BinaryRecordLoader_load_self self1 data2
         = (self1,
            load_sequence
              (set_row_types ((fun '(oid, _, _) => (oid, BINARY)) <$> types1))
              (record_fields data2 fields2))).
Proof.
  intros Hset. split.
  - intros e Hwalk. unfold BinaryRecordLoader_load_self, _config_types.
    rewrite Hset, Hwalk. reflexivity.
  - intros types1 Hwalk self1. split.
    + unfold BinaryRecordLoader_load_self, _config_types, BinaryRecordLoader_load.
      rewrite Hset, Hwalk. reflexivity.
    + intros data2 fields2 Hwalk2.
      unfold BinaryRecordLoader_load_self. cbn [_types_set self1].
      rewrite Hwalk2. reflexivity.
Qed.

(** *** The loaders of a registered composite type *)

(** [CompositeLoader.load] for a subclass with the attributes [factory]
    and [fields_types]: [_config_types] takes the types of the fields from
    the class, whatever the data, and the factory is called with the loaded
    fields as its arguments. *)
Definition CompositeLoader_load {Obj : Type}
    (factory : list (option PyObj) -> result Obj) (fields_types : list Z)
    (data : bytes) : result Obj :=
  let row_loaders := set_row_types ((fun oid => (oid, TEXT)) <$> fields_types) in
  args ← load_sequence row_loaders (_parse_record data);
  factory args.

(** [BinaryCompositeLoader.load], on a loader whose types are not set
    yet. *)
Definition BinaryCompositeLoader_load {Obj : Type}
    (factory : list (option PyObj) -> result Obj) (data : bytes) : result Obj :=
  r ← BinaryRecordLoader_load data;
  factory r.

(** A field that the text layout carries to a loader that knows its type:
    NULL, or an object that the Transformer dumps to a text the two layouts
    agree on and that the text loader of [oid] gives back from it. *)
Definition typed_field_ok (item : option PyObj) (oid : Z) : Prop :=
  match item with
  | None => True
  | Some x =>
    exists m ad,
      tx_dump (Some x) TEXT = Ok m /\ maybe_bytes m = Some ad /\
      text_safe ad = true /\ get_load_function oid TEXT ad = Ok x
  end.

Lemma typed_dump_items_spec obj fields_types :
  Forall2 typed_field_ok obj fields_types ->
  exists ads,
    text_dump_items obj = Ok (flat_map field_parts ads) /\
    forallb field_safe ads = true /\
    load_sequence (set_row_types ((fun oid => (oid, TEXT)) <$> fields_types)) ads
      = Ok obj /\
    (ads = [] -> obj = []) /\ (ads = [None] -> obj = [None]).
Proof.
  induction 1 as [|item oid obj types Hitem _ IH].
  - exists []. repeat split; try reflexivity. discriminate.
  - destruct IH as (ads & Hd & Hs & Hc & Hnil & Hnull).
    destruct item as [x|].
    + destruct Hitem as (m & ad & Hm & Hb & Hsafe & Hload).
      exists (Some ad :: ads). cbn [text_dump_items text_dump_item].
      rewrite Hm. cbn [mbind result_bind].
      replace (match m with WithOid ad0 _ => ad0 | Bare ad0 => ad0 end)
        with (Some ad) by (destruct m; symmetry; exact Hb).
      cbn [mbind result_bind]. rewrite Hd. cbn [mbind result_bind].
      repeat split.
      * cbn [forallb field_safe]. rewrite Hsafe, Hs. reflexivity.
      * cbn [fmap list_fmap set_row_types load_sequence tail].
        rewrite Hload. cbn [mbind result_bind].
        unfold set_row_types in Hc. rewrite Hc. reflexivity.
      * discriminate.
      * discriminate.
    + exists (None :: ads). cbn [text_dump_items text_dump_item].
      cbn [mbind result_bind]. rewrite Hd. cbn [mbind result_bind].
      repeat split.
      * cbn [forallb field_safe]. exact Hs.
      * cbn [fmap list_fmap set_row_types load_sequence tail].
        unfold set_row_types in Hc. rewrite Hc. reflexivity.
      * discriminate.
      * intros [= Hads]. rewrite (Hnil Hads). reflexivity.
Qed.

(** The loaders that [register] generates for a composite type build the
    object from what the dumpers of tuples wrote.  In the text layout, for
    a tuple other than [(None,)] each of whose fields is NULL or is given
    back by the text loader of the type of its column from a dumped text
    that the two layouts agree on, [CompositeLoader.load] calls the
    factory with the fields of the tuple; in the binary layout
    [BinaryCompositeLoader.load] does so for the tuples that
    [BinaryRecordLoader] reads back.  On the data [()] the text loader
    calls the factory without arguments, whatever the columns of the type
    are. *)
Theorem composite_loader_roundtrip {Obj : Type}
    (factory : list (option PyObj) -> result Obj) fields_types self_oid obj :
  (obj <> [None] ->
   Forall2 typed_field_ok obj fields_types ->
   exists data,
     TextTupleDumper_dump self_oid obj = Ok (data, self_oid) /\
     CompositeLoader_load factory fields_types data = factory obj) /\
  (Z.of_nat (length obj) < 2 ^ 31 ->
   Forall binary_field_ok obj ->
   exists data,
     BinaryTupleDumper_dump self_oid obj = Ok (data, self_oid) /\
     BinaryCompositeLoader_load factory data = factory obj) /\
  CompositeLoader_load factory fields_types (B "()") = factory [].
Proof.
  split; [|split].
  - intros Hnot Hok.
    destruct (typed_dump_items_spec obj fields_types Hok)
      as (ads & Hd & Hs & Hc & Hnil & Hnull).
    destruct obj as [|item obj].
    + exists (B "()"). split; reflexivity.
    + assert (Hne : ads <> [])
        by (intros ->; specialize (Hnil eq_refl); discriminate).
      exists (LPAREN :: enc_body ads). split.
      * unfold TextTupleDumper_dump. rewrite Hd. cbn [mbind result_bind].
        rewrite dumped_text by exact Hne. reflexivity.
      * unfold CompositeLoader_load, _parse_record.
        rewrite bool_decide_eq_false_2.
        -- pose proof (finditer_body true ads Hne Hs) as Hf.
           cbn [app] in Hf. rewrite Hf, Hc. reflexivity.
        -- intros Heq. apply Hnot, Hnull.
           apply enc_body_single_null; assumption.
  - intros Hn Hok.
    destruct (binary_roundtrip self_oid obj Hn Hok) as (data & Hdump & Hload).
    exists data. split; [exact Hdump|].
    unfold BinaryCompositeLoader_load. rewrite Hload. reflexivity.
  - reflexivity.
Qed.

End Codecs.

(** *** The two layouts on tuples of strings *)

(** Modelled from the spec: the adapters of [str] are not among the
    sources; a string crosses the wire as its bytes in the client
    encoding, in both formats, with the oid of [text], and NULL is dumped
    to [None].  A string is held here as these bytes. *)
Definition str_dump (item : option bytes) (format : Format) : result MaybeOid :=
  Ok (WithOid item TEXT_OID).

Definition str_load_function (oid : Z) (format : Format) (data : bytes)
  : result bytes := Ok data.

Definition sample_tuple : list (option bytes) :=
  [Some (B "a b"); None; Some (QUOTE :: B "x,y"); Some (B "42"); Some []; None].

Lemma composite_roundtrip_witness :
  (exists data,
     TextTupleDumper_dump bytes str_dump TEXT_OID sample_tuple = Ok (data, TEXT_OID) /\
     RecordLoader_load bytes str_load_function data = Ok sample_tuple) /\
  (exists data,
     BinaryTupleDumper_dump bytes str_dump RECORD_OID sample_tuple
       = Ok (data, RECORD_OID) /\
     BinaryRecordLoader_load bytes str_load_function data = Ok sample_tuple).
Proof.
  split.
  - apply (composite_roundtrip bytes str_dump str_load_function TEXT_OID sample_tuple).
    + discriminate.
    + repeat constructor; eexists _, _; repeat split; reflexivity.
  - apply (composite_roundtrip bytes str_dump str_load_function RECORD_OID sample_tuple).
    + vm_compute. reflexivity.
    + repeat constructor; eexists; (split; [reflexivity|]);
        (split; [vm_compute; split; [discriminate | reflexivity]|]);
        try reflexivity; eexists; repeat split; vm_compute; reflexivity.
Defined.

(** C2 as stated fails on [(None,)] in the text layout: its dumped bytes
    are read back as the empty tuple. *)
Lemma text_roundtrip_single_null_fails :
  exists data,
    TextTupleDumper_dump bytes str_dump TEXT_OID [None] = Ok (data, TEXT_OID) /\
    RecordLoader_load bytes str_load_function data = Ok [] /\
    RecordLoader_load bytes str_load_function data <> Ok [None].
Proof. exists (B "()"). repeat split; discriminate. Qed.

(** Two texts outside [text_safe]: the dumper quotes a text with
    backslashes without doubling them, and the loader makes one backslash
    of two; it does not quote a text with a parenthesis, and the loader
    ends the token there. *)
Example two_backslashes_read_back_as_one :
  exists data,
    TextTupleDumper_dump bytes str_dump TEXT_OID [Some (B "a\\b")]
      = Ok (data, TEXT_OID) /\
    data = B "(" ++ [QUOTE] ++ B "a\\b" ++ [QUOTE] ++ B ")" /\
    RecordLoader_load bytes str_load_function data = Ok [Some (B "a\b")].
Proof. eexists. repeat split; reflexivity. Qed.

Example parenthesis_splits_the_field :
  exists data,
    TextTupleDumper_dump bytes str_dump TEXT_OID [Some (B "a)b")]
      = Ok (data, TEXT_OID) /\
    data = B "(a)b)" /\
    RecordLoader_load bytes str_load_function data
      = Ok [Some (B "a"); Some (B "b")].
Proof. eexists. repeat split; reflexivity. Qed.

(** *** Registration of a composite type *)

Record FieldInfo := mkFieldInfo {
  field_name : string;
  type_oid : Z;
}.

Record CompositeTypeInfo := mkCompositeTypeInfo {
  name : string;
  oid : Z;
  array_oid : Z;
  fields : list FieldInfo;
}.

(** The classes that [register] generates with [type(name, bases, dict)]:
    the name, the base class and the attributes set on the subclass. *)
Inductive DumperBase := TextTupleDumper | BinaryTupleDumper.
Inductive LoaderBase := CompositeLoader | BinaryCompositeLoader.

Record DumperClass := mkDumperClass {
  dumper_name : string;
  dumper_base : DumperBase;
  dumper_oid : Z;
  dumper_fields_oids : option (list Z);
}.

Section Register.

(** A class is known by its name; [Factory] is what the loaders call to
    build the Python object, and [namedtuple] makes one from the name of
    the type and the names of its fields (it raises on names that are not
    identifiers). *)
Variable Factory : Type.
Variable namedtuple : string -> list string -> result Factory.
(** [str.title] *)
Variable title : string -> string.

Record LoaderClass := mkLoaderClass {
  loader_name : string;
  loader_base : LoaderBase;
  loader_factory : Factory;
  loader_fields_types : option (list Z);
}.

(** The adaptation context a registration goes to: [None] is the global
    one, a connection or a cursor has its own.  Modelled from the spec:
    [array.register] is not among the sources; what it is called with is
    recorded in [arrays]. *)
Record Context := mkContext {
  dumpers : gmap (string * Format) DumperClass;
  loaders : gmap (Z * Format) LoaderClass;
  arrays : list (Z * Z * string);
}.

Definition Dumper_register (cls : string) (dumper : DumperClass) (format : Format)
    (context : Context) : Context :=
  {| dumpers := adapt.register (cls, format) dumper (dumpers context);
     loaders := loaders context;
     arrays := arrays context |}.

Definition Loader_register (oid : Z) (loader : LoaderClass) (format : Format)
    (context : Context) : Context :=
  {| dumpers := dumpers context;
     loaders := adapt.register (oid, format) loader (loaders context);
     arrays := arrays context |}.

Definition array_register (array_oid base_oid : Z) (name : string)
    (context : Context) : Context :=
  {| dumpers := dumpers context;
     loaders := loaders context;
     arrays := arrays context ++ [(array_oid, base_oid, name)] |}.

Definition register_dumpers (info : CompositeTypeInfo) (cls : option string)
    (context : Context) : Context :=
  match cls with
  | Some cls =>
    let dumper :=
      mkDumperClass ("Text" ++ title (name info) ++ "Dumper") TextTupleDumper
        (oid info) None in
    let context := Dumper_register cls dumper BINARY context in
    let dumper :=
      mkDumperClass ("Binary" ++ title (name info) ++ "Dumper") BinaryTupleDumper
        (oid info) (Some (type_oid <$> fields info)) in
    Dumper_register cls dumper BINARY context
  | None => context
  end.

(** [register(info, context, cls, factory)]: the context after the call,
    also when [namedtuple] raised after the dumpers were registered. *)
Definition register (info : CompositeTypeInfo) (context : Context)
    (cls : option string) (factory : option Factory) : Context * result unit :=
  let context := register_dumpers info cls context in
  match (match factory with
         | Some f => Ok f
         | None => namedtuple (name info) (field_name <$> fields info)
         end) with
  | Raise e => (context, Raise e)
  | Ok factory =>
    let loader :=
      mkLoaderClass (title (name info) ++ "Loader") CompositeLoader factory
        (Some (type_oid <$> fields info)) in
    let context := Loader_register (oid info) loader TEXT context in
    let loader :=
      mkLoaderClass ("Binary" ++ title (name info) ++ "Loader")
        BinaryCompositeLoader factory None in
    let context := Loader_register (oid info) loader BINARY context in
    if bool_decide (array_oid info <> 0) then
      (array_register (array_oid info) (oid info) (name info) context, Ok tt)
    else (context, Ok tt)
  end.

(** C3, as the code has it: [register] installs the text and the binary
    loader for [info.oid], both built on the factory, and records the array
    registration when [info.array_oid] is not zero.  For a class it
    registers both generated dumpers under the BINARY format, the text one
    first and the binary one over it: the entry of the class under TEXT is
    the one the context had before, and the binary dumper is the one left
    under BINARY. *)
Theorem register_installs info context cls factory fac :
  match factory with
  | Some f => Ok f
  | None => namedtuple (name info) (field_name <$> fields info)
  end = Ok fac ->
  exists context',
    register info context cls factory = (context', Ok tt) /\
    (fun l => (loader_base l, loader_factory l)) <$> loaders context' !! (oid info, TEXT)
      = Some (CompositeLoader, fac) /\
    (fun l => (loader_base l, loader_factory l)) <$> loaders context' !! (oid info, BINARY)
      = Some (BinaryCompositeLoader, fac) /\
    arrays context' =
      (if bool_decide (array_oid info <> 0)
       then arrays context ++ [(array_oid info, oid info, name info)]
       else arrays context) /\
    forall c, cls = Some c ->
      dumper_base <$> dumpers context' !! (c, BINARY) = Some BinaryTupleDumper /\
      dumpers context' !! (c, TEXT) = dumpers context !! (c, TEXT).
Proof.
  intros Hfac. unfold register. rewrite Hfac.
  destruct (bool_decide (array_oid info <> 0)); eexists;
    (split; [reflexivity|]); destruct cls as [c'|]; simpl; unfold adapt.register;
    (split; [rewrite lookup_insert_ne by congruence;
             rewrite lookup_insert_eq; reflexivity|]);
    (split; [rewrite lookup_insert_eq; reflexivity|]);
    (split; [reflexivity|]);
    intros c [= <-]; simpl;
    (split; [rewrite lookup_insert_eq; reflexivity|]);
    rewrite !lookup_insert_ne by congruence; reflexivity.
Qed.

(** [register] writes the entries of the class and of the type and no
    other: a dumper under a key other than the class with BINARY is what
    the context had, and so is a loader of an oid that is neither
    [info.oid] nor [info.array_oid] (the oid that [array.register], which
    is not among the sources, is called with; what it leaves under that oid
    is not stated here); without a class no dumper changes at all.  This
    holds also when the call raises. *)
Theorem register_frame info context cls factory :
  (forall key, (forall c, cls = Some c -> key <> (c, BINARY)) ->
     dumpers (register info context cls factory).1 !! key
       = dumpers context !! key) /\
  (forall o f, o <> oid info -> o <> array_oid info ->
     loaders (register info context cls factory).1 !! (o, f)
       = loaders context !! (o, f)) /\
  (cls = None -> dumpers (register info context cls factory).1 = dumpers context).
Proof.
  unfold register.
  destruct (match factory with
            | Some f => Ok f
            | None => namedtuple (name info) (field_name <$> fields info)
            end) as [fac|e];
    [destruct (bool_decide (array_oid info <> 0))|];
    (split; [|split]);
    try (intros key Hkey; destruct cls as [c|]; cbn; [|reflexivity];
         unfold adapt.register;
         rewrite !lookup_insert_ne by (intros Heq; apply (Hkey c eq_refl); congruence);
         reflexivity);
    try (intros o f Ho _; destruct cls as [c|]; cbn; unfold adapt.register;
         rewrite ?lookup_insert_ne by congruence; reflexivity);
    intros ->; reflexivity.
Qed.

(** When no factory is given and [namedtuple] raises (on names of fields
    that it refuses), the exception leaves [register] after the dumpers of
    the class were registered: no loader and no array is registered, and
    the class has its binary dumper all the same. *)
Theorem register_factory_error info context cls e :
  namedtuple (name info) (field_name <$> fields info) = Raise e ->
  register info context cls None = (register_dumpers info cls context, Raise e) /\
  loaders (register_dumpers info cls context) = loaders context /\
  arrays (register_dumpers info cls context) = arrays context /\
  forall c, cls = Some c ->
    dumper_base <$> dumpers (register_dumpers info cls context) !! (c, BINARY)
      = Some BinaryTupleDumper.
Proof.
  intros Hnt. unfold register. rewrite Hnt.
  split; [reflexivity|]. destruct cls as [c'|]; cbn.
  - repeat split. intros c [= <-]. unfold adapt.register.
    rewrite lookup_insert_eq. reflexivity.
  - repeat split. intros c [=].
Qed.

End Register.

(** The registration of [point(x int4, y int4)] for a class [Point] in an
    empty context leaves no dumper for [Point] under TEXT. *)
Definition point_info : CompositeTypeInfo :=
  mkCompositeTypeInfo "point" 16400 16399
    [mkFieldInfo "x" INT4_OID; mkFieldInfo "y" INT4_OID].

Definition empty_context : Context unit := mkContext unit ∅ ∅ [].

Lemma register_installs_witness :
  exists context',
    register unit (fun _ _ => Ok tt) (fun s => s) point_info empty_context
      (Some "Point"%string) (Some tt) = (context', Ok tt) /\
    dumper_base <$> dumpers unit context' !! ("Point"%string, BINARY)
      = Some BinaryTupleDumper /\
    dumpers unit context' !! ("Point"%string, TEXT) = None.
Proof.
  destruct (register_installs unit (fun _ _ => Ok tt) (fun s => s) point_info
              empty_context (Some "Point"%string) (Some tt) tt eq_refl)
    as (context' & Hreg & _ & _ & _ & Hd).
  exists context'. split; [exact Hreg|].
  destruct (Hd "Point"%string eq_refl) as [Hb Ht].
  split; [exact Hb|]. rewrite Ht. reflexivity.
Defined.

(** *** The catalogue row of a composite type *)

(** [CompositeTypeInfo._from_record]: the row that [_type_info_query]
    returns for the type (its name, oid, array oid, and the names and the
    type oids of its attributes), or [None] when it returns no row. *)
Definition _from_record (rec : option (string * Z * Z * list string * list Z))
  : option CompositeTypeInfo :=
  match rec with
  | None => None
  | Some (name, oid, array_oid, fnames, ftypes) =>
    let fields := (fun p => mkFieldInfo p.1 p.2) <$> zip fnames ftypes in
    Some (mkCompositeTypeInfo name oid array_oid fields)
  end.

Lemma zip_names_types (fnames : list string) (ftypes : list Z) :
  field_name <$> ((fun p => mkFieldInfo p.1 p.2) <$> zip fnames ftypes)
    = take (length ftypes) fnames /\
  type_oid <$> ((fun p => mkFieldInfo p.1 p.2) <$> zip fnames ftypes)
    = take (length fnames) ftypes.
Proof.
  revert ftypes. induction fnames as [|n fnames IH]; intros [|t ftypes];
    cbn; try (split; reflexivity).
  destruct (IH ftypes) as [H1 H2]. rewrite H1, H2. split; reflexivity.
Qed.

(** [_from_record] gives no info for no row, and for a row an info with
    the name and the oids of the row whose fields pair the names with the
    type oids in order: as many fields as the shorter of the two lists
    has, what is left of the longer one being dropped without an error. *)
Theorem from_record_fields name oid array_oid fnames ftypes :
  _from_record None = None /\
  exists info,
    _from_record (Some (name, oid, array_oid, fnames, ftypes)) = Some info /\
    composite.name info = name /\ composite.oid info = oid /\
    composite.array_oid info = array_oid /\
    field_name <$> fields info = take (length ftypes) fnames /\
    type_oid <$> fields info = take (length fnames) ftypes /\
    length (fields info) = Nat.min (length fnames) (length ftypes).
Proof.
  split; [reflexivity|]. eexists. split; [reflexivity|].
  cbn [composite.name composite.oid composite.array_oid fields].
  destruct (zip_names_types fnames ftypes) as [H1 H2].
  repeat split; [exact H1 | exact H2 |].
  rewrite length_fmap, length_zip_with. reflexivity.
Qed.

(** *** The loader object on two records *)

(** A Transformer whose objects carry the oid they were loaded with. *)
Definition tagged_load_function (oid : Z) (format : Format) (data : bytes)
  : result (Z * bytes) := Ok (oid, data).

(** A record with one int4 field, and a record with one text field. *)
Definition int4_record : bytes :=
  struct.pack_be 4 1 ++ struct.pack_be 4 INT4_OID ++ struct.pack_be 4 4 ++
  struct.pack_be 4 1.

Definition text_record : bytes :=
  struct.pack_be 4 1 ++ struct.pack_be 4 TEXT_OID ++ struct.pack_be 4 2 ++ B "hi".

Lemma binary_loader_types_set_once_witness :
  exists self1,
    BinaryRecordLoader_load_self (Z * bytes) tagged_load_function
      (mkLoaderObject (Z * bytes) false []) int4_record
      = (self1, Ok [Some (INT4_OID, struct.pack_be 4 1)]) /\
    BinaryRecordLoader_load_self (Z * bytes) tagged_load_function
      self1 text_record
      = (self1, Ok [Some (INT4_OID, B "hi")]).
Proof.
  destruct (binary_loader_types_set_once (Z * bytes) tagged_load_function
              (mkLoaderObject (Z * bytes) false []) int4_record eq_refl)
    as [_ Hok].
  destruct (Hok [(INT4_OID, 12, 4)] eq_refl) as [H1 H2].
  eexists. split; [rewrite H1; reflexivity|].
  rewrite (H2 text_record [(TEXT_OID, 12, 2)] eq_refl). reflexivity.
Defined.

(** A record of two fields, an int4 and a NULL of type text. *)
Definition two_field_record : bytes :=
  struct.pack_be 4 2 ++
  struct.pack_be 4 INT4_OID ++ struct.pack_be 4 4 ++ struct.pack_be 4 7 ++
  struct.pack_be 4 TEXT_OID ++ struct.pack_be 4 (-1).

Lemma walk_record_layout_witness :
  _walk_record two_field_record = Ok [(INT4_OID, 12, 4); (TEXT_OID, 24, -1)] /\
  exists nfields,
    _struct_len_unpack_from two_field_record 0 = Ok nfields /\
    length [(INT4_OID, 12, 4); (TEXT_OID, 24, -1)] = Z.to_nat nfields /\
    offsets_from 4 [(INT4_OID, 12, 4); (TEXT_OID, 24, -1)] /\
    Forall (fun '(oid, offset, len) =>
              0 <= oid < 2 ^ 32 /\ - 2 ^ 31 <= len < 2 ^ 31 /\
              12 <= offset <= Z.of_nat (length two_field_record))
           [(INT4_OID, 12, 4); (TEXT_OID, 24, -1)].
Proof.
  split; [reflexivity|].
  apply (walk_record_layout two_field_record). reflexivity.
Defined.

Lemma binary_load_ignores_trailing_witness :
  BinaryRecordLoader_load (Z * bytes) tagged_load_function
    (two_field_record ++ B "junk")
  = BinaryRecordLoader_load (Z * bytes) tagged_load_function two_field_record.
Proof.
  apply (binary_load_ignores_trailing (Z * bytes) tagged_load_function
           two_field_record (B "junk") [(INT4_OID, 12, 4); (TEXT_OID, 24, -1)]).
  - reflexivity.
  - constructor; [right; vm_compute; split; discriminate|].
    constructor; [left; reflexivity | constructor].
Defined.

(** A [namedtuple] that refuses the keyword [class] as the name of a
    field, and a type with such an attribute. *)
Definition namedtuple_no_keyword (typename : string) (field_names : list string)
  : result unit :=
  if bool_decide ("class"%string ∈ field_names)
  then Raise (mkExc ValueError
                "Type names and field names cannot be a keyword: 'class'")
  else Ok tt.

Definition lesson_info : CompositeTypeInfo :=
  mkCompositeTypeInfo "lesson" 16500 0
    [mkFieldInfo "class" TEXT_OID; mkFieldInfo "room" INT4_OID].

Lemma register_factory_error_witness :
  exists e,
    register unit namedtuple_no_keyword (fun s => s) lesson_info empty_context
      (Some "Lesson"%string) None
    = (register_dumpers unit (fun s => s) lesson_info (Some "Lesson"%string)
         empty_context, Raise e) /\
    loaders unit (register_dumpers unit (fun s => s) lesson_info
                    (Some "Lesson"%string) empty_context) = ∅ /\
    dumper_base <$>
      dumpers unit (register_dumpers unit (fun s => s) lesson_info
                      (Some "Lesson"%string) empty_context)
        !! ("Lesson"%string, BINARY)
    = Some BinaryTupleDumper.
Proof.
  eexists.
  destruct (register_factory_error unit namedtuple_no_keyword (fun s => s)
              lesson_info empty_context (Some "Lesson"%string) _ eq_refl)
    as (Hreg & Hl & _ & Hd).
  split; [exact Hreg|]. split; [exact Hl|]. apply Hd. reflexivity.
Defined.

(** A Transformer that dumps an object with the oid it carries, and [None]
    without an oid. *)
Definition tagged_dump (item : option (Z * bytes)) (format : Format)
  : result MaybeOid :=
  Ok (match item with
      | Some (oid, data) => WithOid (Some data) oid
      | None => Bare None
      end).

Lemma binary_dump_layout_witness :
  BinaryTupleDumper_dump (Z * bytes) tagged_dump RECORD_OID
    [Some (INT4_OID, struct.pack_be 4 7); None]
  = Ok (two_field_record, RECORD_OID) /\
  exists fields,
    _walk_record two_field_record = Ok fields /\
    Forall2 (binary_dumped (Z * bytes) tagged_dump two_field_record)
      [Some (INT4_OID, struct.pack_be 4 7); None] fields.
Proof.
  split; [reflexivity|].
  apply (binary_dump_layout (Z * bytes) tagged_dump RECORD_OID
           [Some (INT4_OID, struct.pack_be 4 7); None] two_field_record RECORD_OID).
  reflexivity.
Defined.

(** A tuple of an int4, a NULL and a text, for a type with these columns. *)
Definition typed_tuple : list (option (Z * bytes)) :=
  [Some (INT4_OID, B "42"); None; Some (TEXT_OID, B "a b")].

Lemma composite_loader_roundtrip_witness :
  (exists data,
     TextTupleDumper_dump (Z * bytes) tagged_dump 16400 typed_tuple
       = Ok (data, 16400) /\
     CompositeLoader_load (Z * bytes) tagged_load_function Ok
       [INT4_OID; TEXT_OID; TEXT_OID] data = Ok typed_tuple) /\
  (exists data,
     BinaryTupleDumper_dump (Z * bytes) tagged_dump 16400 typed_tuple
       = Ok (data, 16400) /\
     BinaryCompositeLoader_load (Z * bytes) tagged_load_function Ok data
       = Ok typed_tuple).
Proof.
  destruct (composite_loader_roundtrip (Z * bytes) tagged_dump
              tagged_load_function Ok [INT4_OID; TEXT_OID; TEXT_OID] 16400
              typed_tuple) as (Htext & Hbinary & _).
  split.
  - apply Htext; [discriminate|].
    repeat constructor; eexists _, _; repeat split; reflexivity.
  - apply Hbinary; [vm_compute; reflexivity|].
    constructor; [|constructor; [|constructor; [|constructor]]].
    + eexists. split; [reflexivity|]. split; [vm_compute; split; [discriminate|reflexivity]|].
      eexists. split; [reflexivity|]. split; [vm_compute; reflexivity | reflexivity].
    + eexists. split; [reflexivity|]. split; [vm_compute; split; [discriminate|reflexivity]|].
      reflexivity.
    + eexists. split; [reflexivity|]. split; [vm_compute; split; [discriminate|reflexivity]|].
      eexists. split; [reflexivity|]. split; [vm_compute; reflexivity | reflexivity].
Defined.

Lemma text_dump_shape_witness :
  TextTupleDumper_dump (Z * bytes) tagged_dump 16400 typed_tuple
    = Ok (B "(42,," ++ [QUOTE] ++ B "a b" ++ [QUOTE] ++ B ")", 16400) /\
  exists body,
    B "(42,," ++ [QUOTE] ++ B "a b" ++ [QUOTE] ++ B ")" = LPAREN :: body ++ [RPAREN].
Proof.
  split; [reflexivity|].
  apply (proj1 (text_dump_shape (Z * bytes) tagged_dump 16400 typed_tuple)
           (B "(42,," ++ [QUOTE] ++ B "a b" ++ [QUOTE] ++ B ")") 16400 eq_refl).
Defined.

Lemma record_loader_token_count_witness :
  RecordLoader_load (Z * bytes) tagged_load_function (B "no end in sight") = Ok [].
Proof.
  apply (record_loader_token_count (Z * bytes) tagged_load_function
           (B "no end in sight")).
  reflexivity.
Defined.

End composite.

(** ** exceptions *)

Module exceptions.

(** Modelled from the spec: [exceptions.class_for_state] is not among the
    sources.  The spec names two entries of its table, 23505 for
    UniqueViolation and 40001 for SerializationFailure, and DatabaseError
    as the class of every code the table does not have. *)
Definition class_for_state (sqlstate : option bytes) : ExcClass :=
  match sqlstate with
  | Some code =>
    if bool_decide (code = B "23505") then UniqueViolation
    else if bool_decide (code = B "40001") then SerializationFailure
    else DatabaseError
  | None => DatabaseError
  end.

End exceptions.

(** ** cursor.py *)

Module cursor.

(** [Query = Union[str, bytes]] and [Params = Union[Sequence, Mapping]]. *)
Inductive Query :=
| QStr (s : string)
| QBytes (b : bytes).

Inductive Params (PyObj : Type) :=
| PSeq (l : list PyObj)
| PMap (m : list (string * PyObj)).
Arguments PSeq {PyObj} l.
Arguments PMap {PyObj} m.

(** Python truth value of [vars]: [None], an empty sequence and an empty
    mapping are false. *)
Definition truthy {PyObj} (vars : option (Params PyObj)) : bool :=
  match vars with
  | None => false
  | Some (PSeq l) => negb (bool_decide (l = []))
  | Some (PMap m) => negb (bool_decide (m = []))
  end.

(** What [pgconn] is asked to send. *)
Inductive Packet :=
| send_query (command : bytes)
| send_query_params (command : bytes) (params : list (option bytes))
    (param_formats : list Format) (param_types : list Z)
    (result_format : Format).

(** The statuses [_execute_results] accepts, and the COPY ones. *)
Definition ok_statuses : list ExecStatus := [TUPLES_OK; COMMAND_OK; EMPTY_QUERY].
Definition copy_statuses : list ExecStatus := [COPY_IN; COPY_OUT; COPY_BOTH].

Definition string_le (a b : string) : Prop := Is_true (String.leb a b).

#[global] Instance string_le_dec a b : Decision (string_le a b).
Proof. unfold string_le. apply _. Defined.

(** [', '.join(names)] *)
Fixpoint join_comma (names : list string) : string :=
  match names with
  | [] => ""
  | [n] => n
  | n :: rest => n ++ ", " ++ join_comma rest
  end%string.

(** Whether [needle] occurs in [s]. *)
Definition mentions (needle s : string) : bool :=
  bool_decide (is_Some (String.index 0 needle s)).

Section Cursor.

(** The collaborators of [cursor.py] that live in other modules: the
    connection's codec, [utils.queries], [exceptions], [pq.misc] and the
    [Transformer] of [adaptation]. *)
Variable PyObj : Type.
Variable Transformer : Type.
Variable Transformer_new : Transformer.
Variable codec_encode : string -> result bytes.
Variable query2pg :
  bytes -> Params PyObj -> result (bytes * list Format * option (list string)).
Variable reorder_params :
  list (string * PyObj) -> list string -> result (list PyObj).
Variable adapt_sequence :
  Transformer -> list PyObj -> list Format ->
  Transformer * result (list (option bytes) * list Z).
Variable cast_row :
  Transformer -> PGresult -> Z -> Transformer * result (list PyObj).
Variable class_for_state : option bytes -> ExcClass.
Variable error_message : PGresult -> string.

Record BaseCursor := mkCursor {
  binary : bool;
  _results : list PGresult;
  _result : option PGresult;
  _pos : Z;
  _iresult : Z;
  _transformer : Transformer;
}.

Definition _reset (self : BaseCursor) : BaseCursor :=
  {| binary := binary self;
     _results := [];
     _result := None;
     _pos := 0;
     _iresult := 0;
     _transformer := Transformer_new |}.

Definition set_transformer (self : BaseCursor) (tx : Transformer) : BaseCursor :=
  {| binary := binary self;
     _results := _results self;
     _result := _result self;
     _pos := _pos self;
     _iresult := _iresult self;
     _transformer := tx |}.

Definition set_pos (self : BaseCursor) (pos : Z) : BaseCursor :=
  {| binary := binary self;
     _results := _results self;
     _result := _result self;
     _pos := pos;
     _iresult := _iresult self;
     _transformer := _transformer self |}.

(** [codec.encode(query)[0]] for a [str] query. *)
Definition encode_query (query : Query) : result bytes :=
  match query with QStr s => codec_encode s | QBytes b => Ok b end.

(** [_execute_send]: the cursor is reset first, so it is reset also when a
    later step raises; the second component is the packet sent to
    [pgconn], or the exception. *)
Definition _execute_send (self : BaseCursor) (query : Query)
    (vars : option (Params PyObj)) : BaseCursor * result Packet :=
  let self := _reset self in
  match encode_query query with
  | Raise e => (self, Raise e)
  | Ok query =>
    match (match vars with
           | Some v => query2pg query v
           | None => Ok (query, [], None)
           end) with
    | Raise e => (self, Raise e)
    | Ok (query, formats, order) =>
      if truthy vars then
        match (match order, vars with
               | Some order, Some (PMap m) => reorder_params m order
               | Some _, _ =>
                   Raise (mkExc AssertionError "")
               | None, Some (PSeq l) => Ok l
               | None, _ => Raise (mkExc AssertionError "")
               end) with
        | Raise e => (self, Raise e)
        | Ok vars =>
          match adapt_sequence (_transformer self) vars formats with
          | (tx, Raise e) => (set_transformer self tx, Raise e)
          | (tx, Ok (params, types)) =>
            (set_transformer self tx,
             Ok (send_query_params query params formats types
                   (Format_of_bool (binary self))))
          end
        end
      else (self, Ok (send_query query))
    end
  end.

(** [{res.status for res in results} - {TUPLES_OK, COMMAND_OK, EMPTY_QUERY}] *)
Definition badstats (results : list PGresult) : list ExecStatus :=
  list_difference (remove_dups (status <$> results)) ok_statuses.

Definition unexpected_status_message (bad : list ExecStatus) : string :=
  ("got unexpected status from query: " ++
   join_comma (merge_sort string_le (ExecStatus_name <$> bad)))%string.

Definition _execute_results (self : BaseCursor) (results : list PGresult)
  : BaseCursor * result unit :=
  match results with
  | [] => (self, Raise (mkExc InternalError "got no result from the query"))
  | r0 :: _ =>
    let rlast := default r0 (last results) in
    let badstats := badstats results in
    if bool_decide (badstats = []) then
      ({| binary := binary self;
          _results := results;
          _result := Some r0;
          _pos := _pos self;
          _iresult := _iresult self;
          _transformer := _transformer self |}, Ok tt)
    else if bool_decide (status rlast = FATAL_ERROR) then
      (self, Raise (mkExc (class_for_state (sqlstate rlast)) (error_message rlast)))
    else if negb (bool_decide (list_intersection badstats copy_statuses = [])) then
      (self, Raise (mkExc ProgrammingError
                      "COPY cannot be used with execute(); use copy() insead"))
    else
      (self, Raise (mkExc InternalError (unexpected_status_message badstats)))
  end.

Definition nextset (self : BaseCursor) : BaseCursor * option bool :=
  let i := _iresult self + 1 in
  let self := {| binary := binary self;
                 _results := _results self;
                 _result := _result self;
                 _pos := _pos self;
                 _iresult := i;
                 _transformer := _transformer self |} in
  if i <? Z.of_nat (length (_results self)) then
    ({| binary := binary self;
        _results := _results self;
        _result := _results self !! Z.to_nat i;
        _pos := 0;
        _iresult := i;
        _transformer := _transformer self |}, Some true)
  else (self, None).

Definition _cast_row (self : BaseCursor) (n : Z)
  : BaseCursor * result (option (list PyObj)) :=
  match _result self with
  | None => (self, Ok None)
  | Some res =>
    if n >=? ntuples res then (self, Ok None)
    else
      match cast_row (_transformer self) res n with
      | (tx, Ok row) => (set_transformer self tx, Ok (Some row))
      | (tx, Raise e) => (set_transformer self tx, Raise e)
      end
  end.

Definition fetchone (self : BaseCursor)
  : BaseCursor * result (option (list PyObj)) :=
  match _cast_row self (_pos self) with
  | (self, Ok (Some rv)) => (set_pos self (_pos self + 1), Ok (Some rv))
  | (self, Ok None) => (self, Ok None)
  | (self, Raise e) => (self, Raise e)
  end.

(** [Cursor.execute]: [wait] stands for driving the generator of
    [_exec_gen] to its results. *)
Definition execute (wait : Packet -> result (list PGresult))
    (self : BaseCursor) (query : Query) (vars : option (Params PyObj))
  : BaseCursor * result unit :=
  match _execute_send self query vars with
  | (self, Raise e) => (self, Raise e)
  | (self, Ok gen) =>
    match wait gen with
    | Raise e => (self, Raise e)
    | Ok results => _execute_results self results
    end
  end.

(** *** Properties of the cursor *)


Ltac solve_not_elem :=
  let H := fresh in
  intros H; repeat (apply elem_of_cons in H as [H|H]; [discriminate|]);
  apply elem_of_nil in H; exact H.

Lemma badstats_elem s results :
  s ∈ badstats results <-> s ∈ status <$> results /\ s ∉ ok_statuses.
Proof.
  unfold badstats. rewrite list_elem_of_difference, elem_of_remove_dups.
  reflexivity.
Qed.

Lemma last_status_elem results (rlast : PGresult) :
  last results = Some rlast -> status rlast ∈ status <$> results.
Proof.
  intros H. apply list_elem_of_fmap. exists rlast. split; [reflexivity|].
  apply last_Some in H as [l' ->]. apply elem_of_app. right.
  apply list_elem_of_singleton. reflexivity.
Qed.

Lemma execute_send_resets self query vars :
  _results (fst (_execute_send self query vars)) = [].
Proof.
  unfold _execute_send.
  repeat (match goal with
          | |- context [match ?x with _ => _ end] => destruct x
          end; simpl; try reflexivity).
Qed.

Lemma execute_results_nonempty_bad self results rlast :
  last results = Some rlast ->
  badstats results <> [] ->
  _execute_results self results =
    if bool_decide (status rlast = FATAL_ERROR) then
      (self, Raise (mkExc (class_for_state (sqlstate rlast)) (error_message rlast)))
    else if negb (bool_decide (list_intersection (badstats results) copy_statuses = [])) then
      (self, Raise (mkExc ProgrammingError
                      "COPY cannot be used with execute(); use copy() insead"))
    else
      (self, Raise (mkExc InternalError (unexpected_status_message (badstats results)))).
Proof.
  intros Hlast Hbad. unfold _execute_results.
  destruct results as [|r0 rest]; [discriminate|].
  rewrite Hlast. simpl default.
  rewrite bool_decide_eq_false_2 by exact Hbad. reflexivity.
Qed.

(** C4: when the last result of a non-empty list is FATAL_ERROR,
    [_execute_results] raises the class that [class_for_state] gives for the
    SQLSTATE field of that last result, with the result's error message,
    and leaves the cursor as it was.  Nothing is asked of the other
    results, so the branch is taken also when one of them has a COPY
    status. *)
Theorem execute_results_fatal_error self results rlast :
  last results = Some rlast ->
  status rlast = FATAL_ERROR ->
  _execute_results self results =
    (self, Raise (mkExc (class_for_state (sqlstate rlast)) (error_message rlast))).
Proof.
  intros Hlast Hst.
  rewrite (execute_results_nonempty_bad _ _ _ Hlast).
  - rewrite bool_decide_eq_true_2 by exact Hst. reflexivity.
  - intros Hnil.
    assert (Hin : FATAL_ERROR ∈ badstats results).
    { apply badstats_elem. split.
      - rewrite <- Hst. apply last_status_elem, Hlast.
      - solve_not_elem. }
    rewrite Hnil in Hin. apply elem_of_nil in Hin. exact Hin.
Qed.

(** C5: when some result has a COPY status and the last result is not
    FATAL_ERROR, [_execute_results] raises ProgrammingError with a message
    that mentions [copy()] and does not touch the cursor; inside [execute]
    the cursor was reset by [_execute_send], so its stored results are
    still empty afterwards. *)
Theorem execute_results_copy self results rlast s :
  last results = Some rlast ->
  status rlast <> FATAL_ERROR ->
  s ∈ copy_statuses ->
  s ∈ status <$> results ->
  exists msg,
    _execute_results self results = (self, Raise (mkExc ProgrammingError msg)) /\
    mentions "copy()" msg = true /\
    forall wait query vars self' gen,
      _execute_send self query vars = (self', Ok gen) ->
      wait gen = Ok results ->
      execute wait self query vars = (self', Raise (mkExc ProgrammingError msg)) /\
      _results self' = [] /\ _result self' = None.
Proof.
  intros Hlast Hst Hcopy Hin.
  assert (Hbad : s ∈ badstats results).
  { apply badstats_elem. split; [exact Hin|].
    unfold copy_statuses in Hcopy.
    rewrite !elem_of_cons, elem_of_nil in Hcopy.
    destruct Hcopy as [->|[->|[->|[]]]]; solve_not_elem. }
  assert (Hres : forall c, _execute_results c results =
            (c, Raise (mkExc ProgrammingError
                         "COPY cannot be used with execute(); use copy() insead"))).
  { intros c. rewrite (execute_results_nonempty_bad _ _ _ Hlast).
    - rewrite bool_decide_eq_false_2 by exact Hst.
      rewrite bool_decide_eq_false_2; [reflexivity|].
      intros Hnil.
      assert (Hi : s ∈ list_intersection (badstats results) copy_statuses)
        by (apply list_elem_of_intersection; split; assumption).
      rewrite Hnil in Hi. apply elem_of_nil in Hi. exact Hi.
    - intros Hnil. rewrite Hnil in Hbad. apply elem_of_nil in Hbad. exact Hbad. }
  eexists. split; [apply Hres|]. split; [vm_compute; reflexivity|].
  intros wait query vars self' gen Hsend Hwait.
  unfold execute. rewrite Hsend, Hwait. split; [apply Hres|].
  pose proof (execute_send_resets self query vars) as Hr.
  rewrite Hsend in Hr. simpl in Hr. split; [exact Hr|].
  revert Hsend. unfold _execute_send.
  repeat (match goal with
          | |- context [match ?x with _ => _ end] => destruct x
          end; simpl; try (intros [= <- _]; reflexivity); try discriminate).
Qed.

(** C7: a call of [fetchone] that raises leaves [_pos] as it was, and a
    decoding error of the Transformer for the row at the current position
    is such a call; the position moves, by one, exactly when a row is
    returned. *)
Theorem fetchone_error_keeps_position self :
  (forall self' e, fetchone self = (self', Raise e) -> _pos self' = _pos self) /\
  (forall res tx e,
      _result self = Some res -> _pos self < ntuples res ->
      cast_row (_transformer self) res (_pos self) = (tx, Raise e) ->
      fetchone self = (set_transformer self tx, Raise e)) /\
  (forall self' rv, fetchone self = (self', Ok rv) ->
      _pos self' = if rv is Some _ then _pos self + 1 else _pos self).
Proof.
  unfold fetchone, _cast_row. repeat split.
  - intros self' e.
    destruct (_result self) as [res|]; [|discriminate].
    destruct (_pos self >=? ntuples res); [discriminate|].
    destruct (cast_row _ _ _) as [tx [row|e']]; [discriminate|].
    intros [= <- _]. reflexivity.
  - intros res tx e -> Hlt Hcast.
    destruct (Z.geb_spec (_pos self) (ntuples res)) as [Hge|_]; [lia|].
    rewrite Hcast. reflexivity.
  - intros self' rv.
    destruct (_result self) as [res|]; [|intros [= <- <-]; reflexivity].
    destruct (_pos self >=? ntuples res); [intros [= <- <-]; reflexivity|].
    destruct (cast_row _ _ _) as [tx [row|e']]; [|discriminate].
    intros [= <- <-]. reflexivity.
Qed.


(** C9: without a current result, or with the position at or past the
    number of tuples of the current result, [fetchone] returns [None]
    without raising and hands the cursor back as it was (position and
    Transformer included: the row decoder is not called). *)
Theorem fetchone_exhausted self :
  (_result self = None \/
   exists res, _result self = Some res /\ ntuples res <= _pos self) ->
  fetchone self = (self, Ok None).
Proof.
  unfold fetchone, _cast_row. intros [-> | (res & -> & Hle)]; [reflexivity|].
  destruct (Z.geb_spec (_pos self) (ntuples res)) as [_|Hlt]; [reflexivity|lia].
Qed.

(** *** What [_execute_results] accepts and stores *)

Lemma badstats_nil results :
  badstats results = [] <-> Forall (fun r => status r ∈ ok_statuses) results.
Proof.
  rewrite Forall_forall. split.
  - intros Hnil r Hr.
    destruct (decide (status r ∈ ok_statuses)) as [Hok|Hbad]; [exact Hok|].
    exfalso. assert (Hin : status r ∈ badstats results).
    { apply badstats_elem. split; [|exact Hbad].
      apply list_elem_of_fmap. exists r. split; [reflexivity | exact Hr]. }
    rewrite Hnil in Hin. apply elem_of_nil in Hin. exact Hin.
  - intros Hall. destruct (badstats results) as [|s bad] eqn:Hbad; [reflexivity|].
    exfalso. assert (Hin : s ∈ badstats results) by (rewrite Hbad; left).
    apply badstats_elem in Hin as [Hin Hnot].
    apply list_elem_of_fmap in Hin as (r & -> & Hr).
    apply Hnot, Hall, Hr.
Qed.

(** [_execute_results] returns exactly on a list of results that is not
    empty and whose statuses are all TUPLES_OK, COMMAND_OK or EMPTY_QUERY;
    it then stores the list and makes its first result the current one,
    and touches nothing else (the position was reset by [_execute_send]).
    When it raises, the cursor is as it was. *)
Theorem execute_results_stores self results :
  ((exists self', _execute_results self results = (self', Ok tt)) <->
   results <> [] /\ Forall (fun r => status r ∈ ok_statuses) results) /\
  (forall self' r, _execute_results self results = (self', r) ->
     match r with
     | Ok _ =>
       _results self' = results /\ _result self' = head results /\
       _pos self' = _pos self /\ _iresult self' = _iresult self /\
       _transformer self' = _transformer self /\ binary self' = binary self
     | Raise _ => self' = self
     end).
Proof.
  unfold _execute_results. destruct results as [|r0 rest].
  - split.
    + split; [intros (self' & [=]) | intros [Hne _]; congruence].
    + intros self' r [= <- <-]. reflexivity.
  - pose proof (badstats_nil (r0 :: rest)) as Hnil.
    cbv zeta. case_bool_decide as Hbad.
    + split.
      * split; [intros _; split; [discriminate | apply Hnil, Hbad]|].
        intros _. eexists. reflexivity.
      * intros self' r [= <- <-]. repeat split.
    + split.
      * split; [|intros [_ Hall]; apply Hnil in Hall; contradiction].
        intros (self' & Hres). exfalso. revert Hres.
        repeat (case_bool_decide || cbn [negb]); discriminate.
      * intros self' r.
        repeat (case_bool_decide || cbn [negb]); intros [= <- <-]; reflexivity.
Qed.

(** *** The message for statuses that are not expected *)

#[local] Instance string_le_total : Total string_le.
Proof.
  intros a b. unfold string_le.
  destruct (String.leb_total a b) as [H|H]; rewrite H; [left|right]; exact I.
Qed.

#[local] Instance ExecStatus_name_inj : Inj eq eq ExecStatus_name.
Proof. intros [] []; cbn; congruence. Qed.

(** When some result has a status that is not expected, none has a COPY
    status and the last one is not FATAL_ERROR, [_execute_results] raises
    [InternalError]; after its fixed head the message joins with commas
    the names of the statuses that are not expected, each once, in
    alphabetical order.  A FATAL_ERROR that is not the last result is
    reported this way, not as the database error of its SQLSTATE. *)
Theorem execute_results_unexpected self results rlast :
  last results = Some rlast ->
  status rlast <> FATAL_ERROR ->
  Forall (fun r => status r ∉ copy_statuses) results ->
  Exists (fun r => status r ∉ ok_statuses) results ->
  exists names,
    _execute_results self results =
      (self, Raise (mkExc InternalError
                      ("got unexpected status from query: " ++ join_comma names))) /\
    Sorted string_le names /\ NoDup names /\
    forall n, n ∈ names <->
      exists r, r ∈ results /\ (status r ∉ ok_statuses) /\
                n = ExecStatus_name (status r).
Proof.
  intros Hlast Hst Hcopy Hex.
  exists (merge_sort string_le (ExecStatus_name <$> badstats results)).
  assert (Hbad : badstats results <> []).
  { rewrite badstats_nil. intros Hall. apply Exists_exists in Hex as (r & Hr & Hnot).
    rewrite Forall_forall in Hall. apply Hnot, Hall, Hr. }
  split; [|split; [|split]].
  - rewrite (execute_results_nonempty_bad _ _ _ Hlast Hbad).
    rewrite bool_decide_eq_false_2 by exact Hst.
    rewrite bool_decide_eq_true_2; [reflexivity|].
    destruct (list_intersection (badstats results) copy_statuses) as [|s l] eqn:Hi;
      [reflexivity|].
    exfalso. assert (Hin : s ∈ list_intersection (badstats results) copy_statuses)
      by (rewrite Hi; left).
    apply list_elem_of_intersection in Hin as [Hin Hc].
    apply badstats_elem in Hin as [Hin _].
    apply list_elem_of_fmap in Hin as (r & -> & Hr).
    rewrite Forall_forall in Hcopy. apply (Hcopy r Hr), Hc.
  - apply Sorted_merge_sort. apply _.
  - rewrite merge_sort_Permutation.
    apply (NoDup_fmap_2 _). unfold badstats.
    apply NoDup_list_difference, NoDup_remove_dups.
  - intros n. rewrite merge_sort_Permutation, list_elem_of_fmap. split.
    + intros (s & -> & Hs). apply badstats_elem in Hs as [Hs Hnot].
      apply list_elem_of_fmap in Hs as (r & -> & Hr). exists r. auto.
    + intros (r & Hr & Hnot & ->). exists (status r). split; [reflexivity|].
      apply badstats_elem. split; [|exact Hnot].
      apply list_elem_of_fmap. exists r. auto.
Qed.

(** *** Moving through the results and the rows *)

Lemma nextset_iter self (k : nat) :
  _iresult self = 0 ->
  _iresult (Nat.iter k (fun c => (nextset c).1) self) = Z.of_nat k /\
  _results (Nat.iter k (fun c => (nextset c).1) self) = _results self.
Proof.
  intros H0. induction k as [|k [IHi IHr]]; [split; [exact H0 | reflexivity]|].
  rewrite ?Nat.iter_succ. remember (Nat.iter k _ self) as c eqn:Hc in *. clear Hc.
  unfold nextset. cbv zeta.
  cbn [binary _results _result _pos _iresult _transformer].
  destruct (_iresult c + 1 <? Z.of_nat (length (_results c)));
    cbn [fst _iresult _results]; (split; [rewrite IHi; lia | exact IHr]).
Qed.

(** On a cursor at its first result (as [execute] leaves it), the calls of
    [nextset] go through the stored results in order: the call number
    [k + 1] returns [True], makes result [k + 1] the current one and puts
    the position back to 0 while there is such a result, and returns
    [None] from then on. *)
Theorem nextset_walks_results self (k : nat) :
  _iresult self = 0 ->
  (nextset (Nat.iter k (fun c => (nextset c).1) self)).2
    = (if bool_decide (S k < length (_results self))%nat then Some true else None) /\
  ((S k < length (_results self))%nat ->
   _result (Nat.iter (S k) (fun c => (nextset c).1) self) = _results self !! S k /\
   _pos (Nat.iter (S k) (fun c => (nextset c).1) self) = 0).
Proof.
  intros H0. destruct (nextset_iter self k H0) as [Hi Hr].
  rewrite ?Nat.iter_succ. remember (Nat.iter k _ self) as c eqn:Hc in *. clear Hc.
  unfold nextset. cbv zeta.
  cbn [binary _results _result _pos _iresult _transformer]. rewrite Hi, Hr.
  destruct (Z.ltb_spec (Z.of_nat k + 1) (Z.of_nat (length (_results self))))
    as [Hlt|Hge].
  - rewrite bool_decide_eq_true_2 by lia. cbn. split; [reflexivity|].
    intros _. replace (Z.to_nat (Z.of_nat k + 1)) with (S k) by lia.
    split; reflexivity.
  - rewrite bool_decide_eq_false_2 by lia. cbn. split; [reflexivity|]. lia.
Qed.

Lemma fetchone_iter self res (row : Z -> list PyObj) (k : nat) :
  _result self = Some res -> _pos self = 0 -> 0 <= ntuples res ->
  (forall tx n, 0 <= n < ntuples res ->
     exists tx', cast_row tx res n = (tx', Ok (row n))) ->
  _result (Nat.iter k (fun c => (fetchone c).1) self) = Some res /\
  _pos (Nat.iter k (fun c => (fetchone c).1) self)
    = Z.min (Z.of_nat k) (ntuples res).
Proof.
  intros Hres Hpos Hn Hcast.
  induction k as [|k [IHr IHp]]; [split; [exact Hres | simpl; lia]|].
  rewrite ?Nat.iter_succ. remember (Nat.iter k _ self) as c eqn:Hc in *. clear Hc.
  unfold fetchone, _cast_row. rewrite IHr, IHp.
  destruct (Z.geb_spec (Z.min (Z.of_nat k) (ntuples res)) (ntuples res))
    as [Hge|Hlt].
  - cbn. rewrite IHr, IHp. split; [reflexivity | lia].
  - destruct (Hcast (_transformer c) (Z.min (Z.of_nat k) (ntuples res)))
      as (tx' & Htx); [lia|].
    rewrite Htx. cbn. rewrite IHr, IHp. split; [reflexivity | lia].
Qed.

(** With a current result of [ntuples] rows that the Transformer decodes,
    row [n] to [row n], the calls of [fetchone] from position 0 return the
    rows in order, each once: the call number [k + 1] returns [row k] for
    [k < ntuples], and [None] from then on, the position staying at
    [ntuples]. *)
Theorem fetchone_walks_rows self res (row : Z -> list PyObj) (k : nat) :
  _result self = Some res -> _pos self = 0 -> 0 <= ntuples res ->
  (forall tx n, 0 <= n < ntuples res ->
     exists tx', cast_row tx res n = (tx', Ok (row n))) ->
  (fetchone (Nat.iter k (fun c => (fetchone c).1) self)).2
    = (if bool_decide (Z.of_nat k < ntuples res) then Ok (Some (row (Z.of_nat k)))
       else Ok None) /\
  _pos (Nat.iter k (fun c => (fetchone c).1) self)
    = Z.min (Z.of_nat k) (ntuples res).
Proof.
  intros Hres Hpos Hn Hcast.
  destruct (fetchone_iter self res row k Hres Hpos Hn Hcast) as [Hr Hp].
  split; [|exact Hp].
  remember (Nat.iter k _ self) as c eqn:Hc in *. clear Hc.
  unfold fetchone, _cast_row. rewrite Hr, Hp.
  destruct (Z.geb_spec (Z.min (Z.of_nat k) (ntuples res)) (ntuples res))
    as [Hge|Hlt].
  - rewrite bool_decide_eq_false_2 by lia. reflexivity.
  - destruct (Hcast (_transformer c) (Z.min (Z.of_nat k) (ntuples res)))
      as (tx' & Htx); [lia|].
    rewrite Htx. rewrite bool_decide_eq_true_2 by lia. cbn.
    rewrite Z.min_l by lia. reflexivity.
Qed.

(** *** The cursor after [execute] *)

Lemma execute_send_state self query vars :
  exists tx,
    (_execute_send self query vars).1 = set_transformer (_reset self) tx.
Proof.
  unfold _execute_send.
  repeat (match goal with
          | |- context [match ?x with _ => _ end] => destruct x
          end; cbn [fst]);
    first [ exists Transformer_new; reflexivity | eexists; reflexivity ].
Qed.

(** [execute] drops what the cursor held before anything else: when it
    raises, in the preparation of the query, in the wait or on the results,
    the cursor holds no result and [fetchone] returns [None]; when it
    returns, the cursor holds the results that the wait gave, all with an
    expected status, and stands before the first row of the first one. *)
Theorem execute_outcome wait self query vars self' :
  (forall e, execute wait self query vars = (self', Raise e) ->
     _results self' = [] /\ _result self' = None /\
     _pos self' = 0 /\ _iresult self' = 0 /\
     fetchone self' = (self', Ok None)) /\
  (execute wait self query vars = (self', Ok tt) ->
     exists gen results r0,
       wait gen = Ok results /\ head results = Some r0 /\
       Forall (fun r => status r ∈ ok_statuses) results /\
       _results self' = results /\ _result self' = Some r0 /\
       _pos self' = 0 /\ _iresult self' = 0).
Proof.
  unfold execute.
  destruct (execute_send_state self query vars) as (tx & Hstate).
  destruct (_execute_send self query vars) as [s1 [gen|e1]]; cbn [fst] in Hstate.
  - destruct (wait gen) as [results|e2] eqn:Hwait.
    + destruct (_execute_results s1 results) as [s2 r] eqn:Hres.
      unfold _execute_results in Hres.
      destruct results as [|r0 rest].
      * injection Hres as <- <-. subst s1. split; [|discriminate].
        intros e [= <- _]. repeat split.
      * cbv zeta in Hres. revert Hres. case_bool_decide as Hbad.
        -- intros [= <- <-]. subst s1. split; [discriminate|].
           intros [= <-]. exists gen, (r0 :: rest), r0.
           apply badstats_nil in Hbad. repeat split; assumption.
        -- repeat (case_bool_decide || cbn [negb]); intros [= <- <-]; subst s1;
             (split; [|discriminate]); intros e [= <- _]; repeat split.
    + subst s1. split; [|discriminate]. intros e [= <- _]. repeat split.
  - subst s1. split; [|discriminate]. intros e [= <- _]. repeat split.
Qed.

(** [_execute_send] refuses parameters that do not match the placeholders
    of the query before anything is sent: a mapping for which [query2pg]
    gives no order of names, and a sequence for which it gives one, fail
    the assertions; the cursor has been reset all the same. *)
Theorem execute_send_kind_mismatch self query q q' formats :
  encode_query query = Ok q ->
  (forall m, m <> [] ->
     query2pg q (PMap m) = Ok (q', formats, None) ->
     _execute_send self query (Some (PMap m))
       = (_reset self, Raise (mkExc AssertionError ""))) /\
  (forall l order, l <> [] ->
     query2pg q (PSeq l) = Ok (q', formats, Some order) ->
     _execute_send self query (Some (PSeq l))
       = (_reset self, Raise (mkExc AssertionError ""))).
Proof.
  intros Henc. unfold _execute_send. rewrite Henc. split.
  - intros m Hm Hq. rewrite Hq. cbn [truthy].
    rewrite bool_decide_eq_false_2 by exact Hm. reflexivity.
  - intros l order Hl Hq. rewrite Hq. cbn [truthy].
    rewrite bool_decide_eq_false_2 by exact Hl. reflexivity.
Qed.

End Cursor.

(** *** The theorems at concrete cursors *)

Definition cursor0 : BaseCursor unit :=
  mkCursor unit false [] None 0 0 tt.

Definition tuples_result : PGresult :=
  mkPGresult TUPLES_OK 1 None [[Some (B "1")]].
Definition copy_result : PGresult := mkPGresult COPY_IN 0 None [].
Definition unique_violation_result : PGresult :=
  mkPGresult FATAL_ERROR 0 (Some (B "23505")) [].

Definition no_message (res : PGresult) : string := "".

(** A cursor that holds the result of an earlier query. *)
Definition used_cursor : BaseCursor unit :=
  mkCursor unit false [tuples_result] (Some tuples_result) 1 0 tt.

(** A preparer that only does the [%%] reduction of a query without
    placeholders, and a Transformer that dumps integers in decimal. *)
Fixpoint unescape_percent (q : bytes) : bytes :=
  match q with
  | "%"%byte :: "%"%byte :: rest => "%"%byte :: unescape_percent rest
  | c :: rest => c :: unescape_percent rest
  | [] => []
  end.

Definition query2pg0 (q : bytes) (vars : Params bytes)
  : result (bytes * list Format * option (list string)) :=
  Ok (unescape_percent q, [], None).

Definition adapt_sequence0 (tx : unit) (vars : list bytes) (formats : list Format)
  : unit * result (list (option bytes) * list Z) :=
  (tx, Ok (Some <$> vars, (fun _ => 25) <$> vars)).

Definition reorder_params0 (m : list (string * bytes)) (order : list string)
  : result (list bytes) := Ok (snd <$> m).

(** *** The preparer and the packet *)

(** Modelled from the spec: [utils/queries.py] is not among the sources.
    The spec has the preparer take the query and a sequence or a mapping
    of parameters, with the placeholders [%s] (positional) or [%(name)s]
    (named), not mixed in one query; it gives the query with the
    placeholders rewritten to [$1..$N] and [%%] reduced to [%], one wire
    format for each parameter, and for the named style the names in the
    order of their positions.  What the spec does not describe is refused
    here: a [%] followed by anything else, the two styles mixed, a style
    that does not fit the kind of the parameters, and a sequence whose
    length is not the number of placeholders.  The spec names no class for
    these errors and no placeholder for the binary format. *)
Inductive Part :=
| Literal (c : byte)
| Positional
| Named (name : bytes).

#[global] Instance Part_eq_dec : EqDecision Part.
Proof. solve_decision. Defined.

Inductive Scan :=
| Plain
| AfterPercent
| InName (name : bytes)
| AfterName (name : bytes).

Definition placeholder_error : PyExc :=
  mkExc ProgrammingError "unsupported placeholder".

Fixpoint split_query (state : Scan) (query : bytes) : result (list Part) :=
  match query with
  | [] => match state with Plain => Ok [] | _ => Raise placeholder_error end
  | c :: rest =>
    match state with
    | Plain =>
      if bool_decide (c = "%"%byte) then split_query AfterPercent rest
      else cons (Literal c) <$> split_query Plain rest
    | AfterPercent =>
      if bool_decide (c = "%"%byte) then
        cons (Literal c) <$> split_query Plain rest
      else if bool_decide (c = "s"%byte) then
        cons Positional <$> split_query Plain rest
      else if bool_decide (c = "("%byte) then split_query (InName []) rest
      else Raise placeholder_error
    | InName name =>
      if bool_decide (c = ")"%byte) then split_query (AfterName name) rest
      else split_query (InName (name ++ [c])) rest
    | AfterName name =>
      if bool_decide (c = "s"%byte) then
        cons (Named name) <$> split_query Plain rest
      else Raise placeholder_error
    end
  end.

Definition part_name (part : Part) : option bytes :=
  match part with Named name => Some name | _ => None end.

(** The names of a query, each once, in the order they first appear. *)
Definition names_of (parts : list Part) : list bytes :=
  remove_dups (omap part_name parts).

Definition positional_count (parts : list Part) : nat :=
  length (filter (fun part => part = Positional) parts).

(** [$n] *)
Definition placeholder (n : nat) : bytes := "$"%byte :: str_N (N.of_nat n).

Fixpoint render (names : list bytes) (n : nat) (parts : list Part) : bytes :=
  match parts with
  | [] => []
  | Literal c :: rest => c :: render names n rest
  | Positional :: rest => placeholder (S n) ++ render names (S n) rest
  | Named name :: rest =>
    placeholder (S (default 0%nat (fst <$> list_find (fun x => x = name) names)))
      ++ render names n rest
  end.

Definition query2pg {PyObj : Type} (query : bytes) (vars : Params PyObj)
  : result (bytes * list Format * option (list string)) :=
  parts ← split_query Plain query;
  let names := names_of parts in
  let count := positional_count parts in
  match vars with
  | PSeq l =>
    if bool_decide (names = []) && bool_decide (length l = count) then
      Ok (render [] 0 parts, replicate count TEXT, None)
    else Raise placeholder_error
  | PMap _ =>
    if bool_decide (count = 0%nat) then
      Ok (render names 0 parts, replicate (length names) TEXT,
          Some (string_of_list_byte <$> names))
    else Raise placeholder_error
  end.





Section Packets.

Variable PyObj : Type.
Variable Transformer : Type.
Variable Transformer_new : Transformer.
Variable codec_encode : string -> result bytes.
Variable reorder_params :
  list (string * PyObj) -> list string -> result (list PyObj).
Variable adapt_sequence :
  Transformer -> list PyObj -> list Format ->
  Transformer * result (list (option bytes) * list Z).



End Packets.

(** Modelled from the spec: the values of a mapping in the order of the
    names that the preparer returned, [[vars[name] for name in order]]; a
    name that the mapping lacks raises [KeyError]. *)
Definition reorder_params {PyObj : Type} (vars : list (string * PyObj))
    (order : list string) : result (list PyObj) :=
  mapM (fun name =>
          match list_find (fun item => item.1 = name) vars with
          | Some (_, item) => Ok item.2
          | None => Raise (mkExc KeyError name)
          end) order.

Lemma execute_results_fatal_error_witness :
  _execute_results unit exceptions.class_for_state no_message cursor0
    [tuples_result; copy_result; unique_violation_result] =
  (cursor0, Raise (mkExc UniqueViolation "")).
Proof.
  apply (execute_results_fatal_error unit exceptions.class_for_state no_message
           cursor0 [tuples_result; copy_result; unique_violation_result]
           unique_violation_result); reflexivity.
Defined.

Lemma execute_results_copy_witness :
  exists msg,
    _execute_results unit exceptions.class_for_state no_message cursor0
      [copy_result; tuples_result] =
      (cursor0, Raise (mkExc ProgrammingError msg)) /\
    mentions "copy()" msg = true.
Proof.
  destruct (execute_results_copy bytes unit tt (fun s => Ok (B s)) query2pg0
              reorder_params0
              adapt_sequence0 exceptions.class_for_state no_message cursor0
              [copy_result; tuples_result] tuples_result COPY_IN)
    as (msg & H1 & H2 & _).
  - reflexivity.
  - discriminate.
  - unfold copy_statuses. apply elem_of_cons. left. reflexivity.
  - simpl. apply elem_of_cons. left. reflexivity.
  - exists msg. split; assumption.
Defined.


(** A decoder that raises DataError on the first row of a result. *)
Definition failing_cast_row (tx : unit) (res : PGresult) (n : Z)
  : unit * result (list bytes) :=
  (tx, if bool_decide (n = 0) then Raise (mkExc DataError "invalid input")
       else Ok []).

Lemma fetchone_error_keeps_position_witness :
  fetchone bytes unit failing_cast_row
    (mkCursor unit false [tuples_result] (Some tuples_result) 0 0 tt) =
  (mkCursor unit false [tuples_result] (Some tuples_result) 0 0 tt,
   Raise (mkExc DataError "invalid input")).
Proof.
  apply (proj1 (proj2 (fetchone_error_keeps_position bytes unit failing_cast_row
           (mkCursor unit false [tuples_result] (Some tuples_result) 0 0 tt)))
           tuples_result tt (mkExc DataError "invalid input"));
    [reflexivity | simpl; lia | reflexivity].
Defined.

Lemma fetchone_exhausted_witness :
  fetchone bytes unit (fun tx _ _ => (tx, Ok []))
    (mkCursor unit false [tuples_result] (Some tuples_result) 1 0 tt) =
  (mkCursor unit false [tuples_result] (Some tuples_result) 1 0 tt, Ok None).
Proof.
  apply (fetchone_exhausted bytes unit).
  right. exists tuples_result. split; [reflexivity|]. simpl. lia.
Defined.

(** *** The cursor on concrete results *)

Definition command_result : PGresult := mkPGresult COMMAND_OK 0 None [].

Definition two_rows_result : PGresult :=
  mkPGresult TUPLES_OK 2 None [[Some (B "1")]; [Some (B "2")]].

(** A decoder that returns the number of the row. *)
Definition row_number_cast_row (tx : unit) (res : PGresult) (n : Z)
  : unit * result (list Z) := (tx, Ok [n]).

Lemma execute_results_unexpected_witness :
  exists names,
    _execute_results unit exceptions.class_for_state no_message cursor0
      [unique_violation_result; tuples_result] =
      (cursor0, Raise (mkExc InternalError
                         ("got unexpected status from query: " ++ join_comma names))) /\
    Sorted string_le names /\ NoDup names /\
    forall n, n ∈ names <->
      exists r, r ∈ [unique_violation_result; tuples_result] /\
                (status r ∉ ok_statuses) /\ n = ExecStatus_name (status r).
Proof.
  assert (Hnot : forall (s : ExecStatus) (l : list ExecStatus),
            bool_decide (s ∈ l) = false -> s ∉ l)
    by (intros s l H; apply bool_decide_eq_false in H; exact H).
  apply (execute_results_unexpected unit exceptions.class_for_state no_message
           cursor0 [unique_violation_result; tuples_result] tuples_result).
  - reflexivity.
  - discriminate.
  - repeat constructor; apply Hnot; reflexivity.
  - apply Exists_cons_hd. apply Hnot. reflexivity.
Defined.

Lemma nextset_walks_results_witness :
  (nextset unit
     (mkCursor unit false [tuples_result; command_result]
        (Some tuples_result) 1 0 tt)).2 = Some true /\
  _result unit
    (nextset unit
       (mkCursor unit false [tuples_result; command_result]
          (Some tuples_result) 1 0 tt)).1 = Some command_result /\
  (nextset unit
     (nextset unit
        (mkCursor unit false [tuples_result; command_result]
           (Some tuples_result) 1 0 tt)).1).2 = None.
Proof.
  pose proof (nextset_walks_results unit
                (mkCursor unit false [tuples_result; command_result]
                   (Some tuples_result) 1 0 tt) 0 eq_refl) as [H0 H1].
  pose proof (nextset_walks_results unit
                (mkCursor unit false [tuples_result; command_result]
                   (Some tuples_result) 1 0 tt) 1 eq_refl) as [H2 _].
  split; [exact H0|]. split; [|exact H2].
  apply H1. cbn. lia.
Defined.

Lemma fetchone_walks_rows_witness :
  (fetchone Z unit row_number_cast_row
     (mkCursor unit false [two_rows_result] (Some two_rows_result) 0 0 tt)).2
    = Ok (Some [0]) /\
  (fetchone Z unit row_number_cast_row
     (fetchone Z unit row_number_cast_row
        (mkCursor unit false [two_rows_result] (Some two_rows_result) 0 0 tt)).1).2
    = Ok (Some [1]) /\
  (fetchone Z unit row_number_cast_row
     (Nat.iter 2 (fun c => (fetchone Z unit row_number_cast_row c).1)
        (mkCursor unit false [two_rows_result] (Some two_rows_result) 0 0 tt))).2
    = Ok None.
Proof.
  assert (H : forall k : nat,
            (fetchone Z unit row_number_cast_row
               (Nat.iter k (fun c => (fetchone Z unit row_number_cast_row c).1)
                  (mkCursor unit false [two_rows_result] (Some two_rows_result)
                     0 0 tt))).2
            = (if bool_decide (Z.of_nat k < 2) then Ok (Some [Z.of_nat k])
               else Ok None)).
  { intros k.
    apply (fetchone_walks_rows Z unit row_number_cast_row
             (mkCursor unit false [two_rows_result] (Some two_rows_result) 0 0 tt)
             two_rows_result (fun n => [n]) k);
      [reflexivity | reflexivity | cbn; lia |].
    intros tx n _. exists tx. reflexivity. }
  split; [exact (H 0%nat)|]. split; [exact (H 1%nat) | exact (H 2%nat)].
Defined.

Lemma execute_send_kind_mismatch_witness :
  _execute_send bytes unit tt (fun s => Ok (B s)) query2pg0 reorder_params0
    adapt_sequence0 cursor0 (QStr "select %s") (Some (PMap [("a"%string, B "1")]))
  = (cursor0, Raise (mkExc AssertionError "")).
Proof.
  apply (proj1 (execute_send_kind_mismatch bytes unit tt (fun s => Ok (B s))
                  query2pg0 reorder_params0 adapt_sequence0 cursor0
                  (QStr "select %s") (B "select %s") (B "select %s") [] eq_refl)
           [("a"%string, B "1")]);
    [discriminate | reflexivity].
Defined.

Lemma execute_outcome_witness :
  (exists self' e,
     execute bytes unit tt (fun s => Ok (B s)) query2pg0 reorder_params0
       adapt_sequence0 exceptions.class_for_state no_message
       (fun _ => Ok [copy_result]) used_cursor (QStr "copy t from stdin") None
     = (self', Raise e) /\
     _results unit self' = [] /\ _result unit self' = None /\
     fetchone bytes unit (fun tx _ _ => (tx, Ok [])) self' = (self', Ok None)) /\
  (exists self',
     execute bytes unit tt (fun s => Ok (B s)) query2pg0 reorder_params0
       adapt_sequence0 exceptions.class_for_state no_message
       (fun _ => Ok [two_rows_result; command_result]) used_cursor
       (QStr "select 1; update t set x = 1") None
     = (self', Ok tt) /\
     _result unit self' = Some two_rows_result /\ _pos unit self' = 0).
Proof.
  split.
  - eexists _, _. split; [reflexivity|].
    destruct (proj1 (execute_outcome bytes unit tt (fun s => Ok (B s)) query2pg0
                       reorder_params0 adapt_sequence0 (fun tx _ _ => (tx, Ok []))
                       exceptions.class_for_state no_message
                       (fun _ => Ok [copy_result]) used_cursor
                       (QStr "copy t from stdin") None _) _ eq_refl)
      as (H1 & H2 & _ & _ & H5).
    repeat split; assumption.
  - eexists. split; [reflexivity|].
    destruct (proj2 (execute_outcome bytes unit tt (fun s => Ok (B s)) query2pg0
                       reorder_params0 adapt_sequence0 (fun tx _ _ => (tx, Ok []))
                       exceptions.class_for_state no_message
                       (fun _ => Ok [two_rows_result; command_result]) used_cursor
                       (QStr "select 1; update t set x = 1") None _) eq_refl)
      as (gen & results & r0 & Hw & Hh & _ & Hr & Hres & Hp & _).
    injection Hw as <-. injection Hh as <-. split; assumption.
Defined.

End cursor.
